(** * electricity-dashboard: the fetch / merge / spread / forecast pipeline

    A shallow embedding of the Streamlit scripts
    [electricity_dashboard_final_debugged.py] (the fetch function and the
    three blocks of the page) and [electricity_dashboard_rolling7d.py] (the
    fetch function, which is all that file has), and the fetch function of
    [electricity_dashboard_cleaned_v2.py], which has a fixed date window.
    The fourth file, [electricity_dashboard_v2api.py], is not modelled:
    Python does not load it (an indented block follows the comment of its
    line 82).

    - JSON payloads are Python objects ([json]); a DataFrame is a list of
      column labels with row-major cells.
    - Effects (Streamlit messages, the HTTP request, in-place DataFrame
      mutation, Python exceptions) live in one state-and-error monad [M].
    - pandas, requests and Prophet are libraries outside the repository: the
      operations the scripts call are modelled by what they do on the values
      the scripts hand them; each such definition says so. *)

From Stdlib Require Import ZArith String Ascii List Lia.
From Stdlib Require Import Floats.PrimFloat Floats.SpecFloat Floats.FloatOps.
From stdpp Require Import base option list sorting gmap strings pretty.

Open Scope Z_scope.
Set Warnings "-register-all".

(** ** Python values *)

(** What [r.json()] yields.  A dict keeps insertion order, so it is an
    association list (of distinct keys).  A number written without fraction
    or exponent is a Python [int], of any size ([JInt]); every other number
    is a [float], an IEEE double ([JNum]). *)
Inductive json : Type :=
| JNull
| JBool (b : bool)
| JInt (n : Z)
| JNum (x : float)
| JStr (s : string)
| JArr (l : list json)
| JObj (o : list (string * json)).

Inductive exn : Type :=
| NameError (name : string)
| AttributeError (attr : string)
| KeyError (key : string)
| IndexError
| TypeError
| ValueError
| ParserError (text : string)
| OutOfBoundsDatetime
| ConnectionError
| JSONDecodeError.

(** First binding of [k] in a dict. *)
Fixpoint assoc {A} (k : string) (o : list (string * A)) : option A :=
  match o with
  | [] => None
  | (k', v) :: o' => if String.eqb k k' then Some v else assoc k o'
  end.

(** [d.get(k, default)]: only dicts have [get]. *)
Definition json_get (j : json) (k : string) (default : json) : exn + json :=
  match j with
  | JObj o => inr (match assoc k o with Some v => v | None => default end)
  | _ => inl (AttributeError "get")
  end.

(** Python truthiness, as [not data] uses it. *)
Definition truthy (j : json) : bool :=
  match j with
  | JNull => false
  | JBool b => b
  | JInt n => negb (n =? 0)
  | JNum x => negb (PrimFloat.eqb x 0%float)
  | JStr s => negb (String.eqb s "")
  | JArr l => match l with [] => false | _ => true end
  | JObj o => match o with [] => false | _ => true end
  end.

(** ** DataFrames *)

(** A cell is a parsed timestamp (seconds since the epoch) or [NaT] in a
    [datetime64] column, a 64-bit integer in an [int64] column, or the
    Python object the payload carried: a [float] ([CVal (JNum x)], in a
    [float64] column as in a column of objects; the arithmetic is the same)
    or anything else, in a column of objects.  A missing entry is NaN. *)
Inductive cell : Type :=
| CTime (t : Z)
| CNaT
| CInt (n : Z)
| CVal (j : json).

Definition NaN_cell : cell := CVal (JNum PrimFloat.nan).

Definition num (x : float) : cell := CVal (JNum x).

Record DataFrame : Type := mkDF {
  columns : list string;
  rows : list (list cell)
}.

(** [pd.DataFrame()] *)
Definition empty_frame : DataFrame := mkDF [] [].

(** [df.empty]: some axis has length 0. *)
Definition empty (df : DataFrame) : bool :=
  match columns df, rows df with
  | _ :: _, _ :: _ => false
  | _, _ => true
  end.

(** [len(df)] *)
Definition len (df : DataFrame) : nat := length (rows df).

Fixpoint col_index (c : string) (cols : list string) : option nat :=
  match cols with
  | [] => None
  | c' :: cols' =>
      if String.eqb c c' then Some 0%nat else S <$> col_index c cols'
  end.

Definition has_column (c : string) (df : DataFrame) : bool :=
  match col_index c (columns df) with Some _ => true | None => false end.

(** The cell of [row] under label [c]. *)
Definition row_get (cols : list string) (row : list cell) (c : string)
  : option cell :=
  i ← col_index c cols; row !! i.

(** [df[c]]: the column as a list, [KeyError] when the label is absent. *)
Definition get_column (df : DataFrame) (c : string) : exn + list cell :=
  match col_index c (columns df) with
  | Some i => inr (map (fun r => default NaN_cell (r !! i)) (rows df))
  | None => inl (KeyError c)
  end.

Fixpoint zip_rows (rs : list (list cell)) (vs : list cell)
  (f : list cell -> cell -> list cell) : list (list cell) :=
  match rs, vs with
  | r :: rs', v :: vs' => f r v :: zip_rows rs' vs' f
  | _, _ => []
  end.

(** [df[c] = values]: overwrite the column when the label exists, append it
    otherwise.  [values] comes from the same frame in every use, so it has
    one entry per row. *)
Definition set_column (df : DataFrame) (c : string) (values : list cell)
  : DataFrame :=
  match col_index c (columns df) with
  | Some i => mkDF (columns df) (zip_rows (rows df) values (fun r v => <[i:=v]> r))
  | None => mkDF (columns df ++ [c]) (zip_rows (rows df) values (fun r v => r ++ [v]))
  end.

Fixpoint col_indices (cs cols : list string) : exn + list nat :=
  match cs with
  | [] => inr []
  | c :: cs' =>
      match col_index c cols with
      | None => inl (KeyError c)
      | Some i =>
          match col_indices cs' cols with
          | inl e => inl e
          | inr ixs => inr (i :: ixs)
          end
      end
  end.

(** [df[[c1, ..., cn]]] *)
Definition select (df : DataFrame) (cs : list string) : exn + DataFrame :=
  match col_indices cs (columns df) with
  | inl e => inl e
  | inr ixs =>
      inr (mkDF cs (map (fun r => map (fun i => default NaN_cell (r !! i)) ixs)
                        (rows df)))
  end.

(** [df.rename(columns={...})]: labels outside the mapping stay. *)
Definition rename (df : DataFrame) (mapping : list (string * string))
  : DataFrame :=
  mkDF (map (fun c => default c (assoc c mapping)) (columns df)) (rows df).

(** Union of the records' keys, in order of first appearance. *)
Fixpoint add_keys (seen : list string) (o : list (string * json)) : list string :=
  match o with
  | [] => seen
  | (k, _) :: o' =>
      add_keys (if bool_decide (k ∈ seen) then seen else seen ++ [k]) o'
  end.

Fixpoint record_keys (seen : list string) (data : list json)
  : option (list string) :=
  match data with
  | [] => Some seen
  | JObj o :: data' => record_keys (add_keys seen o) data'
  | _ :: _ => None
  end.

Definition record_row (cols : list string) (j : json) : list cell :=
  match j with
  | JObj o => map (fun c => match assoc c o with
                            | Some v => CVal v
                            | None => NaN_cell
                            end) cols
  | _ => []
  end.

(** *** Column types *)

Definition int64_min : Z := - 2 ^ 63.
Definition int64_max : Z := 2 ^ 63 - 1.

Definition in_int64 (n : Z) : bool := (int64_min <=? n) && (n <=? int64_max).

(** Subtraction of 64-bit integers as numpy does it: the result is reduced
    into the range, without a signal. *)
Definition wrap64 (n : Z) : Z := (n + 2 ^ 63) mod 2 ^ 64 - 2 ^ 63.

(** The double nearest to an integer, ties to even. *)
Definition float_of_int (n : Z) : float :=
  SF2Prim (binary_normalize prec emax n 0 false).

Definition isnan (x : float) : bool := negb (PrimFloat.eqb x x).

Definition isinf (x : float) : bool :=
  PrimFloat.eqb (PrimFloat.abs x) PrimFloat.infinity.

(** The type pandas gives a column it builds from Python objects: [int64]
    when every entry is an [int] that fits, [float64] when the entries are
    numbers and missing ones ([None], or NaN for a key a record lacks), and
    a column of objects otherwise.  (An [int] beyond 64 bits keeps its
    column among the objects here; pandas has [uint64] for some of those.
    Such columns, and columns of booleans, are not followed into
    arithmetic.) *)
Inductive dtype : Type := Int64 | Float64 | Object.

Definition is_int64 (c : cell) : bool :=
  match c with CVal (JInt n) => in_int64 n | _ => false end.

Definition is_number (c : cell) : bool :=
  match c with
  | CVal (JInt n) => in_int64 n
  | CVal (JNum _) => true
  | _ => false
  end.

Definition is_None (c : cell) : bool :=
  match c with CVal JNull => true | _ => false end.

Definition infer (col : list cell) : dtype :=
  if forallb is_int64 col then Int64
  else if forallb (fun c => is_number c || is_None c) col
          && existsb is_number col then Float64
  else Object.

(** An entry as its column's type holds it. *)
Definition as_dtype (d : dtype) (c : cell) : cell :=
  match d, c with
  | Int64, CVal (JInt n) => CInt n
  | Float64, CVal (JInt n) => num (float_of_int n)
  | Float64, CVal JNull => NaN_cell
  | _, _ => c
  end.

Definition column_at (i : nat) (rs : list (list cell)) : list cell :=
  map (fun r => default NaN_cell (r !! i)) rs.

(** Every column of a table of objects brought to its type. *)
Definition infer_objects (rs : list (list cell)) : list (list cell) :=
  map (fun r => imap (fun i c => as_dtype (infer (column_at i rs)) c) r) rs.

Definition is_list (j : json) : bool :=
  match j with JArr _ => true | _ => false end.

Definition list_length (j : json) : nat :=
  match j with JArr l => length l | _ => 0 end.

(** A row of a list of lists, padded with [None] to [k] entries. *)
Definition list_row (k : nat) (j : json) : list cell :=
  match j with
  | JArr l => map CVal l ++ replicate (k - length l) (CVal JNull)
  | _ => []
  end.

(** The [i]-th entry of a list, as a cell. *)
Definition list_cell (i : nat) (j : json) : cell :=
  match j with
  | JArr l => default NaN_cell (CVal <$> l !! i)
  | _ => NaN_cell
  end.

(** [pd.DataFrame(data)] on the payload.  pandas looks at the first entry
    of a list.  A dict: one row per dict and one column per key; a later
    entry that is no dict is asked for its keys, and Python raises
    [AttributeError].  A list: one column per position, labelled by
    number, shorter rows padded.  Anything else: one column of the entries
    as they are, unless a list stands among them ([ValueError] from
    numpy).  A dict of lists of one length gives one column per key, and
    lists of different lengths or a dict of scalars [ValueError]; a scalar
    is [ValueError] too.  Two corners are not followed, and the model
    reports an error where pandas goes on: a list of lists with an entry
    that is no list (Python iterates a string or a dict there; the model
    says [TypeError], which is right for a number), and a dict that holds
    dicts, or lists beside scalars (the model says [ValueError]). *)
Definition DataFrame_of (data : json) : exn + DataFrame :=
  match data with
  | JArr l =>
      match record_keys [] l with
      | Some cols => inr (mkDF cols (infer_objects (map (record_row cols) l)))
      | None =>
          match l with
          | JObj _ :: _ => inl (AttributeError "keys")
          | JArr _ :: _ =>
              if forallb is_list l then
                let k := foldr Nat.max 0%nat (map list_length l) in
                inr (mkDF (map pretty (seq 0 k))
                          (infer_objects (map (list_row k) l)))
              else inl TypeError
          | _ =>
              if existsb is_list l then inl ValueError
              else inr (mkDF ["0"] (infer_objects (map (fun v => [CVal v]) l)))
          end
      end
  | JObj o =>
      if forallb (fun kv => is_list kv.2) o then
        let n := match o with (_, v) :: _ => list_length v | [] => 0%nat end in
        if forallb (fun kv => Nat.eqb (list_length kv.2) n) o then
          inr (mkDF o.*1
                 (infer_objects
                    (map (fun i => map (fun kv => list_cell i kv.2) o)
                         (seq 0 n))))
        else inl ValueError
      else inl ValueError
  | _ => inl ValueError
  end.

(** ** Calendar arithmetic *)

(** Days since 1970-01-01 of a proleptic Gregorian date. *)
Definition days_from_civil (y m d : Z) : Z :=
  let y := if m <=? 2 then y - 1 else y in
  let era := y / 400 in
  let yoe := y - era * 400 in
  let doy := (153 * (if 2 <? m then m - 3 else m + 9) + 2) / 5 + d - 1 in
  let doe := yoe * 365 + yoe / 4 - yoe / 100 + doy in
  era * 146097 + doe - 719468.

Definition civil_from_days (z : Z) : Z * Z * Z :=
  let z := z + 719468 in
  let era := z / 146097 in
  let doe := z - era * 146097 in
  let yoe := (doe - doe / 1460 + doe / 36524 - doe / 146096) / 365 in
  let doy := doe - (365 * yoe + yoe / 4 - yoe / 100) in
  let mp := (5 * doy + 2) / 153 in
  let d := doy - (153 * mp + 2) / 5 + 1 in
  let m := if mp <? 10 then mp + 3 else mp - 9 in
  ((if m <=? 2 then yoe + era * 400 + 1 else yoe + era * 400), m, d).

Definition digit (n : Z) : ascii :=
  ascii_of_nat (48 + Z.to_nat (n mod 10)).

Definition pad2 (n : Z) : string :=
  String (digit (n / 10)) (String (digit n) "").

Definition pad4 (n : Z) : string :=
  String (digit (n / 1000)) (String (digit (n / 100)) (pad2 n)).

(** [d.strftime("%Y-%m-%d")] of an instant in seconds since the epoch. *)
Definition strftime_Ymd (t : Z) : string :=
  let '(y, m, d) := civil_from_days (t / 86400) in
  pad4 y +:+ "-" +:+ pad2 m +:+ "-" +:+ pad2 d.

Definition digit_val (a : ascii) : option Z :=
  let n := Z.of_nat (nat_of_ascii a) in
  if (48 <=? n) && (n <=? 57) then Some (n - 48) else None.

Fixpoint digits_val (acc : Z) (s : string) : option Z :=
  match s with
  | EmptyString => Some acc
  | String a s' => d ← digit_val a; digits_val (10 * acc + d) s'
  end.

Definition days_in_month (y m : Z) : Z :=
  days_from_civil (if m =? 12 then y + 1 else y) (if m =? 12 then 1 else m + 1) 1
  - days_from_civil y m 1.

(** The instant a period string of the hourly API names: the ISO date, a
    [T] and a two-digit hour ([2023-07-01T05]), as seconds since the
    epoch. *)
Definition parse_layout (s : string) : option Z :=
  if negb (Nat.eqb (String.length s) 13) then None else
  if negb (String.eqb (substring 4 1 s) "-" && String.eqb (substring 7 1 s) "-"
           && String.eqb (substring 10 1 s) "T") then None else
  y ← digits_val 0 (substring 0 4 s);
  m ← digits_val 0 (substring 5 2 s);
  d ← digits_val 0 (substring 8 2 s);
  h ← digits_val 0 (substring 11 2 s);
  if (1 <=? m) && (m <=? 12) && (1 <=? d) && (d <=? days_in_month y m)
     && (h <=? 23)
  then Some (days_from_civil y m d * 86400 + h * 3600)
  else None.

(** A pandas timestamp counts nanoseconds in 64 bits: the instants from
    1677-09-21 00:12:44 to 2262-04-11 23:47:16. *)
Definition in_bounds (t : Z) : bool :=
  (- int64_max <=? t * 10 ^ 9) && (t * 10 ^ 9 <=? int64_max).

(** The period strings [pd.to_datetime] turns into a timestamp, among those
    of the hourly layout. *)
Definition parse_period (s : string) : option Z :=
  t ← parse_layout s; if in_bounds t then Some t else None.

(** [pd.to_datetime] on one entry.  A string of the hourly layout gives its
    instant, or [OutOfBoundsDatetime] outside the range; a missing entry
    gives [NaT].  pandas reads other layouts too, and takes numbers for
    nanoseconds; the model knows the layout the endpoint emits and reports
    every other string as unparseable and every other object as a
    [TypeError]. *)
Definition to_timestamp (c : cell) : exn + cell :=
  match c with
  | CVal (JStr s) =>
      match parse_layout s with
      | None => inl (ParserError s)
      | Some t => if in_bounds t then inr (CTime t) else inl OutOfBoundsDatetime
      end
  | CVal JNull => inr CNaT
  | CVal (JNum x) => if isnan x then inr CNaT else inl TypeError
  | CTime t => inr (CTime t)
  | CNaT => inr CNaT
  | _ => inl TypeError
  end.

(** [pd.to_datetime] on a column. *)
Fixpoint to_datetime (col : list cell) : exn + list cell :=
  match col with
  | [] => inr []
  | c :: col' =>
      match to_timestamp c with
      | inl e => inl e
      | inr t =>
          match to_datetime col' with
          | inl e => inl e
          | inr ts => inr (t :: ts)
          end
      end
  end.

(** ** Joins and column arithmetic *)

(** Equality of join keys; missing keys match each other.  The scripts
    only ever join on parsed timestamps. *)
Definition cell_key_eqb (a b : cell) : bool :=
  match a, b with
  | CTime s, CTime t => s =? t
  | CNaT, CNaT => true
  | CInt m, CInt n => m =? n
  | CVal (JStr s), CVal (JStr t) => String.eqb s t
  | CVal (JNum x), CVal (JNum y) => PrimFloat.eqb x y || (isnan x && isnan y)
  | CVal JNull, CVal JNull => true
  | _, _ => false
  end.

Definition key_match (i j : nat) (lr rr : list cell) : bool :=
  match lr !! i, rr !! j with
  | Some a, Some b => cell_key_eqb a b
  | _, _ => false
  end.

(** A label shared by both frames, other than the key, gets the side's
    suffix. *)
Definition suffixed (on : string) (other : list string) (suffix c : string)
  : string :=
  if negb (String.eqb c on) && bool_decide (c ∈ other) then c +:+ suffix else c.

(** [left.merge(right, on=on, suffixes=suffixes)], pandas' inner join: for
    each left row in order, one output row per right row with an equal key;
    the key column keeps its place on the left and is dropped from the
    right.  [KeyError] when a frame has no such column. *)
Definition merge (left right : DataFrame) (on : string)
  (suffixes : string * string) : exn + DataFrame :=
  match col_index on (columns left), col_index on (columns right) with
  | Some i, Some j =>
      inr (mkDF
        (map (suffixed on (columns right) suffixes.1) (columns left)
         ++ map (suffixed on (columns left) suffixes.2)
                (delete j (columns right)))
        (flat_map
           (fun lr => map (fun rr => lr ++ delete j rr)
                          (filter (fun rr => key_match i j lr rr) (rows right)))
           (rows left)))
  | _, _ => inl (KeyError on)
  end.

(** pandas' default [suffixes]. *)
Definition default_suffixes : string * string := ("_x", "_y").

(** [first.merge(d1, on="datetime").merge(d2, on="datetime")...] *)
Definition merge_chain (first : DataFrame) (rest : list DataFrame)
  : exn + DataFrame :=
  foldl (fun acc df =>
           match acc with
           | inl e => inl e
           | inr t => merge t df "datetime" default_suffixes
           end)
        (inr first) rest.

Definition is_missing (c : cell) : bool :=
  match c with
  | CVal JNull => true
  | CVal (JNum x) => isnan x
  | _ => false
  end.

(** [a - b] on one row of two columns.  Two [int64] entries are subtracted
    in 64 bits, the result wrapping around when it does not fit; when one
    entry is a double the other is turned into one, and the difference is
    one IEEE subtraction.  A missing operand gives NaN.  Strings, lists,
    dicts and the entries of a column of booleans cannot be subtracted:
    [TypeError].  (Integers and booleans that sit in a column of objects
    are not followed; the model reports [TypeError] for them too.) *)
Definition sub_cells (a b : cell) : exn + cell :=
  match a, b with
  | CInt x, CInt y => inr (CInt (wrap64 (x - y)))
  | CInt x, CVal (JNum y) => inr (num (float_of_int x - y))
  | CVal (JNum x), CInt y => inr (num (x - float_of_int y))
  | CVal (JNum x), CVal (JNum y) => inr (num (x - y))
  | _, _ => if is_missing a || is_missing b then inr NaN_cell else inl TypeError
  end.

(** [a - b] on two columns of one frame. *)
Fixpoint sub_columns (a b : list cell) : exn + list cell :=
  match a, b with
  | x :: a', y :: b' =>
      match sub_cells x y with
      | inl e => inl e
      | inr c =>
          match sub_columns a' b' with
          | inl e => inl e
          | inr r => inr (c :: r)
          end
      end
  | _, _ => inr []
  end.

(** What plotly express asks of the labels it is given before it draws:
    [x] and every label of [y] name a column of the frame; [ValueError]
    otherwise.  (It also wants the columns of [y] to be of one kind, all
    numbers or all something else.  A frame here does not record the types
    of its columns, so that check is not modelled; where a statement below
    says that a chart is shown, the charted columns hold doubles.) *)
Definition px_check (df : DataFrame) (x : string) (y : list string)
  : exn + unit :=
  if forallb (fun c => has_column c df) (x :: y) then inr tt
  else inl ValueError.

(** [df.columns[i]] *)
Definition column_label (df : DataFrame) (i : nat) : exn + string :=
  match columns df !! i with
  | Some c => inr c
  | None => inl IndexError
  end.

(** [df.tail(n)] *)
Definition tail (n : nat) (df : DataFrame) : DataFrame :=
  mkDF (columns df) (drop (length (rows df) - n) (rows df)).

(** The parsed timestamps of a frame whose first column is the key. *)
Definition timestamps (df : DataFrame) : list Z :=
  omap (fun r => match r with CTime t :: _ => Some t | _ => None end) (rows df).

(** ** Effects *)

(** What the script does to the outside: Streamlit calls and the HTTP
    request; charts and tables carry the frame they were given. *)
Inductive event : Type :=
| StCaption (text : string)
| StError (text : string)
| StWarning (text : string)
| StInfo (text : string)
| StSubheader (text : string)
| HttpGet (url : string)
| StLineChart (df : DataFrame)
| StPlotlyChart (title : string) (df : DataFrame)
| StDataframe (df : DataFrame).

(** DataFrame objects that are mutated in place live in [heap], addressed
    by position; [trace] is the log of events so far. *)
Record St : Type := mkSt {
  heap : list DataFrame;
  trace : list event
}.

Definition M (A : Type) : Type := St -> St * (exn + A).

#[global] Instance M_ret : MRet M := fun A a s => (s, inr a).
#[global] Instance M_bind : MBind M := fun A B f m s =>
  match m s with
  | (s', inl e) => (s', inl e)
  | (s', inr a) => f a s'
  end.

Definition raise {A} (e : exn) : M A := fun s => (s, inl e).

Definition lift {A} (r : exn + A) : M A := fun s => (s, r).

Definition emit (ev : event) : M unit :=
  fun s => (mkSt (heap s) (trace s ++ [ev]), inr tt).

(** A new object: its reference is the next free position. *)
Definition alloc (df : DataFrame) : M nat :=
  fun s => (mkSt (heap s ++ [df]) (trace s), inr (length (heap s))).

Definition load (l : nat) : M DataFrame :=
  fun s => match heap s !! l with
           | Some df => (s, inr df)
           | None => (s, inl (NameError "dangling"))
           end.

Definition store (l : nat) (df : DataFrame) : M unit :=
  fun s => (mkSt (<[l:=df]> (heap s)) (trace s), inr tt).

(** ** The outside world *)

Record Response : Type := mkResponse {
  status_code : Z;
  json_body : option json     (* [None]: the body is not JSON *)
}.

(** The clock (seconds since the epoch, UTC) and the server: what a GET of
    a URL answers, [None] when the connection fails.  A run reads the clock
    once per call of the fetch function; the model gives every reading of
    a run the same instant, so the six windows of a page are those of one
    day. *)
Record World : Type := mkWorld {
  clock : Z;
  serve : string -> option Response
}.

(** [requests.get(url)] *)
Definition requests_get (w : World) (url : string) : M Response :=
  emit (HttpGet url);;
  match serve w url with
  | Some r => mret r
  | None => raise ConnectionError
  end.

(** [r.json()] *)
Definition response_json (r : Response) : M json :=
  match json_body r with
  | Some j => mret j
  | None => raise JSONDecodeError
  end.

(** ** Module globals *)

(** What a module-level name of the script can be bound to, as far as the
    date arithmetic is concerned. *)
Inductive pyobj : Type :=
| DatetimeModule     (* [import datetime] *)
| DatetimeClass      (* [from datetime import datetime] *)
| TimedeltaClass.    (* [from datetime import timedelta] *)

(** [name.utcnow()] *)
Definition call_utcnow (g : gmap string pyobj) (name : string) (w : World)
  : M Z :=
  match g !! name with
  | None => raise (NameError name)
  | Some DatetimeClass => mret (clock w)
  | Some _ => raise (AttributeError "utcnow")
  end.

(** [name(days=n)], in seconds *)
Definition call_days (g : gmap string pyobj) (name : string) (n : Z) : M Z :=
  match g !! name with
  | None => raise (NameError name)
  | Some TimedeltaClass => mret (n * 86400)
  | Some _ => raise TypeError
  end.

(** The request URL both scripts build. *)
Definition eia_url (respondent code start_str end_str api_key : string)
  : string :=
  "https://api.eia.gov/v2/electricity/rto/region-data/data/"
  +:+ "?frequency=hourly&data[0]=value"
  +:+ "&facets[respondent][]=" +:+ respondent
  +:+ "&facets[type][]=ALL"
  +:+ "&facets[metric][]=" +:+ code
  +:+ "&start=" +:+ start_str +:+ "T00"
  +:+ "&end=" +:+ end_str +:+ "T23"
  +:+ "&sort[0][column]=period"
  +:+ "&sort[0][direction]=asc"
  +:+ "&api_key=" +:+ api_key.

(** The [metric_map] literal, the same in every file. *)
Definition metric_map : gmap string string :=
  list_to_map
    [("demand", "D"); ("net_generation", "NG"); ("wind", "NG.WND");
     ("solar", "NG.SUN"); ("net_interchange", "NI");
     ("lmp_da", "LMP_DA"); ("lmp_rt", "LMP_RT")].

(** Lines 76-79 of the fetch function, shared by all files. *)
Definition frame_of_data (data : json) (metric : string) : exn + DataFrame :=
  match DataFrame_of data with
  | inl e => inl e
  | inr df =>
      match get_column df "period" with
      | inl e => inl e
      | inr period =>
          match to_datetime period with
          | inl e => inl e
          | inr ts =>
              match select (set_column df "datetime" ts) ["datetime"; "value"] with
              | inl e => inl e
              | inr df' => inr (rename df' [("value", metric)])
              end
          end
      end
  end.

(** ** The forecaster *)

(** Prophet as installed is a black box.  Its optimizer finds parameters
    for a training history or gives up with an exception of its own
    ([fit_error]); the fitted model gives, for a timestamp, the point
    estimate with its lower and upper bound ([yhat], [yhat_lower],
    [yhat_upper]).  The pandas it runs on reads a frequency alias as a
    number of seconds or does not know it ([to_offset]): older versions
    read ["H"] as an hour, pandas 3 knows only ["h"]. *)
Record Prophet : Type := mkProphet {
  predict_at : list (Z * float) -> Z -> float * float * float;
  fit_error : list (Z * float) -> option exn;
  to_offset : string -> option Z
}.

Record Fitted : Type := mkFitted {
  history : list (Z * float);
  history_dates : list Z
}.

(** The value Prophet trains on: [pd.to_numeric] of the entry.  A string
    that does not spell a number is [ValueError]; one that does is read as
    that number by pandas, which the model does not follow. *)
Definition as_float (c : cell) : exn + float :=
  match c with
  | CVal (JNum x) => inr x
  | CInt n => inr (float_of_int n)
  | CVal JNull => inr PrimFloat.nan
  | CVal (JBool b) => inr (if b then 1 else 0)%float
  | CVal (JStr _) => inl ValueError
  | _ => inl TypeError
  end.

(** The training rows: a timestamp and a value each.  A missing date is
    [ValueError] ("Found NaN in column ds"; when it stands in a row whose
    value is missing too, Prophet raises the same error later, in
    [predict]). *)
Fixpoint training (ds y : list cell) : exn + list (Z * float) :=
  match ds, y with
  | d :: ds', v :: y' =>
      match d, as_float v with
      | CTime t, inr x =>
          match training ds' y' with
          | inl e => inl e
          | inr h => inr ((t, x) :: h)
          end
      | CNaT, inr _ => inl ValueError
      | _, inl e => inl e
      | _, _ => inl TypeError
      end
  | _, _ => inr []
  end.

Fixpoint insert_date (t : Z) (l : list Z) : list Z :=
  match l with
  | [] => [t]
  | x :: l' =>
      if t <? x then t :: l
      else if t =? x then l
      else x :: insert_date t l'
  end.

(** [Series.unique().sort_values()] *)
Definition sort_unique (l : list Z) : list Z := foldr insert_date [] l.

Definition notnull (x : float) : bool := PrimFloat.eqb x x.

(** [m.fit(df)]: needs the columns [ds] and [y], at least two rows whose
    [y] is not missing, and no infinite [y] ([ValueError] each); then the
    optimizer runs.  The model remembers the distinct dates in ascending
    order. *)
Definition fit (P : Prophet) (df : DataFrame) : exn + Fitted :=
  match get_column df "ds", get_column df "y" with
  | inr ds, inr y =>
      if (length (filter (fun c => negb (is_missing c)) y) <? 2)%nat
      then inl ValueError
      else
        match training ds y with
        | inl e => inl e
        | inr h =>
            if existsb (fun p => isinf p.2) h then inl ValueError
            else
              match fit_error P h with
              | Some e => inl e
              | None => inr (mkFitted h (sort_unique h.*1))
              end
        end
  | _, _ => inl ValueError
  end.

(** [history_dates.max()]; a fitted model has at least two dates. *)
Definition max_date (l : list Z) : Z :=
  match l with
  | [] => 0
  | t :: l' => foldr Z.max t l'
  end.

(** [m.make_future_dataframe(periods, freq)] with [include_history] at its
    default [True]: the history dates, then [periods] dates after the last
    one, one [freq] apart.  pandas raises [ValueError] for an alias it does
    not know and [OutOfBoundsDatetime] when the dates leave the range of
    its timestamps. *)
Definition make_future_dataframe (P : Prophet) (m : Fitted) (periods : nat)
  (freq : string) : exn + DataFrame :=
  match to_offset P freq with
  | None => inl ValueError
  | Some step =>
      let last_date := max_date (history_dates m) in
      if in_bounds (last_date + step * Z.of_nat periods) then
        inr (mkDF ["ds"]
               (map (fun t => [CTime t])
                    (history_dates m
                     ++ map (fun k => last_date + step * Z.of_nat (S k))
                            (seq 0 periods))))
      else inl OutOfBoundsDatetime
  end.

Fixpoint predict_rows (P : Prophet) (m : Fitted) (ds : list cell)
  : exn + list (list cell) :=
  match ds with
  | [] => inr []
  | CTime t :: ds' =>
      match predict_rows P m ds' with
      | inl e => inl e
      | inr r =>
          let '(yhat, lo, hi) := predict_at P (history m) t in
          inr ([CTime t; num yhat; num lo; num hi] :: r)
      end
  | _ :: _ => inl TypeError
  end.

(** [m.predict(future)]: one row per row of [future], of which the script
    reads [ds], [yhat], [yhat_lower] and [yhat_upper].  (Prophet sorts its
    input by [ds] first; [make_future_dataframe] is ascending already.) *)
Definition predict (P : Prophet) (m : Fitted) (future : DataFrame)
  : exn + DataFrame :=
  match get_column future "ds" with
  | inl _ => inl ValueError
  | inr ds =>
      match predict_rows P m ds with
      | inl e => inl e
      | inr r => inr (mkDF ["ds"; "yhat"; "yhat_lower"; "yhat_upper"] r)
      end
  end.

(** ** electricity_dashboard_final_debugged.py *)
Module FinalDebugged.

(** [from datetime import datetime, timedelta] *)
Definition globals : gmap string pyobj :=
  <["datetime" := DatetimeClass]> (<["timedelta" := TimedeltaClass]> ∅).

Definition fetch_eia_v2_hourly_series (w : World)
  (respondent metric api_key : string) : M DataFrame :=
  end_date ← call_utcnow globals "datetime" w;
  delta ← call_days globals "timedelta" 7;
  let start_date := end_date - delta in
  let start_str := strftime_Ymd start_date in
  let end_str := strftime_Ymd end_date in
  emit (StCaption ("🔄 Data range: " +:+ start_str +:+ " to " +:+ end_str));;
  match metric_map !! metric with
  | None =>
      emit (StError ("Unsupported metric: " +:+ metric));;
      mret empty_frame
  | Some code =>
      r ← requests_get w (eia_url respondent code start_str end_str api_key);
      if negb (status_code r =? 200) then
        emit (StWarning ("EIA v2 API call failed for " +:+ respondent
                         +:+ " - " +:+ metric));;
        mret empty_frame
      else
        body ← response_json r;
        resp ← lift (json_get body "response" (JObj []));
        data ← lift (json_get resp "data" (JArr []));
        if negb (truthy data) then
          emit (StWarning ("No data found for " +:+ respondent
                           +:+ " - " +:+ metric));;
          mret empty_frame
        else lift (frame_of_data data metric)
  end.

(** Lines 86-96.  [load_df] is a reference; the result is the frame bound
    to [forecast], if the block ran. *)
Definition load_and_forecast (P : Prophet) (load_df : nat)
  : M (option DataFrame) :=
  df ← load load_df;
  if negb (empty df) then
    emit (StSubheader "Hourly Load and Forecast");;
    _ ← lift (get_column df "datetime");
    emit (StLineChart df);;
    y_col ← lift (column_label df 1);
    let df_p := rename df [(y_col, "y"); ("datetime", "ds")] in
    m ← lift (fit P df_p);
    future ← lift (make_future_dataframe P m 48 "H");
    forecast ← lift (predict P m future);
    emit (StPlotlyChart "Load Forecast (Next 48h)" forecast);;
    mret (Some forecast)
  else mret None.

(** Lines 104-108: the reference of [merged], if the block ran.  The
    labels of the chart are read off the three frames after [merged] is
    bound, and plotly express wants each of them among its columns. *)
Definition renewables_integration (load_df wind_df solar_df : nat)
  : M (option nat) :=
  wind ← load wind_df;
  solar ← load solar_df;
  ld ← load load_df;
  if negb (empty wind) && negb (empty solar) && negb (empty ld) then
    merged ← lift (merge_chain ld [wind; solar]);
    l ← alloc merged;
    wind_col ← lift (column_label wind 1);
    solar_col ← lift (column_label solar 1);
    load_col ← lift (column_label ld 1);
    lift (px_check merged "datetime" [wind_col; solar_col; load_col]);;
    emit (StPlotlyChart "Stacked Renewables vs Load" merged);;
    mret (Some l)
  else mret None.

(** Lines 119-120: the spread column is assigned into the object
    [merged_prices] refers to, and the interchange column is renamed with
    [inplace=True]. *)
Definition derive_spread (merged_prices da_df rt_df ni_df : nat) : M unit :=
  mp ← load merged_prices;
  da ← load da_df;
  da_col ← lift (column_label da 1);
  a ← lift (get_column mp da_col);
  rt ← load rt_df;
  rt_col ← lift (column_label rt 1);
  b ← lift (get_column mp rt_col);
  spread ← lift (sub_columns a b);
  store merged_prices (set_column mp "Spread ($/MWh)" spread);;
  ni ← load ni_df;
  ni_col ← lift (column_label ni 1);
  mp ← load merged_prices;
  store merged_prices (rename mp [(ni_col, "Net Interchange (MW)")]).

(** Lines 117-127: the reference of [merged_prices], if the block ran. *)
Definition intertie_arbitrage (ni_df da_df rt_df : nat) : M (option nat) :=
  ni ← load ni_df;
  da ← load da_df;
  rt ← load rt_df;
  if negb (empty ni) && negb (empty da) && negb (empty rt) then
    t ← lift (merge da rt "datetime" ("_DA", "_RT"));
    t ← lift (merge t ni "datetime" default_suffixes);
    merged_prices ← alloc t;
    derive_spread merged_prices da_df rt_df ni_df;;
    mp ← load merged_prices;
    lift (px_check mp "datetime"
            ["Net Interchange (MW)"; "Spread ($/MWh)"]);;
    emit (StPlotlyChart "Net Interchange vs DA-RT Spread" mp);;
    emit (StDataframe (tail 24 mp));;
    mret (Some merged_prices)
  else
    emit (StInfo "Some intertie or price data is unavailable for this BA.");;
    mret None.

(** The script from line 83 on, for the authority the select box gave. *)
Definition script (P : Prophet) (w : World) (selected_ba api_key : string)
  : M unit :=
  df ← fetch_eia_v2_hourly_series w selected_ba "demand" api_key;
  load_df ← alloc df;
  load_and_forecast P load_df;;
  emit (StSubheader "Renewable Integration: Wind + Solar vs Load");;
  df ← fetch_eia_v2_hourly_series w selected_ba "wind" api_key;
  wind_df ← alloc df;
  df ← fetch_eia_v2_hourly_series w selected_ba "solar" api_key;
  solar_df ← alloc df;
  renewables_integration load_df wind_df solar_df;;
  emit (StSubheader "💵 Intertie Arbitrage Analysis");;
  df ← fetch_eia_v2_hourly_series w selected_ba "net_interchange" api_key;
  ni_df ← alloc df;
  df ← fetch_eia_v2_hourly_series w selected_ba "lmp_da" api_key;
  da_df ← alloc df;
  df ← fetch_eia_v2_hourly_series w selected_ba "lmp_rt" api_key;
  rt_df ← alloc df;
  intertie_arbitrage ni_df da_df rt_df;;
  mret tt.

End FinalDebugged.

(** ** electricity_dashboard_rolling7d.py *)
Module Rolling7d.

(** [import datetime]: the name is the module, and [timedelta] is not
    bound at all. *)
Definition globals : gmap string pyobj :=
  <["datetime" := DatetimeModule]> ∅.

Definition fetch_eia_v2_hourly_series (w : World)
  (respondent metric api_key : string) : M DataFrame :=
  end_date ← call_utcnow globals "datetime" w;
  delta ← call_days globals "timedelta" 7;
  let start_date := end_date - delta in
  let start_str := strftime_Ymd start_date in
  let end_str := strftime_Ymd end_date in
  match metric_map !! metric with
  | None =>
      emit (StError ("Unsupported metric: " +:+ metric));;
      mret empty_frame
  | Some series_metric =>
      r ← requests_get w
            (eia_url respondent series_metric start_str end_str api_key);
      if negb (status_code r =? 200) then
        emit (StWarning ("EIA v2 API call failed for " +:+ respondent
                         +:+ " " +:+ metric));;
        mret empty_frame
      else
        body ← response_json r;
        resp ← lift (json_get body "response" (JObj []));
        data ← lift (json_get resp "data" (JArr []));
        if negb (truthy data) then
          emit (StWarning ("No data found for " +:+ respondent
                           +:+ " " +:+ metric));;
          mret empty_frame
        else lift (frame_of_data data metric)
  end.

End Rolling7d.

(** ** electricity_dashboard_cleaned_v2.py *)
Module CleanedV2.

(** The defaults of the two keyword parameters. *)
Definition default_start_date : string := "2023-07-01".
Definition default_end_date : string := "2023-07-15".

(** The fetch function of the file (it is written twice, word for word):
    the window is given by the caller, the clock is not read and no caption
    is shown. *)
Definition fetch_eia_v2_hourly_series (w : World)
  (respondent metric api_key start_date end_date : string) : M DataFrame :=
  match metric_map !! metric with
  | None =>
      emit (StError ("Unsupported metric: " +:+ metric));;
      mret empty_frame
  | Some series_metric =>
      r ← requests_get w
            (eia_url respondent series_metric start_date end_date api_key);
      if negb (status_code r =? 200) then
        emit (StWarning ("EIA v2 API call failed for " +:+ respondent
                         +:+ " " +:+ metric));;
        mret empty_frame
      else
        body ← response_json r;
        resp ← lift (json_get body "response" (JObj []));
        data ← lift (json_get resp "data" (JArr []));
        if negb (truthy data) then
          emit (StWarning ("No data found for " +:+ respondent
                           +:+ " " +:+ metric));;
          mret empty_frame
        else lift (frame_of_data data metric)
  end.

End CleanedV2.

(** * Observations

    What the statements below read off the model: the messages and the URL
    of a run, well-formed records, keyed tables and their cells, and the
    sample data of the worked instances. *)

(** The events a run appended to the log. *)
Definition logged (s : St) (evs : list event) : St :=
  mkSt (heap s) (trace s ++ evs).

(** The keys of [metric_map]. *)
Definition supported_metrics : list string :=
  ["demand"; "net_generation"; "wind"; "solar"; "net_interchange";
   "lmp_da"; "lmp_rt"].

(** The seven kinds of metric as the specification enumerates them. *)
Definition spec_metric_kinds : list string :=
  ["demand"; "net_generation"; "wind"; "solar"; "net_interchange";
   "day_ahead_price"; "real_time_price"].

(** The caption line 38 of the final file prints. *)
Definition caption (w : World) : string :=
  "🔄 Data range: " +:+ strftime_Ymd (clock w - 7 * 86400)
  +:+ " to " +:+ strftime_Ymd (clock w).

(** The URL its lines 53-64 build. *)
Definition request_url (w : World) (respondent code api_key : string)
  : string :=
  eia_url respondent code (strftime_Ymd (clock w - 7 * 86400))
          (strftime_Ymd (clock w)) api_key.

(** [r.json().get("response", {}).get("data", [])] *)
Definition response_data (body : json) : exn + json :=
  match json_get body "response" (JObj []) with
  | inl e => inl e
  | inr resp => json_get resp "data" (JArr [])
  end.

(** A number of a JSON document, written as an integer or not. *)
Definition is_json_number (j : json) : bool :=
  match j with JInt _ | JNum _ => true | _ => false end.

(** The instant of a well-formed record: a dict whose [period] is a period
    string within the range of pandas' timestamps and whose [value] is a
    number; other fields are free. *)
Definition record_time (j : json) : option Z :=
  match j with
  | JObj o =>
      match assoc "period" o, assoc "value" o with
      | Some (JStr s), Some v =>
          if is_json_number v then parse_period s else None
      | _, _ => None
      end
  | _ => None
  end.

(** A well-formed record whose [value] is a double, as a point of the
    series. *)
Definition record_point (j : json) : option (Z * float) :=
  match j with
  | JObj o =>
      match assoc "period" o, assoc "value" o with
      | Some (JStr s), Some (JNum x) => (fun t => (t, x)) <$> parse_period s
      | _, _ => None
      end
  | _ => None
  end.

(** The two-cell rows of a series with the given points. *)
Definition series_rows (pts : list (Z * float)) : list (list cell) :=
  map (fun p => [CTime p.1; num p.2]) pts.

(** The first row of [rs] whose key is [t]. *)
Fixpoint find_row (t : Z) (rs : list (list cell)) : option (list cell) :=
  match rs with
  | [] => None
  | (CTime u :: vs) :: rs' =>
      if t =? u then Some (CTime u :: vs) else find_row t rs'
  | _ :: rs' => find_row t rs'
  end.

(** The cell a table holds at timestamp [t] under label [c]. *)
Definition cell_at (df : DataFrame) (t : Z) (c : string) : option cell :=
  r ← find_row t (rows df); row_get (columns df) r c.

(** The labels after the key. *)
Definition value_labels (df : DataFrame) : list string := drop 1 (columns df).

(** Rows that start with a timestamp and carry [n] values. *)
Definition key_rows (n : nat) (rs : list (list cell)) : Prop :=
  Forall (fun r => exists t vs, r = CTime t :: vs /\ length vs = n) rs.

(** A frame keyed by [datetime]: that label comes first and only once, and
    every row is a timestamp followed by one value per remaining label.  A
    fetched series is such a frame with one value label, a merged table
    one with several. *)
Definition keyed (df : DataFrame) : Prop :=
  columns df = "datetime" :: value_labels df
  /\ ("datetime" ∉ value_labels df)
  /\ key_rows (length (value_labels df)) (rows df).

(** The keys of a list of rows, in order. *)
Definition row_times (rs : list (list cell)) : list Z :=
  omap (fun r => match r with CTime t :: _ => Some t | _ => None end) rs.

(** The rows of an inner join of two keyed row lists. *)
Definition joined (rsA rsB : list (list cell)) : list (list cell) :=
  flat_map (fun lr => map (fun rr => lr ++ delete 0%nat rr)
                          (filter (fun rr => key_match 0 0 lr rr) rsB))
           rsA.

(** A keyed frame with unique timestamps: a fetched series, or a table
    merged from such. *)
Definition table_ok (df : DataFrame) : Prop :=
  keyed df /\ NoDup (timestamps df).

(** The table lines 119-120 leave in place of [T]. *)
Definition with_spread (T : DataFrame) (spread : list cell) (ni_col : string)
  : DataFrame :=
  rename (set_column T "Spread ($/MWh)" spread)
         [(ni_col, "Net Interchange (MW)")].

(** The difference of the cells at positions [i] and [j] of a row. *)
Definition spread_cell (i j : nat) (r : list cell) : cell :=
  match r !! i, r !! j with
  | Some a, Some b =>
      match sub_cells a b with
      | inr c => c
      | inl _ => NaN_cell
      end
  | _, _ => NaN_cell
  end.

(** A price as a column holds it: a 64-bit integer or a double. *)
Definition is_price (c : cell) : bool :=
  match c with
  | CInt n => in_int64 n
  | CVal (JNum _) => true
  | _ => false
  end.

(** [c] is the difference of the prices [a] and [b] in the arithmetic of
    their types.  Two doubles: the IEEE difference, rounded once.  Two
    64-bit integers: a 64-bit integer congruent to the difference modulo
    [2 ^ 64], which is the difference itself when that fits.  One of each:
    the integer is first rounded to a double. *)
Definition difference (a b c : cell) : Prop :=
  match a, b with
  | CVal (JNum x), CVal (JNum y) => c = num (x - y)%float
  | CInt x, CInt y =>
      exists z, c = CInt z /\ in_int64 z = true
                /\ (z - (x - y)) mod 2 ^ 64 = 0
                /\ (in_int64 (x - y) = true -> z = x - y)
  | CInt x, CVal (JNum y) => c = num (float_of_int x - y)%float
  | CVal (JNum x), CInt y => c = num (x - float_of_int y)%float
  | _, _ => False
  end.


(** The text of line 127. *)
Definition unavailable_notice : string :=
  "Some intertie or price data is unavailable for this BA.".

(** Sample frames: one hour of day-ahead and real-time prices and of net
    interchange, and the table the two merges of line 118 make of them. *)
Definition ex_da : DataFrame :=
  mkDF ["datetime"; "lmp_da"] [[CTime 1688169600; num 30.5]].

Definition ex_rt : DataFrame :=
  mkDF ["datetime"; "lmp_rt"] [[CTime 1688169600; num 28.25]].

Definition ex_ni : DataFrame :=
  mkDF ["datetime"; "net_interchange"] [[CTime 1688169600; num (-120)]].

Definition ex_merged : DataFrame :=
  mkDF ["datetime"; "lmp_da"; "lmp_rt"; "net_interchange"]
       [[CTime 1688169600; num 30.5; num 28.25; num (-120)]].


(** The same hour with prices the payload wrote as integers, the largest
    64-bit one among them. *)
Definition ex_int_record (value : Z) : json :=
  JObj [("period", JStr "2023-07-01T00"); ("value", JInt value)].

Definition ex_da_int : DataFrame :=
  mkDF ["datetime"; "lmp_da"] [[CTime 1688169600; CInt 9223372036854775807]].

Definition ex_rt_int : DataFrame :=
  mkDF ["datetime"; "lmp_rt"] [[CTime 1688169600; CInt (-1)]].

Definition ex_merged_int : DataFrame :=
  mkDF ["datetime"; "lmp_da"; "lmp_rt"; "net_interchange"]
       [[CTime 1688169600; CInt 9223372036854775807; CInt (-1); num (-120)]].

Definition ex_derived_int : DataFrame :=
  mkDF ["datetime"; "lmp_da"; "lmp_rt"; "Net Interchange (MW)";
        "Spread ($/MWh)"]
       [[CTime 1688169600; CInt 9223372036854775807; CInt (-1); num (-120);
         CInt (-9223372036854775808)]].


(** The row the forecaster gives for a timestamp. *)
Definition forecast_row (P : Prophet) (h : list (Z * float)) (t : Z)
  : list cell :=
  let '(yhat, lo, hi) := predict_at P h t in
  [CTime t; num yhat; num lo; num hi].



Definition ex_prophet : Prophet :=
  mkProphet (fun _ _ => (25000, 24000, 26000)%float)
            (fun _ => None)
            (fun alias => if String.eqb alias "H" then Some 3600 else None).

(** The clock at 2023-07-01 01:06:40 UTC and a server that answers the one
    URL the demand request has on that day. *)
Definition ex_url : string :=
  "https://api.eia.gov/v2/electricity/rto/region-data/data/?frequency=hourly&data[0]=value&facets[respondent][]=CISO&facets[type][]=ALL&facets[metric][]=D&start=2023-06-24T00&end=2023-07-01T23&sort[0][column]=period&sort[0][direction]=asc&api_key=KEY".

Definition ex_world (data : list json) : World :=
  mkWorld 1688173600
    (fun url =>
       if String.eqb url ex_url
       then Some (mkResponse 200
                    (Some (JObj [("response", JObj [("total", JNum 2);
                                                    ("data", JArr data)])])))
       else None).

Definition ex_record (period : string) (value : float) : json :=
  JObj [("period", JStr period); ("respondent", JStr "CISO");
        ("type", JStr "D"); ("value", JNum value); ("value-units", JStr "megawatthours")].

Definition ex_ascending : list json :=
  [ex_record "2023-07-01T00" 25000; ex_record "2023-07-01T01" 24500].

(** Two records for the same hour, in the ascending order the request asks
    for. *)
Definition ex_repeated : list json :=
  [ex_record "2023-07-01T00" 25000; ex_record "2023-07-01T00" 24900].

(** Three hourly series that overlap in part. *)
Definition ex_load : DataFrame :=
  mkDF ["datetime"; "demand"]
       (series_rows [(1688169600, 25000%float); (1688173200, 24500%float);
                     (1688176800, 24100%float)]).

Definition ex_wind : DataFrame :=
  mkDF ["datetime"; "wind"]
       (series_rows [(1688173200, 3100%float); (1688176800, 3300%float);
                     (1688180400, 3250%float)]).

Definition ex_solar : DataFrame :=
  mkDF ["datetime"; "solar"]
       (series_rows [(1688176800, 0%float); (1688173200, 0%float)]).

(** The URLs of the requests among some events, in order. *)
Definition requests (evs : list event) : list string :=
  omap (fun e => match e with HttpGet url => Some url | _ => None end) evs.

(** One run of the fetch function seen from outside: the events it adds
    and what it gives back, for the messages' separator [sep], the events
    [shown] before the metric check and the window in the URL.  Each
    file's function is shown below to do exactly this. *)
Definition fetch_view (shown : list event) (sep : string) (w : World)
  (respondent metric api_key start_str end_str : string)
  : list event * (exn + DataFrame) :=
  match metric_map !! metric with
  | None =>
      (shown ++ [StError ("Unsupported metric: " +:+ metric)], inr empty_frame)
  | Some code =>
      let url := eia_url respondent code start_str end_str api_key in
      match serve w url with
      | None => (shown ++ [HttpGet url], inl ConnectionError)
      | Some r =>
          if negb (status_code r =? 200) then
            (shown ++ [HttpGet url;
                       StWarning ("EIA v2 API call failed for " +:+ respondent
                                  +:+ sep +:+ metric)],
             inr empty_frame)
          else
            match json_body r with
            | None => (shown ++ [HttpGet url], inl JSONDecodeError)
            | Some body =>
                match response_data body with
                | inl e => (shown ++ [HttpGet url], inl e)
                | inr data =>
                    if negb (truthy data) then
                      (shown ++ [HttpGet url;
                                 StWarning ("No data found for " +:+ respondent
                                            +:+ sep +:+ metric)],
                       inr empty_frame)
                    else (shown ++ [HttpGet url], frame_of_data data metric)
                end
            end
      end
  end.

(** The calendar check for one day number: the date read off it names
    that day again, its year has four digits and its month and day exist. *)
Definition civil_day_ok (z : Z) : bool :=
  let '(y, m, d) := civil_from_days z in
  (days_from_civil y m d =? z) && (0 <=? y) && (y <? 10000)
  && (1 <=? m) && (m <=? 12) && (1 <=? d) && (d <=? days_in_month y m)
  && (d <=? 31).

(** The check for the [n] day numbers from [z] on. *)
Fixpoint civil_days_ok (n : nat) (z : Z) : bool :=
  match n with
  | O => true
  | S n' => civil_day_ok z && civil_days_ok n' (z + 1)
  end.

(** A server that gives the same answer to every request, at the clock of
    [ex_world]. *)
Definition ex_serving (r : Response) : World :=
  mkWorld 1688173600 (fun _ => Some r).

(** A 200 answer with one record that has no [period]. *)
Definition ex_no_period : Response :=
  mkResponse 200
    (Some (JObj [("response",
                  JObj [("data", JArr [JObj [("value", JNum 1)]])])])).

(** How often a timestamp occurs among some. *)
Definition occurrences (t : Z) (ts : list Z) : nat :=
  length (filter (fun u => u = t) ts).

(** The six requests of the script, in the order it sends them. *)
Definition script_urls (w : World) (selected_ba api_key : string)
  : list string :=
  map (fun code => request_url w selected_ba code api_key)
      ["D"; "NG.WND"; "NG.SUN"; "NI"; "LMP_DA"; "LMP_RT"].

(** What a computation sends: from any state it only adds to the log; the
    requests among what it adds are the first few of [us], and all of them
    when it returns. *)
Definition sends {A} (m : M A) (us : list string) : Prop :=
  forall s, exists evs,
    trace (m s).1 = trace s ++ evs
    /\ requests evs `prefix_of` us
    /\ (forall a, (m s).2 = inr a -> requests evs = us).

(** What a call whose request is answered with a status other than 200
    shows. *)
Definition failed_call (w : World) (respondent metric code api_key : string)
  : list event :=
  [StCaption (caption w);
   HttpGet (request_url w respondent code api_key);
   StWarning ("EIA v2 API call failed for " +:+ respondent
              +:+ " - " +:+ metric)].

(** What the page shows when every request is answered that way. *)
Definition api_down_page (w : World) (selected_ba api_key : string)
  : list event :=
  failed_call w selected_ba "demand" "D" api_key
  ++ [StSubheader "Renewable Integration: Wind + Solar vs Load"]
  ++ failed_call w selected_ba "wind" "NG.WND" api_key
  ++ failed_call w selected_ba "solar" "NG.SUN" api_key
  ++ [StSubheader "💵 Intertie Arbitrage Analysis"]
  ++ failed_call w selected_ba "net_interchange" "NI" api_key
  ++ failed_call w selected_ba "lmp_da" "LMP_DA" api_key
  ++ failed_call w selected_ba "lmp_rt" "LMP_RT" api_key
  ++ [StInfo "Some intertie or price data is unavailable for this BA."].

(** The value a series has at a timestamp. *)
Fixpoint value_at (t : Z) (pts : list (Z * float)) : option float :=
  match pts with
  | [] => None
  | (u, x) :: pts' => if t =? u then Some x else value_at t pts'
  end.

(** The table the arbitrage block shows for three series of numbers: one
    row per day-ahead price whose hour also has a real-time price and an
    interchange value. *)
Definition arbitrage_rows (pda prt pni : list (Z * float))
  : list (list cell) :=
  omap (fun p =>
          y ← value_at p.1 prt;
          n ← value_at p.1 pni;
          Some [CTime p.1; num p.2; num y; num n; num (p.2 - y)%float])
       pda.

Definition arbitrage_table (pda prt pni : list (Z * float)) : DataFrame :=
  mkDF ["datetime"; "lmp_da"; "lmp_rt"; "Net Interchange (MW)";
        "Spread ($/MWh)"]
       (arbitrage_rows pda prt pni).

(** What a computation needs in order to return: [Q] holds whenever it
    does. *)
Definition needs {A} (m : M A) (Q : Prop) : Prop :=
  forall s a, (m s).2 = inr a -> Q.

(** What a computation shows: from any state it only adds to the log, and
    every event it adds satisfies [Q]. *)
Definition adds {A} (m : M A) (Q : event -> Prop) : Prop :=
  forall s, exists evs, trace (m s).1 = trace s ++ evs /\ Forall Q evs.

(** Not a call of [st.error]. *)
Definition not_error (e : event) : Prop :=
  match e with StError _ => False | _ => True end.

(** Not a call of [st.info]. *)
Definition not_info (e : event) : Prop :=
  match e with StInfo _ => False | _ => True end.

(** The server answers the request for [code] with a 200 whose records are
    well formed and give the points [pts], at least one. *)
Definition answers (w : World) (respondent code api_key : string)
  (pts : list (Z * float)) : Prop :=
  exists r body data,
    serve w (request_url w respondent code api_key) = Some r
    /\ status_code r = 200
    /\ json_body r = Some body
    /\ response_data body = inr (JArr data)
    /\ mapM record_point data = Some pts
    /\ pts <> [].

(** The frame a call returns for such an answer. *)
Definition series (metric : string) (pts : list (Z * float)) : DataFrame :=
  mkDF ["datetime"; metric] (series_rows pts).

(** What such a call shows. *)
Definition answered_call (w : World) (respondent code api_key : string)
  : list event :=
  [StCaption (caption w); HttpGet (request_url w respondent code api_key)].

(** The forecast frame for a history. *)
Definition forecast_table (P : Prophet) (pts : list (Z * float)) : DataFrame :=
  mkDF ["ds"; "yhat"; "yhat_lower"; "yhat_upper"]
       (map (forecast_row P pts)
            (sort_unique pts.*1
             ++ map (fun k => max_date (sort_unique pts.*1)
                              + 3600 * Z.of_nat (S k))
                    (seq 0 48))).

(** The table of the renewables block: one row per load value whose hour
    has a wind and a solar value. *)
Definition renewables_table (pd pw ps : list (Z * float)) : DataFrame :=
  mkDF ["datetime"; "demand"; "wind"; "solar"]
       (omap (fun p =>
                a ← value_at p.1 pw;
                b ← value_at p.1 ps;
                Some [CTime p.1; num p.2; num a; num b])
             pd).

(** The page when all six requests are answered with series. *)
Definition full_page (P : Prophet) (w : World) (selected_ba api_key : string)
  (pd pw ps pni pda prt : list (Z * float)) : list event :=
  answered_call w selected_ba "D" api_key
  ++ [StSubheader "Hourly Load and Forecast";
      StLineChart (series "demand" pd);
      StPlotlyChart "Load Forecast (Next 48h)" (forecast_table P pd);
      StSubheader "Renewable Integration: Wind + Solar vs Load"]
  ++ answered_call w selected_ba "NG.WND" api_key
  ++ answered_call w selected_ba "NG.SUN" api_key
  ++ [StPlotlyChart "Stacked Renewables vs Load" (renewables_table pd pw ps);
      StSubheader "💵 Intertie Arbitrage Analysis"]
  ++ answered_call w selected_ba "NI" api_key
  ++ answered_call w selected_ba "LMP_DA" api_key
  ++ answered_call w selected_ba "LMP_RT" api_key
  ++ [StPlotlyChart "Net Interchange vs DA-RT Spread"
        (arbitrage_table pda prt pni);
      StDataframe (tail 24 (arbitrage_table pda prt pni))].

(** A 200 answer whose records carry the given periods and values. *)
Definition ex_answer (pts : list (string * float)) : Response :=
  mkResponse 200
    (Some (JObj [("response",
                  JObj [("data",
                         JArr (map (fun p => ex_record p.1 p.2) pts))])])).

(** A server that has two hours of every series of the script for CISO, at
    the clock of [ex_world]. *)
Definition ex_market : World :=
  mkWorld 1688173600
    (fun url =>
       snd <$> List.find
         (fun p => String.eqb url
                     (eia_url "CISO" p.1 "2023-06-24" "2023-07-01" "KEY"))
         [("D", ex_answer [("2023-07-01T00", 25000%float);
                           ("2023-07-01T01", 24500%float)]);
          ("NG.WND", ex_answer [("2023-07-01T01", 3100%float);
                                ("2023-07-01T00", 3000%float)]);
          ("NG.SUN", ex_answer [("2023-07-01T00", 0%float);
                                ("2023-07-01T01", 120%float)]);
          ("NI", ex_answer [("2023-07-01T00", (-350)%float);
                            ("2023-07-01T01", (-410)%float)]);
          ("LMP_DA", ex_answer [("2023-07-01T00", 40%float);
                                ("2023-07-01T01", 41.5%float)]);
          ("LMP_RT", ex_answer [("2023-07-01T01", 39.25%float);
                                ("2023-07-01T00", 38%float)])]).

(** * Properties *)

(** ** Running the monad *)

Lemma bind_inr {A B} (m : M A) (f : A -> M B) s s' a :
  m s = (s', inr a) -> (m ≫= f) s = f a s'.
Proof. unfold mbind, M_bind. intros ->. reflexivity. Qed.

Lemma bind_inl {A B} (m : M A) (f : A -> M B) s s' e :
  m s = (s', inl e) -> (m ≫= f) s = (s', inl e).
Proof. unfold mbind, M_bind. intros ->. reflexivity. Qed.

Lemma logged_logged s e1 e2 : logged (logged s e1) e2 = logged s (e1 ++ e2).
Proof. unfold logged. simpl. by rewrite app_assoc. Qed.

Lemma emit_logged ev s : emit ev s = (logged s [ev], inr tt).
Proof. reflexivity. Qed.

(** ** The metric table *)

Lemma metric_map_None metric :
  metric ∉ supported_metrics -> metric_map !! metric = None.
Proof. intros H. by apply not_elem_of_list_to_map_1. Qed.

Lemma metric_map_Some metric :
  metric ∈ supported_metrics -> is_Some (metric_map !! metric).
Proof.
  intros H. unfold supported_metrics in H.
  repeat (apply elem_of_cons in H as [-> | H]; [by eexists |]).
  by apply elem_of_nil in H.
Qed.

(** ** The fetch function *)

Section FetchRuns.
Import FinalDebugged.

#[local] Arguments String.append : simpl never.
#[local] Arguments strftime_Ymd : simpl never.
#[local] Arguments eia_url : simpl never.

Lemma utcnow_ok w s :
  call_utcnow globals "datetime" w s = (s, inr (clock w)).
Proof. reflexivity. Qed.

Lemma timedelta_ok n s :
  call_days globals "timedelta" n s = (s, inr (n * 86400)).
Proof. reflexivity. Qed.

Ltac run_prefix :=
  unfold fetch_eia_v2_hourly_series;
  erewrite bind_inr by apply utcnow_ok;
  erewrite bind_inr by apply timedelta_ok;
  erewrite bind_inr by apply emit_logged.

Lemma fetch_unsupported w respondent metric api_key s :
  metric_map !! metric = None ->
  fetch_eia_v2_hourly_series w respondent metric api_key s
  = (logged s [StCaption (caption w);
               StError ("Unsupported metric: " +:+ metric)],
     inr empty_frame).
Proof.
  intros Hm. run_prefix. rewrite Hm.
  erewrite bind_inr by apply emit_logged.
  by rewrite logged_logged.
Qed.

(** Up to the payload: a supported metric and a 200 answer with a JSON
    body reach line 71 with the caption and one request logged. *)
Lemma fetch_supported w respondent metric api_key code r body data s :
  metric_map !! metric = Some code ->
  serve w (request_url w respondent code api_key) = Some r ->
  status_code r = 200 ->
  json_body r = Some body ->
  response_data body = inr data ->
  fetch_eia_v2_hourly_series w respondent metric api_key s
  = if truthy data
    then (logged s [StCaption (caption w);
                    HttpGet (request_url w respondent code api_key)],
          frame_of_data data metric)
    else (logged s [StCaption (caption w);
                    HttpGet (request_url w respondent code api_key);
                    StWarning ("No data found for " +:+ respondent
                               +:+ " - " +:+ metric)],
          inr empty_frame).
Proof.
  intros Hm Hs Hc Hb Hd. run_prefix. rewrite Hm.
  unfold response_data in Hd.
  destruct (json_get body "response" (JObj [])) as [e|resp] eqn:Hr; [done|].
  fold (caption w) (request_url w respondent code api_key).
  erewrite bind_inr; last first.
  { unfold requests_get. erewrite bind_inr by apply emit_logged.
    rewrite Hs. reflexivity. }
  rewrite Hc. simpl.
  erewrite bind_inr; last by (unfold response_json; rewrite Hb).
  erewrite bind_inr; last by (unfold lift; rewrite Hr).
  erewrite bind_inr; last by (unfold lift; rewrite Hd).
  rewrite logged_logged. simpl.
  destruct (truthy data); simpl; [done|].
  erewrite bind_inr by apply emit_logged.
  by rewrite logged_logged.
Qed.

End FetchRuns.

(** ** Column labels *)

Lemma col_index_Some c cols i :
  col_index c cols = Some i -> cols !! i = Some c.
Proof.
  revert i. induction cols as [|c' cols IH]; intros i; simpl; [done|].
  destruct (String.eqb_spec c c') as [->|Hne].
  - by intros [= <-].
  - destruct (col_index c cols) as [k|]; simpl; [|done].
    intros [= <-]. by apply IH.
Qed.

Lemma col_index_lt c cols i : col_index c cols = Some i -> (i < length cols)%nat.
Proof. intros H. eapply lookup_lt_Some, col_index_Some, H. Qed.

Lemma col_index_inj c c' cols i :
  col_index c cols = Some i -> col_index c' cols = Some i -> c = c'.
Proof.
  intros H1%col_index_Some H2%col_index_Some. congruence.
Qed.

Lemma col_index_None c cols : col_index c cols = None <-> c ∉ cols.
Proof.
  induction cols as [|c' cols IH]; simpl.
  - split; [intros _; apply not_elem_of_nil | done].
  - rewrite not_elem_of_cons.
    destruct (String.eqb_spec c c') as [->|Hne].
    + split; [done | intros [? _]; done].
    + destruct (col_index c cols); simpl.
      * split; [done | intros [_ H]; by apply IH in H].
      * split; [intros _; split; [done | by apply IH] | done].
Qed.

Lemma col_index_elem c cols : c ∈ cols -> is_Some (col_index c cols).
Proof.
  intros H. destruct (col_index c cols) eqn:E; [by eexists|].
  by apply col_index_None in E.
Qed.

Lemma col_index_app_l c cols more i :
  col_index c cols = Some i -> col_index c (cols ++ more) = Some i.
Proof.
  revert i. induction cols as [|c' cols IH]; intros i; simpl; [done|].
  destruct (String.eqb c c'); [done|].
  destruct (col_index c cols) as [k|]; simpl; [|done].
  intros [= <-]. by rewrite (IH k).
Qed.

Lemma col_index_app_r c cols more :
  c ∉ cols ->
  col_index c (cols ++ more) = (fun i => (length cols + i)%nat) <$> col_index c more.
Proof.
  induction cols as [|c' cols IH]; simpl; intros H.
  - by destruct (col_index c more).
  - apply not_elem_of_cons in H as [Hne H].
    destruct (String.eqb_spec c c'); [done|].
    rewrite IH by done. by destruct (col_index c more).
Qed.

Lemma row_get_Some cols row c i :
  col_index c cols = Some i -> row_get cols row c = row !! i.
Proof. unfold row_get. by intros ->. Qed.

(** ** From the payload to the series *)

Lemma timestamps_series_rows cols pts :
  timestamps (mkDF cols (series_rows pts)) = pts.*1.
Proof.
  unfold timestamps, series_rows. simpl.
  induction pts as [|p pts IH]; simpl; [done|]. by f_equal.
Qed.

Lemma add_keys_mono o seen k : k ∈ seen -> k ∈ add_keys seen o.
Proof.
  revert seen. induction o as [|[k' v] o IH]; intros seen H; simpl; [done|].
  apply IH. case_bool_decide; [done|]. apply elem_of_app. by left.
Qed.

Lemma add_keys_key o seen k v : assoc k o = Some v -> k ∈ add_keys seen o.
Proof.
  revert seen. induction o as [|[k' v'] o IH]; intros seen; simpl; [done|].
  destruct (String.eqb_spec k k') as [->|Hne].
  - intros _. apply add_keys_mono. case_bool_decide; [done|].
    apply elem_of_app. right. by apply list_elem_of_singleton.
  - apply IH.
Qed.

Lemma record_keys_mono data seen cols k :
  record_keys seen data = Some cols -> k ∈ seen -> k ∈ cols.
Proof.
  revert seen. induction data as [|d data IH]; intros seen; simpl.
  - by intros [= ->].
  - destruct d; try done. intros H Hk. eapply IH; [done|].
    by apply add_keys_mono.
Qed.

Lemma record_keys_has data seen cols o k v :
  record_keys seen data = Some cols ->
  JObj o ∈ data -> assoc k o = Some v -> k ∈ cols.
Proof.
  revert seen. induction data as [|d data IH]; intros seen; simpl.
  - intros _ H. by apply elem_of_nil in H.
  - destruct d; try done. intros H Hin Hk.
    apply elem_of_cons in Hin as [[= <-]|Hin].
    + eapply record_keys_mono; [done|]. by eapply add_keys_key.
    + by eapply IH.
Qed.

Lemma Forall2_compose {A B C} (P : A -> B -> Prop) (Q : B -> C -> Prop)
  (R : A -> C -> Prop) l k m :
  (forall x y z, P x y -> Q y z -> R x z) ->
  Forall2 P l k -> Forall2 Q k m -> Forall2 R l m.
Proof.
  intros HR H. revert m.
  induction H; intros m Hm; inversion Hm; subst; constructor; eauto.
Qed.

Lemma record_time_obj d t :
  record_time d = Some t ->
  exists o s v, d = JObj o /\ assoc "period" o = Some (JStr s)
                /\ parse_period s = Some t /\ assoc "value" o = Some v.
Proof.
  destruct d as [| ? | ? | ? | ? | ? | o]; try done. simpl.
  destruct (assoc "period" o) as [[| ? | ? | ? | s | ? | ?]|] eqn:Hp; try done.
  destruct (assoc "value" o) as [v|] eqn:Hv; [|done].
  destruct (is_json_number v); [|done].
  intros Ht. exists o, s, v. auto.
Qed.

Lemma record_point_obj d p :
  record_point d = Some p ->
  record_time d = Some p.1
  /\ exists o, d = JObj o /\ assoc "value" o = Some (JNum p.2).
Proof.
  destruct d as [| ? | ? | ? | ? | ? | o]; try done. simpl.
  destruct (assoc "period" o) as [[| ? | ? | ? | s | ? | ?]|] eqn:Hp; try done.
  destruct (assoc "value" o) as [[| ? | ? | x | ? | ? | ?]|] eqn:Hv; try done.
  destruct (parse_period s) as [t|] eqn:Ht; simpl; [|done].
  intros [= <-]. split; [done|]. by exists o.
Qed.

Lemma record_keys_total data ts seen :
  Forall2 (fun d t => record_time d = Some t) data ts ->
  is_Some (record_keys seen data).
Proof.
  intros H. revert seen. induction H as [|d t data ts Hd _ IH]; intros seen.
  - by eexists.
  - apply record_time_obj in Hd as (o & s & v & -> & _). simpl. apply IH.
Qed.

Lemma record_row_lookup cols o i c v :
  cols !! i = Some c -> assoc c o = Some v ->
  record_row cols (JObj o) !! i = Some (CVal v).
Proof.
  intros Hi Hc. unfold record_row. rewrite list_lookup_fmap, Hi. simpl.
  by rewrite Hc.
Qed.

Lemma to_timestamp_period s t :
  parse_period s = Some t -> to_timestamp (CVal (JStr s)) = inr (CTime t).
Proof.
  unfold parse_period. simpl. destruct (parse_layout s) as [u|]; [|done].
  simpl. destruct (in_bounds u); [|done]. by intros [= ->].
Qed.

Lemma as_dtype_str d s : as_dtype d (CVal (JStr s)) = CVal (JStr s).
Proof. by destruct d. Qed.

Lemma as_dtype_num d x : as_dtype d (num x) = num x.
Proof. by destruct d. Qed.

(** Bringing the columns to their types changes no row's length and each
    cell by its own column's type only. *)
Lemma infer_objects_rows rs :
  Forall2 (fun r r' =>
             length r' = length r
             /\ forall i, r' !! i = as_dtype (infer (column_at i rs)) <$> r !! i)
          rs (infer_objects rs).
Proof.
  unfold infer_objects. apply Forall2_fmap_r, Forall_Forall2_diag, Forall_forall.
  intros r _. split; [apply length_imap|].
  intros i. by rewrite list_lookup_imap.
Qed.

Lemma to_datetime_periods ip rows ts :
  Forall2 (fun r t => exists s, r !! ip = Some (CVal (JStr s))
                                /\ parse_period s = Some t) rows ts ->
  to_datetime (column_at ip rows) = inr (map CTime ts).
Proof.
  intros H. induction H as [|r t rows ts (s & Hs & Hp) _ IH]; simpl; [done|].
  rewrite Hs. simpl default. rewrite (to_timestamp_period _ _ Hp).
  fold (column_at ip rows). by rewrite IH.
Qed.

Lemma zip_rows_times f k j rows ts :
  Forall2 (fun r t => f r (CTime t) !! k = Some (CTime t)
                      /\ f r (CTime t) !! j = r !! j) rows ts ->
  map (fun r => map (fun i => default NaN_cell (r !! i)) [k; j])
      (zip_rows rows (map CTime ts) f)
  = zip_with (fun t v => [CTime t; v]) ts (column_at j rows).
Proof.
  intros H. induction H as [|r t rows ts [Hk Hj] _ IH]; simpl; [done|].
  rewrite Hk, Hj. simpl. f_equal. exact IH.
Qed.

(** Lines 76-79 on well-formed records: one row per record, in the order
    of the payload, the record's instant and then its value as the value
    column's type holds it. *)
Lemma frame_of_data_rows data ts metric :
  data <> [] ->
  mapM record_time data = Some ts ->
  exists vs,
    frame_of_data (JArr data) metric
    = inr (mkDF ["datetime"; metric] (zip_with (fun t v => [CTime t; v]) ts vs))
    /\ Forall2 (fun d v => exists o j dt, d = JObj o /\ assoc "value" o = Some j
                                          /\ v = as_dtype dt (CVal j)) data vs.
Proof.
  intros Hne H%mapM_Some.
  destruct (record_keys_total _ _ [] H) as [cols Hcols].
  unfold frame_of_data, DataFrame_of. rewrite Hcols.
  assert (Hkeys : "period" ∈ cols /\ "value" ∈ cols).
  { destruct H as [|d t data ts Hd _]; [done|].
    apply record_time_obj in Hd as (o & s & v & -> & Hp & _ & Hv).
    split; eapply record_keys_has; eauto; apply elem_of_cons; by left. }
  destruct Hkeys as [[ip Hip]%col_index_elem [iv Hiv]%col_index_elem].
  unfold get_column. simpl. rewrite Hip.
  set (raw := map (record_row cols) data).
  assert (Hrows : Forall2 (fun (r : list cell) (d : json) =>
              length r = length cols
              /\ (exists s t, r !! ip = Some (CVal (JStr s))
                              /\ parse_period s = Some t
                              /\ record_time d = Some t)
              /\ (exists o j dt, d = JObj o /\ assoc "value" o = Some j
                                 /\ r !! iv = Some (as_dtype dt (CVal j))))
            (infer_objects raw) data).
  { apply Forall2_flip.
    eapply Forall2_compose; [| |apply infer_objects_rows]; last first.
    - instantiate (1 := fun d r => (exists t, record_time d = Some t)
                                   /\ r = record_row cols d).
      unfold raw. clear -H. induction H; simpl; constructor; eauto.
    - simpl. intros d r r' [[t Hd] ->] [Hlen Hlook].
      pose proof Hd as (o & s & v & -> & Hp & Ht & Hv)%record_time_obj.
      split; [by rewrite Hlen; unfold record_row; rewrite length_map|]. split.
      + exists s, t. rewrite Hlook.
        erewrite record_row_lookup; [| by apply col_index_Some | done].
        simpl. by rewrite as_dtype_str.
      + exists o, v, (infer (column_at iv raw)). split; [done|]. split; [done|].
        rewrite Hlook.
        by erewrite record_row_lookup; [| by apply col_index_Some | done]. }
  fold (column_at ip (infer_objects raw)).
  rewrite (to_datetime_periods ip _ ts); last first.
  { eapply Forall2_compose; [|exact Hrows|exact H].
    simpl. intros r d t (_ & (s & t' & Hs & Hp & Ht) & _) Hd. exists s.
    split; [done|]. congruence. }
  exists (column_at iv (infer_objects raw)). split; last first.
  { unfold column_at. apply Forall2_fmap_r, Forall2_flip.
    eapply Forall2_impl; [exact Hrows|].
    simpl. intros r d (_ & _ & o & j & dt & -> & Hj & ->). by exists o, j, dt. }
  assert (Hts : Forall2 (fun (r : list cell) (t : Z) =>
              length r = length cols) (infer_objects raw) ts).
  { eapply Forall2_compose; [|exact Hrows|exact H]. simpl. tauto. }
  unfold set_column, select. simpl.
  destruct (col_index "datetime" cols) as [k|] eqn:Hk; simpl.
  - rewrite Hk, Hiv. unfold rename. simpl. f_equal. f_equal.
    apply zip_rows_times. eapply Forall2_impl; [exact Hts|].
    simpl. intros r t Hlen. split.
    + apply list_lookup_insert_eq. rewrite Hlen. by eapply col_index_lt.
    + rewrite list_lookup_insert_ne; [done|].
      intros ->. by pose proof (col_index_inj _ _ _ _ Hk Hiv).
  - apply col_index_None in Hk.
    rewrite (col_index_app_r _ _ _ Hk). simpl.
    rewrite (col_index_app_l _ _ _ _ Hiv). simpl.
    unfold rename. simpl. f_equal. f_equal.
    apply zip_rows_times. eapply Forall2_impl; [exact Hts|].
    simpl. intros r t Hlen. split.
    + rewrite Nat.add_0_r, <- Hlen. apply list_lookup_middle. done.
    + rewrite lookup_app_l; [done|]. rewrite Hlen. by eapply col_index_lt.
Qed.

Lemma frame_of_data_times data ts metric :
  data <> [] ->
  mapM record_time data = Some ts ->
  exists df,
    frame_of_data (JArr data) metric = inr df
    /\ columns df = ["datetime"; metric]
    /\ len df = length data
    /\ timestamps df = ts.
Proof.
  intros Hne H. destruct (frame_of_data_rows _ _ metric Hne H) as (vs & -> & Hvs).
  eexists. split; [done|]. split; [done|].
  apply mapM_Some in H. apply Forall2_length in H, Hvs.
  unfold len, timestamps. simpl.
  assert (Hlen : length ts = length vs) by congruence. clear -Hlen H.
  split.
  - rewrite length_zip_with; lia.
  - clear H. revert vs Hlen. induction ts as [|t ts IH]; intros [|v vs]; try done.
    simpl. intros [=]. f_equal. by apply IH.
Qed.

(** The same on records whose values are doubles. *)
Lemma frame_of_data_series data pts metric :
  data <> [] ->
  mapM record_point data = Some pts ->
  frame_of_data (JArr data) metric
  = inr (mkDF ["datetime"; metric] (series_rows pts)).
Proof.
  intros Hne H%mapM_Some.
  assert (Ht : mapM record_time data = Some pts.*1).
  { apply mapM_Some. apply Forall2_fmap_r. eapply Forall2_impl; [exact H|].
    by intros d p [? _]%record_point_obj. }
  destruct (frame_of_data_rows _ _ metric Hne Ht) as (vs & -> & Hvs).
  f_equal. f_equal. clear Ht Hne. revert vs Hvs.
  induction H as [|d p data pts Hd _ IH]; intros vs Hvs.
  - by apply Forall2_nil_inv_l in Hvs as ->.
  - apply Forall2_cons_inv_l in Hvs as (v & vs' & (o & j & dt & Ho & Hj & ->) & Hvs & ->).
    apply record_point_obj in Hd as (_ & o' & -> & Hv).
    injection Ho as <-. rewrite Hv in Hj. injection Hj as <-.
    simpl. fold (num p.2). rewrite as_dtype_num. f_equal. by apply IH.
Qed.

Lemma ascending_sorted_nodup (l : list Z) :
  Sorted Z.lt l -> Sorted Z.le l /\ NoDup l.
Proof.
  intros H. apply Sorted_StronglySorted in H; [|intros x y z; lia].
  induction H as [|x l Hl IH Hx].
  - split; constructor.
  - destruct IH as [IH1 IH2]. split.
    + constructor; [done|]. destruct l as [|y l]; constructor.
      apply Forall_cons in Hx as [Hx _]. lia.
    + constructor; [|done]. intros Hin.
      rewrite Forall_forall in Hx. specialize (Hx _ Hin). lia.
Qed.

(** ** Claims about [fetch_eia_v2_hourly_series] *)

Section FetchClaims.
Import FinalDebugged.

Variables (w : World) (respondent metric api_key : string) (s : St).

(** C1 (as amended).  When the answer is a 200 whose [response.data] holds
    N well-formed records, the fetch returns a frame of N rows whose
    timestamps are the records' periods in the order the server sent
    them; it neither sorts nor removes duplicates, so the series is
    ascending without duplicates whenever the payload is strictly
    ascending by period. *)
Theorem fetch_keeps_upstream_order code r body data ts :
  metric_map !! metric = Some code ->
  serve w (request_url w respondent code api_key) = Some r ->
  status_code r = 200 ->
  json_body r = Some body ->
  response_data body = inr (JArr data) ->
  mapM record_time data = Some ts ->
  exists s' df,
    fetch_eia_v2_hourly_series w respondent metric api_key s = (s', inr df)
    /\ len df = length data
    /\ timestamps df = ts
    /\ (Sorted Z.lt ts ->
        Sorted Z.le (timestamps df) /\ NoDup (timestamps df)).
Proof.
  intros Hm Hs Hc Hb Hd Hts.
  rewrite (fetch_supported _ _ _ _ _ _ _ _ _ Hm Hs Hc Hb Hd).
  destruct data as [|d data].
  - simpl in *. injection Hts as <-. do 2 eexists. split; [done|].
    repeat split; try done; constructor.
  - change (truthy (JArr (d :: data))) with true. cbv iota.
    assert (Hne : d :: data <> []) by done.
    destruct (frame_of_data_times _ _ metric Hne Hts)
      as (df & -> & _ & Hlen & Htimes).
    do 2 eexists. split; [done|]. split; [done|]. split; [done|].
    rewrite Htimes. apply ascending_sorted_nodup.
Qed.

(** C2 (as amended).  A metric that is not one of the seven keys of
    [metric_map] is reported with [st.error] and answered with an empty
    frame; the run logs the caption and that error and nothing else, so no
    request is sent. *)
Theorem fetch_unsupported_metric_sends_no_request :
  metric ∉ supported_metrics ->
  fetch_eia_v2_hourly_series w respondent metric api_key s
  = (logged s [StCaption (caption w);
               StError ("Unsupported metric: " +:+ metric)],
     inr empty_frame)
  /\ forall url, HttpGet url ∉ [StCaption (caption w);
                                StError ("Unsupported metric: " +:+ metric)].
Proof.
  intros Hm. split.
  - by apply fetch_unsupported, metric_map_None.
  - intros url Hin. repeat (apply elem_of_cons in Hin as [?|Hin]; [done|]).
    by apply elem_of_nil in Hin.
Qed.

(** C6.  A 200 answer whose data array is empty (or absent) makes the
    fetch return the empty frame, after one request and the warning
    "No data found ..."; nothing is raised. *)
Theorem fetch_empty_data_returns_empty_frame code r body :
  metric_map !! metric = Some code ->
  serve w (request_url w respondent code api_key) = Some r ->
  status_code r = 200 ->
  json_body r = Some body ->
  response_data body = inr (JArr []) ->
  fetch_eia_v2_hourly_series w respondent metric api_key s
  = (logged s [StCaption (caption w);
               HttpGet (request_url w respondent code api_key);
               StWarning ("No data found for " +:+ respondent
                          +:+ " - " +:+ metric)],
     inr empty_frame)
  /\ empty empty_frame = true /\ len empty_frame = 0%nat.
Proof.
  intros Hm Hs Hc Hb Hd.
  by rewrite (fetch_supported _ _ _ _ _ _ _ _ _ Hm Hs Hc Hb Hd).
Qed.

End FetchClaims.

(** C10.  In the rolling-window file the name [datetime] is the module and
    [timedelta] is unbound, so every call of the fetch function stops at
    its first line with [AttributeError]: the state is untouched, no
    message is shown and no request is sent, whatever the arguments. *)
Theorem rolling7d_fetch_always_raises w respondent metric api_key s :
  Rolling7d.globals !! "datetime" = Some DatetimeModule
  /\ Rolling7d.globals !! "timedelta" = None
  /\ Rolling7d.fetch_eia_v2_hourly_series w respondent metric api_key s
     = (s, inl (AttributeError "utcnow")).
Proof.
  split; [reflexivity|]. split; [reflexivity|].
  unfold Rolling7d.fetch_eia_v2_hourly_series.
  apply bind_inl. unfold call_utcnow.
  by replace (Rolling7d.globals !! "datetime") with (Some DatetimeModule).
Qed.

(** ** Tables keyed by timestamp *)

Lemma timestamps_row_times df : timestamps df = row_times (rows df).
Proof. reflexivity. Qed.

Lemma key_rows_cons n r rs :
  key_rows n (r :: rs) <->
  ((exists t vs, r = CTime t :: vs /\ length vs = n) /\ key_rows n rs).
Proof. unfold key_rows. by rewrite Forall_cons. Qed.

Lemma find_row_None n t rs :
  key_rows n rs -> t ∉ row_times rs -> find_row t rs = None.
Proof.
  unfold key_rows. induction 1 as [|r rs (u & vs & -> & _) _ IH]; simpl; [done|].
  rewrite not_elem_of_cons. intros [Hne Hnin].
  destruct (Z.eqb_spec t u); [done|]. by apply IH.
Qed.

Lemma find_row_Some n t rs r :
  key_rows n rs -> find_row t rs = Some r ->
  t ∈ row_times rs /\ exists vs, r = CTime t :: vs /\ length vs = n.
Proof.
  unfold key_rows.
  induction 1 as [|r0 rs (u & vs & -> & Hlen) _ IH]; simpl; [done|].
  destruct (Z.eqb_spec t u) as [->|Hne].
  - intros [= <-]. split; [apply elem_of_cons; by left|by exists vs].
  - intros H. destruct (IH H) as [Hin Hr]. split; [|done].
    apply elem_of_cons. by right.
Qed.

Lemma find_row_elem n t rs :
  key_rows n rs -> t ∈ row_times rs -> is_Some (find_row t rs).
Proof.
  intros Hk Hin. destruct (find_row t rs) eqn:E; [by eexists|].
  exfalso. revert Hin E. unfold key_rows in Hk.
  induction Hk as [|r0 rs (u & vs & -> & Hlen) _ IH]; simpl.
  - by intros ?%elem_of_nil.
  - intros [->|Hin]%elem_of_cons.
    + by rewrite Z.eqb_refl.
    + destruct (t =? u); [done|]. by apply IH.
Qed.

Lemma key_match_times t vs u ws :
  key_match 0 0 (CTime t :: vs) (CTime u :: ws) = (t =? u).
Proof. reflexivity. Qed.

(** The right rows a left row joins with: the one with its key, if any. *)
Lemma filter_key_match n t vs rs :
  key_rows n rs -> NoDup (row_times rs) ->
  filter (fun rr => key_match 0 0 (CTime t :: vs) rr) rs
  = option_list (find_row t rs).
Proof.
  unfold key_rows.
  induction 1 as [|r rs (u & ws & -> & Hlen) Hrs IH]; simpl; [done|].
  rewrite NoDup_cons. intros [Hnin Hnd].
  rewrite filter_cons, key_match_times.
  destruct (Z.eqb_spec t u) as [->|Hne].
  - rewrite decide_True by done. rewrite IH by done.
    by rewrite (find_row_None n u rs).
  - rewrite decide_False by (intros []). by apply IH.
Qed.

Lemma joined_cons nB t vs rsA rsB :
  key_rows nB rsB -> NoDup (row_times rsB) ->
  joined ((CTime t :: vs) :: rsA) rsB
  = match find_row t rsB with
    | Some rb => [CTime t :: vs ++ delete 0%nat rb]
    | None => []
    end ++ joined rsA rsB.
Proof.
  intros HB Hnd. unfold joined at 1. simpl.
  rewrite (filter_key_match nB) by done.
  by destruct (find_row t rsB).
Qed.

Lemma joined_spec nA nB rsA rsB :
  key_rows nA rsA -> key_rows nB rsB -> NoDup (row_times rsB) ->
  key_rows (nA + nB) (joined rsA rsB)
  /\ row_times (joined rsA rsB)
     = filter (fun t => t ∈ row_times rsB) (row_times rsA)
  /\ forall t, find_row t (joined rsA rsB)
               = match find_row t rsA, find_row t rsB with
                 | Some ra, Some rb => Some (ra ++ delete 0%nat rb)
                 | _, _ => None
                 end.
Proof.
  intros HA HB Hnd. unfold key_rows in HA.
  induction HA as [|r rsA (u & vs & -> & Hlen) _ (IH1 & IH2 & IH3)].
  - repeat split; constructor.
  - rewrite (joined_cons nB) by done.
    destruct (find_row u rsB) as [rb|] eqn:Eu.
    + destruct (find_row_Some _ _ _ _ HB Eu) as (Hin & ws & -> & Hws).
      simpl. repeat split.
      * apply key_rows_cons. split; [|done]. exists u, (vs ++ ws).
        split; [done|]. rewrite length_app. lia.
      * rewrite filter_cons, decide_True by done. by rewrite IH2.
      * intros t. destruct (Z.eqb_spec t u) as [->|Hne]; [by rewrite Eu|].
        apply IH3.
    + assert (u ∉ row_times rsB) as Hnin.
      { intros Hin. destruct (find_row_elem _ _ _ HB Hin). congruence. }
      simpl. repeat split; [done| |].
      * rewrite filter_cons, decide_False by done. done.
      * intros t. destruct (Z.eqb_spec t u) as [->|Hne]; [|apply IH3].
        rewrite IH3, Eu. by destruct (find_row u rsA).
Qed.

Lemma row_times_length n rs : key_rows n rs -> length (row_times rs) = length rs.
Proof.
  unfold key_rows. induction 1 as [|r rs (u & vs & -> & _) _ IH]; simpl; [done|].
  by f_equal.
Qed.

Lemma keyed_index df : keyed df -> col_index "datetime" (columns df) = Some 0%nat.
Proof. intros (-> & _). reflexivity. Qed.

(** The inner join of two keyed frames never fails; its rows are
    [joined]. *)
Lemma merge_keyed A B sfx :
  keyed A -> keyed B ->
  merge A B "datetime" sfx
  = inr (mkDF (map (suffixed "datetime" (columns B) sfx.1) (columns A)
               ++ map (suffixed "datetime" (columns A) sfx.2) (value_labels B))
              (joined (rows A) (rows B))).
Proof.
  intros HA HB. unfold merge.
  rewrite (keyed_index A HA), (keyed_index B HB).
  destruct HB as (-> & _). reflexivity.
Qed.

Lemma common_timestamps_size (l k : list Z) :
  NoDup l ->
  length (filter (fun t => t ∈ k) l)
  = size (list_to_set l ∩ list_to_set k : gset Z).
Proof.
  intros Hl.
  rewrite <- (size_list_to_set (C:=gset Z)) by (by apply NoDup_filter).
  f_equal. apply set_eq. intros t.
  rewrite elem_of_intersection, !elem_of_list_to_set, list_elem_of_filter.
  tauto.
Qed.

(** C3.  Merging two keyed frames with unique timestamps gives a table
    with one row per timestamp the two have in common: its length is the
    size of the intersection of the two timestamp sets, and it has no row
    when they share none. *)
Theorem merge_length_is_common_timestamps A B sfx :
  keyed A -> keyed B -> NoDup (timestamps A) -> NoDup (timestamps B) ->
  exists T,
    merge A B "datetime" sfx = inr T
    /\ len T = size (list_to_set (timestamps A) ∩ list_to_set (timestamps B)
                     : gset Z)
    /\ ((forall t, t ∈ timestamps A -> t ∉ timestamps B) -> rows T = []).
Proof.
  intros HA HB HndA HndB. rewrite (merge_keyed A B sfx HA HB).
  eexists. split; [done|].
  destruct HA as (_ & _ & HrA), HB as (_ & _ & HrB).
  destruct (joined_spec _ _ _ _ HrA HrB HndB) as (Hk & Ht & _).
  unfold len. simpl rows.
  rewrite <- (row_times_length _ _ Hk), Ht.
  rewrite <- common_timestamps_size by done. split; [done|].
  intros Hdisj. apply length_zero_iff_nil.
  rewrite <- (row_times_length _ _ Hk), Ht. apply length_zero_iff_nil.
  apply elem_of_nil_inv. intros t [Hb Ha]%list_elem_of_filter.
  by apply (Hdisj t).
Qed.

(** ** Reading a merged row *)

Lemma row_get_is_Some cols row c i :
  col_index c cols = Some i -> length row = length cols ->
  is_Some (row_get cols row c).
Proof.
  intros Hi Hlen. rewrite (row_get_Some _ _ _ _ Hi).
  apply lookup_lt_is_Some. rewrite Hlen. by eapply col_index_lt.
Qed.

Lemma row_get_elem cols row c v : row_get cols row c = Some v -> c ∈ cols.
Proof.
  unfold row_get. destruct (col_index c cols) as [i|] eqn:E; [|done].
  intros _. eapply list_elem_of_lookup_2, col_index_Some, E.
Qed.

Lemma row_get_app cols1 cols2 r1 r2 c :
  length r1 = length cols1 ->
  row_get (cols1 ++ cols2) (r1 ++ r2) c
  = match row_get cols1 r1 c with
    | Some v => Some v
    | None => row_get cols2 r2 c
    end.
Proof.
  intros Hlen. destruct (col_index c cols1) as [i|] eqn:E.
  - destruct (row_get_is_Some _ r1 _ _ E Hlen) as [v Hv]. rewrite Hv.
    rewrite (row_get_Some _ _ _ i) by (by apply col_index_app_l).
    rewrite (row_get_Some _ _ _ _ E) in Hv.
    by rewrite lookup_app_l by (by eapply lookup_lt_Some).
  - unfold row_get at 2. rewrite E. simpl.
    apply col_index_None in E. unfold row_get.
    rewrite (col_index_app_r _ _ _ E).
    destruct (col_index c cols2) as [j|]; simpl; [|done].
    rewrite <- Hlen. by rewrite lookup_app_r, Nat.add_comm, Nat.add_sub by lia.
Qed.

Lemma row_get_key names t vs c :
  row_get ("datetime" :: names) (CTime t :: vs) c
  = if String.eqb c "datetime" then Some (CTime t) else row_get names vs c.
Proof.
  unfold row_get. simpl. destruct (String.eqb c "datetime"); [done|].
  by destruct (col_index c names).
Qed.

Lemma suffixed_fresh on other sfx (cols : list string) :
  (forall c, c ∈ cols -> c = on \/ c ∉ other) ->
  map (suffixed on other sfx) cols = cols.
Proof.
  induction cols as [|c cols IH]; intros H; simpl; [done|].
  rewrite IH by (intros c' Hc'; apply H, elem_of_cons; by right). f_equal.
  unfold suffixed. destruct (String.eqb_spec c on); [done|]. simpl.
  rewrite bool_decide_eq_false_2; [done|].
  destruct (H c) as [?|?]; [apply elem_of_cons; by left|done..].
Qed.

(** Two keyed frames with unique timestamps and no value label in common:
    the merged table is keyed by the common timestamps, carries the labels
    of both, and holds at each timestamp what the two frames hold there. *)
Lemma merge_disjoint A B sfx :
  keyed A -> keyed B -> NoDup (timestamps A) -> NoDup (timestamps B) ->
  (forall c, c ∈ value_labels A -> c ∉ value_labels B) ->
  exists T,
    merge A B "datetime" sfx = inr T
    /\ keyed T
    /\ NoDup (timestamps T)
    /\ value_labels T = value_labels A ++ value_labels B
    /\ (forall t, t ∈ timestamps T <-> t ∈ timestamps A /\ t ∈ timestamps B)
    /\ (forall t c v, cell_at T t c = Some v <->
          t ∈ timestamps A /\ t ∈ timestamps B
          /\ (cell_at A t c = Some v \/ cell_at B t c = Some v)).
Proof.
  intros HA HB HndA HndB Hdisj. rewrite (merge_keyed A B sfx HA HB).
  destruct HA as (HcA & HdA & HrA), HB as (HcB & HdB & HrB).
  destruct (joined_spec _ _ _ _ HrA HrB HndB) as (Hk & Ht & Hf).
  rewrite !suffixed_fresh; cycle 1.
  { intros c Hc. right. rewrite HcA. apply not_elem_of_cons. split.
    - intros ->. done.
    - intros Hc'. by apply (Hdisj c). }
  { intros c. rewrite HcA, HcB. intros [->|Hc]%elem_of_cons; [by left|].
    right. apply not_elem_of_cons. split; [by intros ->|]. by apply Hdisj. }
  eexists. split; [done|].
  assert (Hcols : columns A ++ value_labels B
                  = "datetime" :: value_labels A ++ value_labels B)
    by (by rewrite HcA at 1).
  assert (Hvl : value_labels (mkDF (columns A ++ value_labels B)
                                   (joined (rows A) (rows B)))
                = value_labels A ++ value_labels B)
    by (unfold value_labels at 1; simpl; by rewrite Hcols).
  assert (Hmem : forall t, t ∈ timestamps (mkDF (columns A ++ value_labels B)
                                               (joined (rows A) (rows B)))
                           <-> t ∈ timestamps A /\ t ∈ timestamps B).
  { intros t. rewrite !timestamps_row_times. simpl. rewrite Ht.
    rewrite list_elem_of_filter. tauto. }
  split; [|split; [|split; [done|split; [done|]]]].
  - unfold keyed. rewrite Hvl. simpl. split; [done|]. split.
    + rewrite elem_of_app. tauto.
    + by rewrite length_app.
  - rewrite timestamps_row_times. simpl. rewrite Ht. by apply NoDup_filter.
  - intros t c v. unfold cell_at. simpl. rewrite Hf.
    rewrite !timestamps_row_times.
    destruct (find_row t (rows A)) as [ra|] eqn:Ea; cycle 1.
    { simpl. split; [done|]. intros (Hin & _).
      destruct (find_row_elem _ _ _ HrA Hin). congruence. }
    destruct (find_row t (rows B)) as [rb|] eqn:Eb; cycle 1.
    { simpl. split; [done|]. intros (_ & Hin & _).
      destruct (find_row_elem _ _ _ HrB Hin). congruence. }
    destruct (find_row_Some _ _ _ _ HrA Ea) as (Hia & vs & -> & Hvs).
    destruct (find_row_Some _ _ _ _ HrB Eb) as (Hib & ws & -> & Hws).
    unfold mbind, option_bind. cbv beta iota.
    rewrite row_get_app by (rewrite HcA; simpl; by rewrite Hvs).
    change (delete 0%nat (CTime t :: ws)) with ws.
    rewrite HcA, HcB, !row_get_key.
    destruct (String.eqb_spec c "datetime") as [->|Hne]; [tauto|].
    destruct (row_get (value_labels A) vs c) as [v'|] eqn:Ec.
    + apply row_get_elem in Ec as Hc. split; [tauto|].
      intros (_ & _ & [?|Hb]); [done|].
      apply row_get_elem in Hb. by destruct (Hdisj c).
    + split; [tauto|]. by intros (_ & _ & [?|?]).
Qed.

(** ** Chains of merges *)

Lemma merge_chain_cons first b rest T :
  merge first b "datetime" default_suffixes = inr T ->
  merge_chain first (b :: rest) = merge_chain T rest.
Proof. unfold merge_chain. simpl. by intros ->. Qed.

(** What a chain of merges computes: the labels of all frames, the
    timestamps all of them have, and at each of those the cells of each. *)
Lemma merge_chain_spec rest : forall first,
  table_ok first -> Forall table_ok rest ->
  NoDup ((first :: rest) ≫= value_labels) ->
  exists T,
    merge_chain first rest = inr T
    /\ table_ok T
    /\ value_labels T = (first :: rest) ≫= value_labels
    /\ (forall t, t ∈ timestamps T <->
          forall df, df ∈ first :: rest -> t ∈ timestamps df)
    /\ (forall t c v, cell_at T t c = Some v <->
          (forall df, df ∈ first :: rest -> t ∈ timestamps df)
          /\ exists df, df ∈ first :: rest /\ cell_at df t c = Some v).
Proof.
  induction rest as [|b rest IH]; intros first Hf Hrest Hnd.
  - exists first. split; [done|]. split; [done|].
    split; [by rewrite bind_singleton|]. split.
    + intros t. split.
      * by intros Ht df ->%list_elem_of_singleton.
      * intros H. apply H, list_elem_of_singleton. done.
    + intros t c v. split.
      * intros Hc. split.
        -- intros df ->%list_elem_of_singleton.
           unfold cell_at in Hc. destruct Hf as [(_ & _ & Hr) _].
           destruct (find_row t (rows first)) eqn:E; [|done].
           by destruct (find_row_Some _ _ _ _ Hr E).
        -- exists first. split; [by apply list_elem_of_singleton|done].
      * by intros (_ & df & ->%list_elem_of_singleton & Hc).
  - apply Forall_cons in Hrest as [Hb Hrest].
    rewrite !bind_cons in Hnd. rewrite app_assoc in Hnd.
    assert (Hdisj : forall c, c ∈ value_labels first -> c ∉ value_labels b).
    { apply NoDup_app in Hnd as (Hnd1 & _ & _).
      apply NoDup_app in Hnd1 as (_ & Hd & _). exact Hd. }
    destruct Hf as [Hkf Hndf], Hb as [Hkb Hndb].
    destruct (merge_disjoint first b default_suffixes Hkf Hkb Hndf Hndb Hdisj)
      as (T1 & HT1 & HkT1 & HndT1 & HvT1 & HtT1 & HcT1).
    destruct (IH T1) as (T & HT & HokT & HvT & HtT & HcT).
    { done. } { done. } { by rewrite bind_cons, HvT1. }
    exists T. rewrite (merge_chain_cons _ _ _ _ HT1).
    split; [done|]. split; [done|].
    split; [by rewrite HvT, !bind_cons, HvT1, app_assoc|].
    assert (Hall : forall t,
      (forall df, df ∈ T1 :: rest -> t ∈ timestamps df)
      <-> (forall df, df ∈ first :: b :: rest -> t ∈ timestamps df)).
    { intros t. split; intros H df Hdf.
      - pose proof (H T1 ltac:(apply elem_of_cons; by left)) as H1.
        apply HtT1 in H1 as [Ha Hb].
        apply elem_of_cons in Hdf as [->|Hdf]; [done|].
        apply elem_of_cons in Hdf as [->|Hdf]; [done|].
        apply H, elem_of_cons. by right.
      - apply elem_of_cons in Hdf as [->|Hdf].
        + apply HtT1. split; apply H; rewrite !elem_of_cons; auto.
        + apply H. rewrite !elem_of_cons. auto. }
    split.
    + intros t. by rewrite HtT, Hall.
    + intros t c v. rewrite HcT, Hall. split.
      * intros (Hin & df & Hdf & Hc). split; [done|].
        apply elem_of_cons in Hdf as [->|Hdf].
        -- apply HcT1 in Hc as (_ & _ & [Hc|Hc]);
             [exists first|exists b]; rewrite !elem_of_cons; auto.
        -- exists df. rewrite !elem_of_cons. auto.
      * intros (Hin & df & Hdf & Hc). split; [done|].
        assert (Hab : t ∈ timestamps first /\ t ∈ timestamps b)
          by (split; apply Hin; rewrite !elem_of_cons; auto).
        apply elem_of_cons in Hdf as [->|Hdf];
          [|apply elem_of_cons in Hdf as [->|Hdf]].
        -- exists T1. split; [apply elem_of_cons; by left|].
           apply HcT1. tauto.
        -- exists T1. split; [apply elem_of_cons; by left|].
           apply HcT1. tauto.
        -- exists df. split; [apply elem_of_cons; by right|done].
Qed.

(** C8.  Merging the same keyed series in another order gives a row-equal
    table: the same timestamps, the same labels, and at every timestamp
    the same cell under every label. *)
Theorem merge_chain_order_insensitive first rest first' rest' :
  first :: rest ≡ₚ first' :: rest' ->
  Forall table_ok (first :: rest) ->
  NoDup ((first :: rest) ≫= value_labels) ->
  exists T T',
    merge_chain first rest = inr T
    /\ merge_chain first' rest' = inr T'
    /\ timestamps T ≡ₚ timestamps T'
    /\ columns T ≡ₚ columns T'
    /\ forall t c, cell_at T t c = cell_at T' t c.
Proof.
  intros Hperm Hok Hnd.
  assert (Hok' : Forall table_ok (first' :: rest')) by (by rewrite <- Hperm).
  pose proof (bind_Permutation value_labels _ _ Hperm) as Hlabels.
  assert (Hnd' : NoDup ((first' :: rest') ≫= value_labels)).
  { by rewrite <- Hlabels. }
  apply Forall_cons in Hok as [Hf Hrest], Hok' as [Hf' Hrest'].
  destruct (merge_chain_spec rest first Hf Hrest Hnd)
    as (T & HT & [HkT HndT] & HvT & HtT & HcT).
  destruct (merge_chain_spec rest' first' Hf' Hrest' Hnd')
    as (T' & HT' & [HkT' HndT'] & HvT' & HtT' & HcT').
  exists T, T'. split; [done|]. split; [done|].
  assert (Hmem : forall P : DataFrame -> Prop,
    (forall df, df ∈ first :: rest -> P df)
    <-> (forall df, df ∈ first' :: rest' -> P df)).
  { intros P. split; intros H df Hdf; apply H;
      [by rewrite Hperm|by rewrite <- Hperm]. }
  split; [|split].
  - apply NoDup_Permutation; [done..|]. intros t.
    rewrite HtT, HtT'. apply (Hmem (fun df => t ∈ timestamps df)).
  - destruct HkT as (-> & _), HkT' as (-> & _). constructor.
    by rewrite HvT, HvT'.
  - intros t c. apply option_eq. intros v. rewrite HcT, HcT'.
    rewrite (Hmem (fun df => t ∈ timestamps df)).
    split; intros (Hin & df & Hdf & Hc); (split; [done|]); exists df;
      (split; [|done]); [by rewrite <- Hperm|by rewrite Hperm].
Qed.

(** ** The spread step *)

Lemma load_ok l df s : heap s !! l = Some df -> load l s = (s, inr df).
Proof. unfold load. by intros ->. Qed.

Lemma lift_ok {A} (r : exn + A) s : lift r s = (s, r).
Proof. reflexivity. Qed.

Section SpreadStep.
Import FinalDebugged.

Variables (s : St) (merged_prices da_df rt_df ni_df : nat).
Variables (T DA RT NI : DataFrame) (da_col rt_col ni_col : string).
Hypothesis HT : heap s !! merged_prices = Some T.
Hypothesis HDA : heap s !! da_df = Some DA.
Hypothesis HRT : heap s !! rt_df = Some RT.
Hypothesis Hda : column_label DA 1 = inr da_col.
Hypothesis Hrt : column_label RT 1 = inr rt_col.

(** The day-ahead label is looked up first: a table without it stops the
    step there, before anything is assigned. *)
Lemma derive_spread_no_day_ahead :
  col_index da_col (columns T) = None ->
  derive_spread merged_prices da_df rt_df ni_df s = (s, inl (KeyError da_col)).
Proof.
  intros Hc. unfold derive_spread.
  erewrite bind_inr by (by apply load_ok).
  erewrite bind_inr by (by apply load_ok).
  erewrite bind_inr by (by rewrite lift_ok, Hda).
  erewrite bind_inl; [done|]. unfold get_column. by rewrite Hc.
Qed.

Lemma derive_spread_no_real_time a :
  get_column T da_col = inr a ->
  col_index rt_col (columns T) = None ->
  derive_spread merged_prices da_df rt_df ni_df s = (s, inl (KeyError rt_col)).
Proof.
  intros Ha Hc. unfold derive_spread.
  erewrite bind_inr by (by apply load_ok).
  erewrite bind_inr by (by apply load_ok).
  erewrite bind_inr by (by rewrite lift_ok, Hda).
  erewrite bind_inr by (by rewrite lift_ok, Ha).
  erewrite bind_inr by (by apply load_ok).
  erewrite bind_inr by (by rewrite lift_ok, Hrt).
  erewrite bind_inl; [done|]. unfold get_column. by rewrite Hc.
Qed.

Hypothesis HNI : heap s !! ni_df = Some NI.
Hypothesis Hni : column_label NI 1 = inr ni_col.
Hypothesis Hdistinct : ni_df <> merged_prices.

(** With both price columns there and numeric, the step replaces the
    object at [merged_prices] and touches nothing else. *)
Lemma derive_spread_run a b spread :
  get_column T da_col = inr a ->
  get_column T rt_col = inr b ->
  sub_columns a b = inr spread ->
  derive_spread merged_prices da_df rt_df ni_df s
  = (mkSt (<[merged_prices := with_spread T spread ni_col]> (heap s)) (trace s),
     inr tt).
Proof.
  intros Ha Hb Hs. unfold derive_spread.
  erewrite bind_inr by (by apply load_ok).
  erewrite bind_inr by (by apply load_ok).
  erewrite bind_inr by (by rewrite lift_ok, Hda).
  erewrite bind_inr by (by rewrite lift_ok, Ha).
  erewrite bind_inr by (by apply load_ok).
  erewrite bind_inr by (by rewrite lift_ok, Hrt).
  erewrite bind_inr by (by rewrite lift_ok, Hb).
  erewrite bind_inr by (by rewrite lift_ok, Hs).
  erewrite bind_inr by reflexivity.
  erewrite bind_inr; cycle 1.
  { apply load_ok. simpl. by rewrite list_lookup_insert_ne. }
  erewrite bind_inr by (by rewrite lift_ok, Hni).
  erewrite bind_inr; cycle 1.
  { apply load_ok. simpl. apply list_lookup_insert_eq.
    by eapply lookup_lt_Some. }
  unfold store. simpl. by rewrite list_insert_insert_eq.
Qed.

End SpreadStep.

Lemma sub_columns_numeric i j (rs : list (list cell)) :
  Forall (fun r => exists x y, r !! i = Some (num x) /\ r !! j = Some (num y)) rs ->
  sub_columns (map (fun r => default NaN_cell (r !! i)) rs)
              (map (fun r => default NaN_cell (r !! j)) rs)
  = inr (map (spread_cell i j) rs).
Proof.
  induction 1 as [|r rs (x & y & Hx & Hy) _ IH]; simpl; [done|].
  unfold spread_cell at 1. rewrite Hx, Hy. simpl. by rewrite IH.
Qed.

Lemma wrap64_range n : in_int64 (wrap64 n) = true.
Proof.
  unfold in_int64, wrap64, int64_min, int64_max.
  pose proof (Z.mod_pos_bound (n + 2 ^ 63) (2 ^ 64) eq_refl).
  apply andb_true_intro. split; apply Z.leb_le; lia.
Qed.

Lemma wrap64_congruent n : (wrap64 n - n) mod 2 ^ 64 = 0.
Proof.
  unfold wrap64.
  replace ((n + 2 ^ 63) mod 2 ^ 64 - 2 ^ 63 - n)
    with (- ((n + 2 ^ 63) / 2 ^ 64) * 2 ^ 64)
    by (pose proof (Z.div_mod (n + 2 ^ 63) (2 ^ 64)); lia).
  apply Z.mod_mul. lia.
Qed.

Lemma wrap64_exact n : in_int64 n = true -> wrap64 n = n.
Proof.
  unfold in_int64, wrap64, int64_min, int64_max.
  intros [H1%Z.leb_le H2%Z.leb_le]%andb_prop.
  rewrite Z.mod_small; lia.
Qed.

Lemma sub_cells_prices a b :
  is_price a = true -> is_price b = true ->
  exists c, sub_cells a b = inr c /\ difference a b c.
Proof.
  destruct a as [| |x|[| | |x| | |]], b as [| |y|[| | |y| | |]];
    try done; intros _ _; simpl; eexists; (split; [reflexivity|]); try done.
  eexists. split; [done|]. split; [apply wrap64_range|].
  split; [apply wrap64_congruent|apply wrap64_exact].
Qed.

Lemma sub_columns_prices i j (rs : list (list cell)) :
  Forall (fun r => exists a b, r !! i = Some a /\ r !! j = Some b
                               /\ is_price a = true /\ is_price b = true) rs ->
  sub_columns (map (fun r => default NaN_cell (r !! i)) rs)
              (map (fun r => default NaN_cell (r !! j)) rs)
  = inr (map (spread_cell i j) rs).
Proof.
  induction 1 as [|r rs (a & b & Ha & Hb & Hpa & Hpb) _ IH]; [done|].
  destruct (sub_cells_prices a b Hpa Hpb) as (c & Hsub & _).
  simpl. unfold spread_cell at 1. rewrite Ha, Hb. simpl.
  by rewrite Hsub, IH.
Qed.

Lemma zip_rows_map rs g f :
  zip_rows rs (map g rs) f = map (fun r => f r (g r)) rs.
Proof. induction rs as [|r rs IH]; simpl; [done|]. by rewrite IH. Qed.

Lemma col_index_rename c old new cols :
  c <> old -> c <> new ->
  col_index c (map (fun c' => default c' (assoc c' [(old, new)])) cols)
  = col_index c cols.
Proof.
  intros Ho Hn. induction cols as [|c' cols IH]; [done|].
  rewrite map_cons. cbn [col_index]. rewrite IH. cbn [assoc].
  destruct (String.eqb_spec c' old) as [->|Hne]; simpl; [|done].
  destruct (String.eqb_spec c new); [done|].
  by destruct (String.eqb_spec c old).
Qed.

Lemma keyed_row_length df r :
  keyed df -> r ∈ rows df -> length r = length (columns df).
Proof.
  intros (Hc & _ & Hr) Hin. unfold key_rows in Hr.
  rewrite Forall_forall in Hr. destruct (Hr _ Hin) as (t & vs & -> & Hlen).
  rewrite Hc. simpl. by rewrite Hlen.
Qed.

(** The new column of [with_spread]: under the label [Spread ($/MWh)],
    row by row, [v r]. *)
Lemma with_spread_cells T v ni_col i r :
  (forall r, r ∈ rows T -> length r = length (columns T)) ->
  ni_col <> "Spread ($/MWh)" ->
  rows T !! i = Some r ->
  exists r',
    rows (with_spread T (map v (rows T)) ni_col) !! i = Some r'
    /\ row_get (columns (with_spread T (map v (rows T)) ni_col)) r'
               "Spread ($/MWh)" = Some (v r).
Proof.
  intros Hlen Hni Hi. unfold with_spread, rename, set_column. unfold row_get.
  assert (Hr : length r = length (columns T))
    by (by eapply Hlen, list_elem_of_lookup_2).
  destruct (col_index "Spread ($/MWh)" (columns T)) as [k|] eqn:Hk;
    cbn [columns rows];
    rewrite col_index_rename by done; rewrite zip_rows_map, list_lookup_fmap, Hi;
    cbn [fmap option_fmap option_map]; eexists; (split; [done|]).
  - rewrite Hk. cbn [mbind option_bind]. apply list_lookup_insert_eq.
    rewrite Hr. by eapply col_index_lt.
  - apply col_index_None in Hk. rewrite (col_index_app_r _ _ _ Hk).
    cbn [col_index String.eqb Ascii.eqb Bool.eqb fmap option_fmap option_map
         mbind option_bind].
    rewrite Nat.add_0_r, <- Hr. by apply list_lookup_middle.
Qed.




(** ** Claims about the spread step *)

Section DeriveClaims.
Import FinalDebugged.

Variables (s : St) (merged_prices da_df rt_df ni_df : nat).
Variables (T DA RT NI : DataFrame) (da_col rt_col ni_col : string).
Hypothesis HT : heap s !! merged_prices = Some T.
Hypothesis HDA : heap s !! da_df = Some DA.
Hypothesis HRT : heap s !! rt_df = Some RT.
Hypothesis HNI : heap s !! ni_df = Some NI.
Hypothesis Hda : column_label DA 1 = inr da_col.
Hypothesis Hrt : column_label RT 1 = inr rt_col.
Hypothesis Hni : column_label NI 1 = inr ni_col.
Hypothesis Hdistinct : ni_df <> merged_prices.
Hypothesis Hlabel : ni_col <> "Spread ($/MWh)".
Hypothesis Hkeyed : keyed T.
Hypothesis Hhas_da : da_col ∈ columns T.
Hypothesis Hhas_rt : rt_col ∈ columns T.
Hypothesis Hnumeric :
  Forall (fun r => exists a b,
            row_get (columns T) r da_col = Some a
            /\ row_get (columns T) r rt_col = Some b
            /\ is_price a = true /\ is_price b = true) (rows T).

Lemma derive_spread_result :
  exists i j,
    col_index da_col (columns T) = Some i
    /\ col_index rt_col (columns T) = Some j
    /\ derive_spread merged_prices da_df rt_df ni_df s
       = (mkSt (<[merged_prices :=
                    with_spread T (map (spread_cell i j) (rows T)) ni_col]>
                  (heap s)) (trace s),
          inr tt).
Proof.
  destruct (col_index_elem _ _ Hhas_da) as [i Hi].
  destruct (col_index_elem _ _ Hhas_rt) as [j Hj].
  exists i, j. split; [done|]. split; [done|].
  eapply (derive_spread_run s merged_prices da_df rt_df ni_df T DA RT NI);
    try done.
  - unfold get_column. by rewrite Hi.
  - unfold get_column. by rewrite Hj.
  - apply sub_columns_prices. eapply Forall_impl; [exact Hnumeric|].
    intros r (a & b & Ha & Hb & Hp). exists a, b.
    by rewrite <- (row_get_Some _ _ _ _ Hi), <- (row_get_Some _ _ _ _ Hj).
Qed.

(** C4 (as amended).  After the spread step the table holds, in every row,
    under [Spread ($/MWh)] the day-ahead price of that row minus its
    real-time price in the arithmetic of the two columns: one IEEE
    subtraction for doubles, and for 64-bit integers the difference
    reduced into 64 bits, which is the exact difference when that fits. *)
Theorem spread_is_the_difference_of_its_type :
  exists s' T',
    derive_spread merged_prices da_df rt_df ni_df s = (s', inr tt)
    /\ heap s' !! merged_prices = Some T'
    /\ len T' = len T
    /\ forall i r, rows T !! i = Some r ->
         exists r' a b c,
           rows T' !! i = Some r'
           /\ row_get (columns T) r da_col = Some a
           /\ row_get (columns T) r rt_col = Some b
           /\ row_get (columns T') r' "Spread ($/MWh)" = Some c
           /\ difference a b c.
Proof.
  destruct derive_spread_result as (i & j & Hi & Hj & Hrun).
  do 2 eexists. split; [exact Hrun|]. split.
  { simpl. apply list_lookup_insert_eq. by eapply lookup_lt_Some. }
  split.
  { unfold len, with_spread, rename, set_column.
    destruct (col_index "Spread ($/MWh)" (columns T)); cbn [rows];
      by rewrite zip_rows_map, !length_map. }
  intros k r Hk.
  destruct (with_spread_cells T (spread_cell i j) ni_col k r) as (r' & Hr' & Hc);
    [by intros; eapply keyed_row_length|done..|].
  rewrite Forall_forall in Hnumeric.
  destruct (Hnumeric r) as (a & b & Ha & Hb & Hpa & Hpb);
    [by eapply list_elem_of_lookup_2|].
  destruct (sub_cells_prices a b Hpa Hpb) as (c & Hsub & Hdiff).
  exists r', a, b, c. split; [done|]. split; [done|]. split; [done|].
  split; [|done]. rewrite Hc. unfold spread_cell.
  rewrite <- (row_get_Some _ _ _ _ Hi), <- (row_get_Some _ _ _ _ Hj), Ha, Hb.
  by rewrite Hsub.
Qed.


End DeriveClaims.

(** ** The spread step without the real-time column *)


Example ex_merged_is_merged :
  match merge ex_da ex_rt "datetime" ("_DA", "_RT") with
  | inr t => merge t ex_ni "datetime" default_suffixes
  | inl e => inl e
  end = inr ex_merged.
Proof. vm_compute. reflexivity. Qed.


(** C4, the claim as stated fails: prices the payload writes as integers
    are held in 64 bits, and the difference of the largest such integer
    and -1 comes out as the smallest one. *)
Lemma spread_of_integers_wraps :
  frame_of_data (JArr [ex_int_record 9223372036854775807]) "lmp_da"
  = inr ex_da_int
  /\ frame_of_data (JArr [ex_int_record (-1)]) "lmp_rt" = inr ex_rt_int
  /\ match merge ex_da_int ex_rt_int "datetime" ("_DA", "_RT") with
     | inr t => merge t ex_ni "datetime" default_suffixes
     | inl e => inl e
     end = inr ex_merged_int
  /\ FinalDebugged.derive_spread 3 1 2 0
       (mkSt [ex_ni; ex_da_int; ex_rt_int; ex_merged_int] [])
     = (mkSt [ex_ni; ex_da_int; ex_rt_int; ex_derived_int] [], inr tt)
  /\ cell_at ex_derived_int 1688169600 "Spread ($/MWh)"
     = Some (CInt (-9223372036854775808))
  /\ 9223372036854775807 - (-1) <> -9223372036854775808.
Proof.
  split; [vm_compute; reflexivity|]. split; [vm_compute; reflexivity|].
  split; [vm_compute; reflexivity|]. split; [vm_compute; reflexivity|].
  split; [vm_compute; reflexivity|]. lia.
Qed.


(** ** The forecast block *)



Lemma foldr_max_last t l :
  StronglySorted Z.lt (t :: l) -> foldr Z.max t l = default t (last l).
Proof.
  revert t. induction l as [|x l IH]; intros t H; [done|].
  apply StronglySorted_inv in H as [Hl Ht]. simpl.
  assert (Htl : StronglySorted Z.lt (t :: l)).
  { constructor.
    - by apply StronglySorted_inv in Hl as [? _].
    - by apply Forall_cons in Ht as [_ ?]. }
  rewrite (IH t Htl). apply StronglySorted_inv in Hl as [_ Hx].
  destruct l as [|y l]; simpl.
  - apply Forall_cons in Ht as [? _]. lia.
  - assert (Hin : default t (last (y :: l)) ∈ y :: l).
    { destruct (last (y :: l)) as [z|] eqn:E; simpl.
      - by apply last_Some_elem_of.
      - by apply last_None in E. }
    rewrite Forall_forall in Hx. specialize (Hx _ Hin).
    change (last (x :: y :: l)) with (last (y :: l)). lia.
Qed.

Lemma max_date_ascending l tl :
  Sorted Z.lt l -> last l = Some tl -> max_date l = tl.
Proof.
  intros H Hl. apply Sorted_StronglySorted in H; [|intros x y z; lia].
  destruct l as [|t l]; [done|]. simpl. rewrite (foldr_max_last t l H).
  destruct l as [|x l]; [by injection Hl|].
  change (last (t :: x :: l)) with (last (x :: l)) in Hl. by rewrite Hl.
Qed.

Lemma training_series pts :
  training (map (fun p => CTime p.1) pts) (map (fun p => num p.2) pts)
  = inr pts.
Proof.
  induction pts as [|[t x] pts IH]; simpl; [done|]. by rewrite IH.
Qed.

Lemma predict_rows_times P m ts :
  predict_rows P m (map CTime ts) = inr (map (forecast_row P (history m)) ts).
Proof.
  induction ts as [|t ts IH]; simpl; [done|]. rewrite IH.
  unfold forecast_row. by destruct (predict_at P (history m) t) as [[a lo] hi].
Qed.

Lemma timestamps_forecast_rows cols P h ts :
  timestamps (mkDF cols (map (forecast_row P h) ts)) = ts.
Proof.
  unfold timestamps. simpl. induction ts as [|t ts IH]; simpl; [done|].
  unfold forecast_row at 1. destruct (predict_at P h t) as [[a lo] hi].
  by f_equal.
Qed.

Lemma series_column_0 pts :
  map (fun r => default NaN_cell (r !! 0%nat)) (series_rows pts)
  = map (fun p => CTime p.1) pts.
Proof. unfold series_rows. rewrite map_map. done. Qed.

Lemma series_column_1 pts :
  map (fun r => default NaN_cell (r !! 1%nat)) (series_rows pts)
  = map (fun p => num p.2) pts.
Proof. unfold series_rows. rewrite map_map. done. Qed.

Lemma rename_series m rs :
  m <> "datetime" ->
  rename (mkDF ["datetime"; m] rs) [(m, "y"); ("datetime", "ds")]
  = mkDF ["ds"; "y"] rs.
Proof.
  intros Hm.
  assert (H1 : assoc "datetime" [(m, "y"); ("datetime", "ds")] = Some "ds").
  { cbn [assoc]. by destruct (String.eqb_spec "datetime" m). }
  assert (H2 : assoc m [(m, "y"); ("datetime", "ds")] = Some "y").
  { cbn [assoc]. by rewrite String.eqb_refl. }
  unfold rename. cbn [columns rows map]. by rewrite H1, H2.
Qed.

Lemma get_column_ds rs :
  get_column (mkDF ["ds"; "y"] rs) "ds"
  = inr (map (fun r => default NaN_cell (r !! 0%nat)) rs).
Proof. reflexivity. Qed.

Lemma get_column_y rs :
  get_column (mkDF ["ds"; "y"] rs) "y"
  = inr (map (fun r => default NaN_cell (r !! 1%nat)) rs).
Proof. reflexivity. Qed.

Lemma get_column_future ts :
  get_column (mkDF ["ds"] (map (fun t => [CTime t]) ts)) "ds"
  = inr (map CTime ts).
Proof.
  unfold get_column. change (col_index "ds" _) with (Some 0%nat).
  cbn [rows]. by rewrite map_map.
Qed.

Lemma notnull_values pts :
  filter (fun c => negb (is_missing c)) (map (fun p : Z * float => num p.2) pts)
  = map (fun p => num p.2) (filter (fun p => notnull p.2) pts).
Proof.
  induction pts as [|[t x] pts IH]; [done|].
  rewrite map_cons, !filter_cons. cbn [is_missing num snd]. unfold isnan, notnull.
  rewrite IH. by destruct (PrimFloat.eqb x x).
Qed.


(** The future frame of a model fitted on an ascending history. *)
Lemma future_frame P h dates tl :
  Sorted Z.lt dates ->
  last dates = Some tl ->
  to_offset P "H" = Some 3600 ->
  in_bounds (tl + 3600 * 48) = true ->
  make_future_dataframe P (mkFitted h dates) 48 "H"
  = inr (mkDF ["ds"]
           (map (fun t => [CTime t])
                (dates ++ map (fun k => tl + 3600 * Z.of_nat (S k))
                              (seq 0 48)))).
Proof.
  intros Hs Hl Hoff Hb. unfold make_future_dataframe.
  cbn [history_dates]. rewrite Hoff, (max_date_ascending _ _ Hs Hl).
  change (Z.of_nat 48) with 48. by rewrite Hb.
Qed.

Lemma predict_frame P m ts :
  predict P m (mkDF ["ds"] (map (fun t => [CTime t]) ts))
  = inr (mkDF ["ds"; "yhat"; "yhat_lower"; "yhat_upper"]
              (map (forecast_row P (history m)) ts)).
Proof.
  unfold predict. by rewrite get_column_future, predict_rows_times.
Qed.



(** ** Sample runs *)

Lemma fetch_keeps_upstream_order_witness :
  exists s' df,
    FinalDebugged.fetch_eia_v2_hourly_series
      (ex_world ex_ascending) "CISO" "demand" "KEY" (mkSt [] [])
    = (s', inr df)
    /\ len df = 2%nat
    /\ timestamps df = [1688169600; 1688173200].
Proof.
  destruct (fetch_keeps_upstream_order
              (ex_world ex_ascending) "CISO" "demand" "KEY" (mkSt [] []) "D"
              (mkResponse 200
                 (Some (JObj [("response", JObj [("total", JNum 2);
                                                 ("data", JArr ex_ascending)])])))
              (JObj [("response", JObj [("total", JNum 2);
                                        ("data", JArr ex_ascending)])])
              ex_ascending [1688169600; 1688173200])
    as (s' & df & H1 & H2 & H3 & _);
    [vm_compute; reflexivity..|].
  exists s', df. split; [exact H1|]. split; [exact H2|exact H3].
Defined.

(** C1, the claim as stated fails: two well-formed records for the same
    hour come back as two rows with the same timestamp. *)
Lemma fetch_repeats_a_repeated_period :
  mapM record_time ex_repeated = Some [1688169600; 1688169600]
  /\ exists s' df,
       FinalDebugged.fetch_eia_v2_hourly_series
         (ex_world ex_repeated) "CISO" "demand" "KEY" (mkSt [] [])
       = (s', inr df)
       /\ len df = 2%nat
       /\ timestamps df = [1688169600; 1688169600]
       /\ ~ NoDup (timestamps df).
Proof.
  split; [vm_compute; reflexivity|].
  do 2 eexists. split; [vm_compute; reflexivity|].
  split; [reflexivity|]. split; [reflexivity|].
  intros H. apply NoDup_cons in H as [H _]. apply H. by left.
Qed.

Lemma fetch_unsupported_metric_witness :
  FinalDebugged.fetch_eia_v2_hourly_series
    (ex_world []) "CISO" "temperature" "KEY" (mkSt [] [])
  = (mkSt [] [StCaption "🔄 Data range: 2023-06-24 to 2023-07-01";
              StError "Unsupported metric: temperature"],
     inr empty_frame).
Proof.
  destruct (fetch_unsupported_metric_sends_no_request
              (ex_world []) "CISO" "temperature" "KEY" (mkSt [] []))
    as [H _]; [apply (bool_decide_unpack _); by vm_compute|].
  rewrite H. vm_compute. reflexivity.
Defined.

(** C2, the claim as stated fails: [lmp_da] is none of the seven kinds the
    specification enumerates, and the fetch sends its request and shows no
    error. *)
Lemma fetch_of_lmp_da_sends_a_request :
  ("lmp_da" ∉ spec_metric_kinds)
  /\ exists url,
       FinalDebugged.fetch_eia_v2_hourly_series
         (ex_serving (mkResponse 200 (Some (JObj [])))) "CISO" "lmp_da" "KEY"
         (mkSt [] [])
       = (mkSt [] [StCaption "🔄 Data range: 2023-06-24 to 2023-07-01";
                   HttpGet url;
                   StWarning "No data found for CISO - lmp_da"],
          inr empty_frame).
Proof.
  split; [apply (bool_decide_unpack _); by vm_compute|].
  eexists. vm_compute. reflexivity.
Qed.

Lemma fetch_empty_data_witness :
  FinalDebugged.fetch_eia_v2_hourly_series
    (ex_world []) "CISO" "demand" "KEY" (mkSt [] [])
  = (mkSt [] [StCaption "🔄 Data range: 2023-06-24 to 2023-07-01";
              HttpGet ex_url;
              StWarning "No data found for CISO - demand"],
     inr empty_frame).
Proof.
  destruct (fetch_empty_data_returns_empty_frame
              (ex_world []) "CISO" "demand" "KEY" (mkSt [] []) "D"
              (mkResponse 200
                 (Some (JObj [("response", JObj [("total", JNum 2);
                                                 ("data", JArr [])])])))
              (JObj [("response", JObj [("total", JNum 2); ("data", JArr [])])]))
    as [H _];
    [vm_compute; reflexivity..|].
  rewrite H. vm_compute. reflexivity.
Defined.

Lemma keyed_series m pts :
  m <> "datetime" -> keyed (mkDF ["datetime"; m] (series_rows pts)).
Proof.
  intros Hm. split; [done|]. split.
  - intros H%list_elem_of_singleton. done.
  - unfold key_rows, series_rows. apply Forall_fmap, Forall_true.
    intros p. by exists p.1, [num p.2].
Qed.

Lemma ex_series_ok : Forall table_ok [ex_load; ex_wind; ex_solar].
Proof.
  assert (H : forall m pts,
             m <> "datetime" -> bool_decide (NoDup pts.*1) = true ->
             table_ok (mkDF ["datetime"; m] (series_rows pts))).
  { intros m pts Hm Hnd. split; [by apply keyed_series|].
    rewrite timestamps_series_rows. by apply bool_decide_eq_true in Hnd. }
  apply Forall_cons_2; [by apply H|].
  apply Forall_cons_2; [by apply H|].
  apply Forall_cons_2; [by apply H|]. apply Forall_nil_2.
Qed.

Lemma merge_length_witness :
  exists T, merge ex_load ex_wind "datetime" default_suffixes = inr T
            /\ len T = 2%nat.
Proof.
  destruct (merge_length_is_common_timestamps ex_load ex_wind default_suffixes)
    as (T & H1 & H2 & _).
  - by apply keyed_series.
  - by apply keyed_series.
  - apply (bool_decide_unpack _). by vm_compute.
  - apply (bool_decide_unpack _). by vm_compute.
  - exists T. split; [exact H1|]. rewrite H2. by vm_compute.
Defined.

Lemma merge_chain_order_witness :
  exists T T',
    merge_chain ex_load [ex_wind; ex_solar] = inr T
    /\ merge_chain ex_solar [ex_wind; ex_load] = inr T'
    /\ forall t c, cell_at T t c = cell_at T' t c.
Proof.
  destruct (merge_chain_order_insensitive
              ex_load [ex_wind; ex_solar] ex_solar [ex_wind; ex_load])
    as (T & T' & H1 & H2 & _ & _ & H3).
  - symmetry. apply (reverse_Permutation [ex_load; ex_wind; ex_solar]).
  - apply ex_series_ok.
  - apply (bool_decide_unpack _). by vm_compute.
  - by exists T, T'.
Defined.

Lemma keyed_ex_merged : keyed ex_merged.
Proof.
  split; [done|]. split.
  - apply (bool_decide_unpack _). by vm_compute.
  - repeat constructor. by eexists _, _.
Qed.

Lemma spread_witness :
  exists s' T',
    FinalDebugged.derive_spread 3 1 2 0 (mkSt [ex_ni; ex_da; ex_rt; ex_merged] [])
    = (s', inr tt)
    /\ heap s' !! 3%nat = Some T'
    /\ forall r', rows T' !! 0%nat = Some r' ->
         row_get (columns T') r' "Spread ($/MWh)" = Some (num 2.25).
Proof.
  destruct (spread_is_the_difference_of_its_type
              (mkSt [ex_ni; ex_da; ex_rt; ex_merged] []) 3 1 2 0
              ex_merged ex_da ex_rt ex_ni "lmp_da" "lmp_rt" "net_interchange")
    as (s' & T' & H1 & H2 & _ & H3);
    try reflexivity; try done.
  - apply keyed_ex_merged.
  - apply (bool_decide_unpack _). by vm_compute.
  - apply (bool_decide_unpack _). by vm_compute.
  - repeat constructor. by eexists _, _.
  - exists s', T'. split; [exact H1|]. split; [exact H2|].
    intros r' Hr'.
    destruct (H3 0%nat _ eq_refl) as (r'' & a & b & c & Hr'' & Ha & Hb & Hs & Hd).
    rewrite Hr'' in Hr'. injection Hr' as <-.
    injection Ha as <-. injection Hb as <-. rewrite Hs. f_equal. exact Hd.
Defined.




(** * Further properties of the scripts *)

(** ** Every run of the fetch function *)

Lemma requests_app evs1 evs2 :
  requests (evs1 ++ evs2) = requests evs1 ++ requests evs2.
Proof. unfold requests. apply omap_app. Qed.

Lemma requests_get_run w url s :
  requests_get w url s
  = (logged s [HttpGet url],
     match serve w url with Some r => inr r | None => inl ConnectionError end).
Proof.
  unfold requests_get. erewrite bind_inr by apply emit_logged.
  by destruct (serve w url).
Qed.

(** The part the files share, from the request on. *)
Lemma fetch_tail_run sep w respondent metric api_key start_str end_str code s
  (k : Response -> M DataFrame) :
  metric_map !! metric = Some code ->
  (forall r s0, k r s0
     = if negb (status_code r =? 200) then
         (emit (StWarning ("EIA v2 API call failed for " +:+ respondent
                           +:+ sep +:+ metric));;
          mret empty_frame) s0
       else
         (body ← response_json r;
          resp ← lift (json_get body "response" (JObj []));
          data ← lift (json_get resp "data" (JArr []));
          if negb (truthy data) then
            emit (StWarning ("No data found for " +:+ respondent
                             +:+ sep +:+ metric));;
            mret empty_frame
          else lift (frame_of_data data metric)) s0) ->
  (requests_get w (eia_url respondent code start_str end_str api_key) ≫= k) s
  = (logged s (fetch_view [] sep w respondent metric api_key
                          start_str end_str).1,
     (fetch_view [] sep w respondent metric api_key start_str end_str).2).
Proof.
  intros Hm Hk. unfold fetch_view. rewrite Hm. cbv zeta.
  set (url := eia_url respondent code start_str end_str api_key).
  destruct (serve w url) as [r|] eqn:Hs.
  - erewrite bind_inr by (by rewrite requests_get_run, Hs).
    rewrite Hk. destruct (negb (status_code r =? 200)).
    { erewrite bind_inr by apply emit_logged. by rewrite logged_logged. }
    unfold response_json, response_data.
    destruct (json_body r) as [body|]; [|done].
    erewrite bind_inr by reflexivity. unfold lift at 1.
    destruct (json_get body "response" (JObj [])) as [e|resp]; [done|].
    erewrite bind_inr by reflexivity. unfold lift at 1.
    destruct (json_get resp "data" (JArr [])) as [e|data]; [done|].
    erewrite bind_inr by reflexivity.
    destruct (negb (truthy data)); [|done].
    erewrite bind_inr by apply emit_logged. by rewrite logged_logged.
  - erewrite bind_inl; [done|]. by rewrite requests_get_run, Hs.
Qed.

Lemma fetch_view_shown shown sep w respondent metric api_key start_str end_str :
  fetch_view shown sep w respondent metric api_key start_str end_str
  = (shown ++ (fetch_view [] sep w respondent metric api_key
                          start_str end_str).1,
     (fetch_view [] sep w respondent metric api_key start_str end_str).2).
Proof.
  unfold fetch_view. destruct (metric_map !! metric) as [code|]; [|done].
  cbv zeta. destruct (serve w _) as [r|]; [|done].
  destruct (negb (status_code r =? 200)); [done|].
  destruct (json_body r) as [body|]; [|done].
  destruct (response_data body) as [e|data]; [done|].
  by destruct (negb (truthy data)).
Qed.

(** The result of a run does not depend on what was shown before the
    metric check or on the separator of the messages. *)
Lemma fetch_view_result shown shown' sep sep' w respondent metric api_key
  start_str end_str :
  (fetch_view shown sep w respondent metric api_key start_str end_str).2
  = (fetch_view shown' sep' w respondent metric api_key start_str end_str).2
  /\ requests (fetch_view shown sep w respondent metric api_key
                          start_str end_str).1
     = requests shown
       ++ requests (fetch_view [] sep' w respondent metric api_key
                               start_str end_str).1.
Proof.
  rewrite (fetch_view_shown shown), (fetch_view_shown shown'). cbn [fst snd].
  rewrite requests_app.
  unfold fetch_view. destruct (metric_map !! metric) as [code|]; [|done].
  cbv zeta. destruct (serve w _) as [r|]; [|done].
  destruct (negb (status_code r =? 200)); [done|].
  destruct (json_body r) as [body|]; [|done].
  destruct (response_data body) as [e|data]; [done|].
  by destruct (negb (truthy data)).
Qed.

Lemma final_fetch_run w respondent metric api_key s :
  FinalDebugged.fetch_eia_v2_hourly_series w respondent metric api_key s
  = (logged s (fetch_view [StCaption (caption w)] " - " w respondent metric
                 api_key (strftime_Ymd (clock w - 7 * 86400))
                 (strftime_Ymd (clock w))).1,
     (fetch_view [StCaption (caption w)] " - " w respondent metric
        api_key (strftime_Ymd (clock w - 7 * 86400))
        (strftime_Ymd (clock w))).2).
Proof.
  rewrite fetch_view_shown. cbn [fst snd].
  unfold FinalDebugged.fetch_eia_v2_hourly_series.
  erewrite bind_inr by apply utcnow_ok.
  erewrite bind_inr by apply timedelta_ok.
  erewrite bind_inr by apply emit_logged.
  destruct (metric_map !! metric) as [code|] eqn:Hm.
  - erewrite (fetch_tail_run " - ");
      [|exact Hm|intros r s0; by destruct (negb (status_code r =? 200))].
    by rewrite logged_logged.
  - erewrite bind_inr by apply emit_logged. rewrite logged_logged.
    unfold fetch_view. by rewrite Hm.
Qed.

Lemma cleaned_fetch_run w respondent metric api_key start_date end_date s :
  CleanedV2.fetch_eia_v2_hourly_series
    w respondent metric api_key start_date end_date s
  = (logged s (fetch_view [] " " w respondent metric api_key
                          start_date end_date).1,
     (fetch_view [] " " w respondent metric api_key start_date end_date).2).
Proof.
  unfold CleanedV2.fetch_eia_v2_hourly_series.
  destruct (metric_map !! metric) as [code|] eqn:Hm.
  - by erewrite (fetch_tail_run " ");
      [|exact Hm|intros r s0; by destruct (negb (status_code r =? 200))].
  - erewrite bind_inr by apply emit_logged.
    unfold fetch_view. by rewrite Hm.
Qed.

Section FetchOutcomes.

#[local] Arguments String.append : simpl never.
#[local] Arguments strftime_Ymd : simpl never.
#[local] Arguments eia_url : simpl never.

Variables (w : World) (respondent metric api_key : string) (s : St).

(** X1.  Whatever the server does, one call shows the caption first, leaves
    every frame alone and sends exactly one request when the metric is a key
    of [metric_map], none otherwise. *)
Theorem fetch_sends_one_request_iff_supported :
  exists evs r,
    FinalDebugged.fetch_eia_v2_hourly_series w respondent metric api_key s
    = (logged s (StCaption (caption w) :: evs), r)
    /\ requests evs
       = match metric_map !! metric with
         | Some code => [request_url w respondent code api_key]
         | None => []
         end.
Proof.
  rewrite final_fetch_run, fetch_view_shown. cbn [fst snd app].
  do 2 eexists. split; [reflexivity|].
  unfold fetch_view, request_url.
  destruct (metric_map !! metric) as [code|]; [|done].
  cbv zeta. destruct (serve w _) as [r|]; [|done].
  destruct (negb (status_code r =? 200)); [done|].
  destruct (json_body r) as [body|]; [|done].
  destruct (response_data body) as [e|data]; [done|].
  by destruct (negb (truthy data)).
Qed.

Variables (code : string) (r : Response).
Hypothesis Hmetric : metric_map !! metric = Some code.

(** X2.  A failed connection is not handled: the exception leaves the function
    right after the request, with no message. *)
Theorem fetch_connection_failure_propagates :
  serve w (request_url w respondent code api_key) = None ->
  FinalDebugged.fetch_eia_v2_hourly_series w respondent metric api_key s
  = (logged s [StCaption (caption w);
               HttpGet (request_url w respondent code api_key)],
     inl ConnectionError).
Proof.
  intros Hs. rewrite final_fetch_run. unfold fetch_view.
  rewrite Hmetric. cbv zeta. fold (request_url w respondent code api_key).
  by rewrite Hs.
Qed.

Hypothesis Hserve : serve w (request_url w respondent code api_key) = Some r.

(** X3.  Any status other than 200 gives the warning and the empty frame; the
    body of the answer is not looked at. *)
Theorem fetch_failed_status_gives_empty_frame :
  status_code r <> 200 ->
  FinalDebugged.fetch_eia_v2_hourly_series w respondent metric api_key s
  = (logged s [StCaption (caption w);
               HttpGet (request_url w respondent code api_key);
               StWarning ("EIA v2 API call failed for " +:+ respondent
                          +:+ " - " +:+ metric)],
     inr empty_frame).
Proof.
  intros Hc. rewrite final_fetch_run. unfold fetch_view.
  rewrite Hmetric. cbv zeta. fold (request_url w respondent code api_key).
  rewrite Hserve. by rewrite (proj2 (Z.eqb_neq _ _) Hc).
Qed.

Hypothesis Hstatus : status_code r = 200.

(** X4.  A 200 answer whose body is not JSON, or is JSON but not an object with
    an object (or nothing) under [response], raises: [JSONDecodeError] from
    [r.json()] in the first case, [AttributeError] from [.get] in the
    second.  No message is shown. *)
Theorem fetch_malformed_body_raises :
  match json_body r with
  | None => True
  | Some (JObj o) =>
      match assoc "response" o with
      | Some (JObj _) | None => False
      | Some _ => True
      end
  | Some _ => True
  end ->
  FinalDebugged.fetch_eia_v2_hourly_series w respondent metric api_key s
  = (logged s [StCaption (caption w);
               HttpGet (request_url w respondent code api_key)],
     inl (match json_body r with
          | None => JSONDecodeError
          | Some _ => AttributeError "get"
          end)).
Proof.
  intros Hb. rewrite final_fetch_run. unfold fetch_view.
  rewrite Hmetric. cbv zeta. fold (request_url w respondent code api_key).
  rewrite Hserve, Hstatus. cbn [Z.eqb Pos.eqb negb].
  destruct (json_body r) as [body|]; [|done].
  unfold response_data.
  destruct body as [| ? | ? | ? | ? | ? | o]; try done. cbn [json_get].
  destruct (assoc "response" o) as [[| ? | ? | ? | ? | ? | ?]|]; done.
Qed.

End FetchOutcomes.

(** ** Records without a period *)

Lemma add_keys_absent k o seen :
  k ∉ seen -> assoc k o = None -> k ∉ add_keys seen o.
Proof.
  revert seen. induction o as [|[k' v] o IH]; intros seen Hs; simpl; [done|].
  destruct (String.eqb_spec k k') as [->|Hne]; [done|].
  intros Ho. apply IH; [|done]. case_bool_decide; [done|].
  rewrite elem_of_app, list_elem_of_singleton. tauto.
Qed.

Lemma record_keys_absent k data seen :
  k ∉ seen ->
  Forall (fun j => exists o, j = JObj o /\ assoc k o = None) data ->
  exists cols, record_keys seen data = Some cols /\ k ∉ cols.
Proof.
  intros Hs H. revert seen Hs.
  induction H as [|j data (o & -> & Ho) _ IH]; intros seen Hs; simpl.
  - by exists seen.
  - apply IH. by apply add_keys_absent.
Qed.

(** X5.  Records without a [period] field: line 77 raises [KeyError] for the
    label, after the request and with no message; nothing is returned. *)
Theorem fetch_without_period_raises_KeyError
  w respondent metric api_key s code r body d data :
  metric_map !! metric = Some code ->
  serve w (request_url w respondent code api_key) = Some r ->
  status_code r = 200 ->
  json_body r = Some body ->
  response_data body = inr (JArr (d :: data)) ->
  Forall (fun j => exists o, j = JObj o /\ assoc "period" o = None) (d :: data) ->
  FinalDebugged.fetch_eia_v2_hourly_series w respondent metric api_key s
  = (logged s [StCaption (caption w);
               HttpGet (request_url w respondent code api_key)],
     inl (KeyError "period")).
Proof.
  intros Hm Hs Hc Hb Hd Hrec.
  rewrite (fetch_supported _ _ _ _ _ _ _ _ _ Hm Hs Hc Hb Hd).
  change (truthy (JArr (d :: data))) with true. cbv iota. f_equal.
  destruct (record_keys_absent "period" (d :: data) [] (not_elem_of_nil _) Hrec)
    as (cols & Hcols & Hnot).
  unfold frame_of_data, DataFrame_of. rewrite Hcols.
  unfold get_column. cbn [columns].
  by rewrite (proj2 (col_index_None _ _) Hnot).
Qed.


(** ** The window of the request *)

Lemma digit_val_digit n : digit_val (digit n) = Some (n mod 10).
Proof.
  unfold digit_val, digit.
  pose proof (Z.mod_pos_bound n 10 ltac:(lia)) as Hn.
  rewrite nat_ascii_embedding by lia.
  rewrite Nat2Z.inj_add, Z2Nat.id by lia. change (Z.of_nat 48) with 48.
  destruct (Z.leb_spec 48 (48 + n mod 10)); [|lia].
  destruct (Z.leb_spec (48 + n mod 10) 57); [|lia].
  cbn [andb]. f_equal. lia.
Qed.

Lemma parse_formatted y m d h :
  0 <= y < 10000 -> 1 <= m <= 12 -> 1 <= d <= days_in_month y m -> d <= 31 ->
  0 <= h <= 23 ->
  parse_layout ((pad4 y +:+ "-" +:+ pad2 m +:+ "-" +:+ pad2 d)
                +:+ "T" +:+ pad2 h)
  = Some (days_from_civil y m d * 86400 + h * 3600).
Proof.
  intros Hy Hm Hd Hd' Hh.
  assert (E : (pad4 y +:+ "-" +:+ pad2 m +:+ "-" +:+ pad2 d)
              +:+ "T" +:+ pad2 h
              = String (digit (y / 1000)) (String (digit (y / 100))
                  (String (digit (y / 10)) (String (digit y)
                  (String "-" (String (digit (m / 10)) (String (digit m)
                  (String "-" (String (digit (d / 10)) (String (digit d)
                  (String "T" (String (digit (h / 10)) (String (digit h)
                  ""))))))))))))) by reflexivity.
  rewrite E. clear E. unfold parse_layout.
  cbn [String.length Nat.eqb negb substring String.eqb
       Ascii.eqb Bool.eqb andb digits_val].
  rewrite !digit_val_digit. cbn [mbind option_bind].
  replace (10 * (10 * (10 * (10 * 0 + y / 1000 mod 10) + y / 100 mod 10)
                 + y / 10 mod 10) + y mod 10) with y
    by (Z.div_mod_to_equations; lia).
  replace (10 * (10 * 0 + m / 10 mod 10) + m mod 10) with m
    by (Z.div_mod_to_equations; lia).
  replace (10 * (10 * 0 + d / 10 mod 10) + d mod 10) with d
    by (Z.div_mod_to_equations; lia).
  replace (10 * (10 * 0 + h / 10 mod 10) + h mod 10) with h
    by (Z.div_mod_to_equations; lia).
  destruct (Z.leb_spec 1 m); [|lia]. destruct (Z.leb_spec m 12); [|lia].
  destruct (Z.leb_spec 1 d); [|lia].
  destruct (Z.leb_spec d (days_in_month y m)); [|lia].
  destruct (Z.leb_spec h 23); [|lia]. done.
Qed.

Lemma civil_days_ok_spec n z0 z :
  civil_days_ok n z0 = true -> z0 <= z < z0 + Z.of_nat n ->
  civil_day_ok z = true.
Proof.
  revert z0. induction n as [|n IH]; intros z0; [lia|].
  change (civil_days_ok (S n) z0)
    with (civil_day_ok z0 && civil_days_ok n (z0 + 1)).
  intros [H1 H2]%andb_prop Hz.
  destruct (Z.eq_dec z z0) as [->|Hne]; [done|]. apply (IH (z0 + 1)); [done|lia].
Qed.

(** The days of a century from 1970-01-01 on. *)
Lemma calendar_checked : civil_days_ok (Z.to_nat 36525) 0 = true.
Proof. vm_compute. reflexivity. Qed.

Lemma strftime_then_parse t h :
  0 <= t < 36525 * 86400 -> 0 <= h <= 23 ->
  parse_period (strftime_Ymd t +:+ "T" +:+ pad2 h)
  = Some (t / 86400 * 86400 + h * 3600).
Proof.
  intros Ht Hh.
  assert (Hz : 0 <= t / 86400 < 0 + Z.of_nat (Z.to_nat 36525))
    by (rewrite Z2Nat.id by lia; Z.div_mod_to_equations; lia).
  pose proof (civil_days_ok_spec _ _ _ calendar_checked Hz) as Hok.
  unfold civil_day_ok in Hok. unfold strftime_Ymd.
  destruct (civil_from_days (t / 86400)) as [[y m] d].
  repeat (apply andb_prop in Hok as [Hok ?]).
  unfold parse_period. rewrite parse_formatted by lia. cbn [mbind option_bind].
  replace (days_from_civil y m d) with (t / 86400) by lia.
  assert (Hb : in_bounds (t / 86400 * 86400 + h * 3600) = true).
  { unfold in_bounds, int64_max. apply andb_true_intro.
    split; apply Z.leb_le; Z.div_mod_to_equations; lia. }
  by rewrite Hb.
Qed.

(** X7.  The one request of a call for a supported metric asks for the hours
    from 00h of the day seven days before the clock's day up to 23h of the
    clock's own day: eight calendar days, 192 hourly periods, the last of
    which may still lie ahead of the clock.  (Clocks from 1970-01-08 to the
    end of 2069.) *)
Theorem request_window_is_eight_calendar_days
  w respondent metric api_key code s :
  metric_map !! metric = Some code ->
  7 * 86400 <= clock w < 36525 * 86400 ->
  exists start_str end_str evs r,
    FinalDebugged.fetch_eia_v2_hourly_series w respondent metric api_key s
    = (logged s evs, r)
    /\ requests evs = [eia_url respondent code start_str end_str api_key]
    /\ parse_period (start_str +:+ "T00")
       = Some ((clock w / 86400 - 7) * 86400)
    /\ parse_period (end_str +:+ "T23")
       = Some (clock w / 86400 * 86400 + 23 * 3600).
Proof.
  intros Hm Hc.
  exists (strftime_Ymd (clock w - 7 * 86400)), (strftime_Ymd (clock w)).
  rewrite final_fetch_run. do 2 eexists. split; [reflexivity|].
  split; [|split].
  - destruct (fetch_view_result [StCaption (caption w)] [] " - " " - "
                w respondent metric api_key
                (strftime_Ymd (clock w - 7 * 86400))
                (strftime_Ymd (clock w))) as [_ ->].
    unfold fetch_view. rewrite Hm. cbv zeta.
    destruct (serve w _) as [r|]; [|done].
    destruct (negb (status_code r =? 200)); [done|].
    destruct (json_body r) as [body|]; [|done].
    destruct (response_data body) as [e|data]; [done|].
    by destruct (negb (truthy data)).
  - change "T00" with ("T" +:+ pad2 0).
    rewrite strftime_then_parse by lia. f_equal.
    Z.div_mod_to_equations; lia.
  - change "T23" with ("T" +:+ pad2 23).
    by rewrite strftime_then_parse by lia.
Qed.

Lemma request_window_witness :
  exists start_str end_str evs r,
    FinalDebugged.fetch_eia_v2_hourly_series
      (ex_world ex_ascending) "CISO" "demand" "KEY" (mkSt [] [])
    = (logged (mkSt [] []) evs, r)
    /\ requests evs = [eia_url "CISO" "D" start_str end_str "KEY"]
    /\ parse_period (start_str +:+ "T00") = Some 1687564800
    /\ parse_period (end_str +:+ "T23") = Some 1688252400.
Proof.
  apply (request_window_is_eight_calendar_days
           (ex_world ex_ascending) "CISO" "demand" "KEY" "D" (mkSt [] [])).
  - reflexivity.
  - cbn [clock ex_world]. lia.
Defined.

(** ** Sample runs of the fetch function *)

Lemma fetch_connection_failure_witness :
  FinalDebugged.fetch_eia_v2_hourly_series
    (ex_world []) "PJM" "demand" "KEY" (mkSt [] [])
  = (logged (mkSt [] [])
       [StCaption (caption (ex_world []));
        HttpGet (request_url (ex_world []) "PJM" "D" "KEY")],
     inl ConnectionError).
Proof.
  apply (fetch_connection_failure_propagates
           (ex_world []) "PJM" "demand" "KEY" (mkSt [] []) "D").
  - reflexivity.
  - vm_compute. reflexivity.
Defined.

Lemma fetch_failed_status_witness :
  FinalDebugged.fetch_eia_v2_hourly_series
    (ex_serving (mkResponse 503 None)) "CISO" "wind" "KEY" (mkSt [] [])
  = (logged (mkSt [] [])
       [StCaption (caption (ex_serving (mkResponse 503 None)));
        HttpGet (request_url (ex_serving (mkResponse 503 None))
                             "CISO" "NG.WND" "KEY");
        StWarning "EIA v2 API call failed for CISO - wind"],
     inr empty_frame).
Proof.
  apply (fetch_failed_status_gives_empty_frame
           (ex_serving (mkResponse 503 None)) "CISO" "wind" "KEY" (mkSt [] [])
           "NG.WND" (mkResponse 503 None)).
  - reflexivity.
  - reflexivity.
  - cbn [status_code]. lia.
Defined.

Lemma fetch_malformed_body_witness :
  FinalDebugged.fetch_eia_v2_hourly_series
    (ex_serving (mkResponse 200 (Some (JArr [])))) "CISO" "wind" "KEY"
    (mkSt [] [])
  = (logged (mkSt [] [])
       [StCaption (caption (ex_serving (mkResponse 200 (Some (JArr [])))));
        HttpGet (request_url (ex_serving (mkResponse 200 (Some (JArr []))))
                             "CISO" "NG.WND" "KEY")],
     inl (AttributeError "get")).
Proof.
  apply (fetch_malformed_body_raises
           (ex_serving (mkResponse 200 (Some (JArr [])))) "CISO" "wind" "KEY"
           (mkSt [] []) "NG.WND" (mkResponse 200 (Some (JArr [])))).
  - reflexivity.
  - reflexivity.
  - reflexivity.
  - exact I.
Defined.

Lemma fetch_without_period_witness :
  FinalDebugged.fetch_eia_v2_hourly_series
    (ex_serving ex_no_period) "CISO" "wind" "KEY" (mkSt [] [])
  = (logged (mkSt [] [])
       [StCaption (caption (ex_serving ex_no_period));
        HttpGet (request_url (ex_serving ex_no_period) "CISO" "NG.WND" "KEY")],
     inl (KeyError "period")).
Proof.
  eapply (fetch_without_period_raises_KeyError
            (ex_serving ex_no_period) "CISO" "wind" "KEY" (mkSt [] [])
            "NG.WND" ex_no_period).
  - reflexivity.
  - reflexivity.
  - reflexivity.
  - reflexivity.
  - reflexivity.
  - apply Forall_cons_2; [|apply Forall_nil_2]. by eexists.
Defined.

(** ** The fixed-window variant *)

(** X8.  The fetch function of [electricity_dashboard_cleaned_v2.py], given the
    two dates the final file computes from the clock, returns what the
    final file's function returns, leaves the frames alone as it does and
    sends the same request; the final file's run shows the caption in
    addition. *)
Theorem cleaned_fetch_agrees_with_final w respondent metric api_key s :
  exists evs evs' r,
    FinalDebugged.fetch_eia_v2_hourly_series w respondent metric api_key s
    = (logged s (StCaption (caption w) :: evs), r)
    /\ CleanedV2.fetch_eia_v2_hourly_series w respondent metric api_key
         (strftime_Ymd (clock w - 7 * 86400)) (strftime_Ymd (clock w)) s
       = (logged s evs', r)
    /\ requests evs = requests evs'.
Proof.
  rewrite final_fetch_run, cleaned_fetch_run, fetch_view_shown.
  cbn [fst snd app]. do 3 eexists. split; [reflexivity|].
  destruct (fetch_view_result [] [] " " " - " w respondent metric api_key
              (strftime_Ymd (clock w - 7 * 86400)) (strftime_Ymd (clock w)))
    as [-> ->].
  done.
Qed.

(** ** Row order and row count of a merge *)

Lemma filter_key_match_length n t vs rs :
  key_rows n rs ->
  length (filter (fun rr => key_match 0 0 (CTime t :: vs) rr) rs)
  = occurrences t (row_times rs).
Proof.
  unfold key_rows, occurrences.
  induction 1 as [|r rs (u & ws & -> & Hlen) _ IH]; [done|].
  rewrite filter_cons, key_match_times.
  change (row_times ((CTime u :: ws) :: rs)) with (u :: row_times rs).
  rewrite filter_cons.
  destruct (Z.eqb_spec t u) as [->|Hne].
  - rewrite decide_True by done. rewrite decide_True by done.
    simpl. by rewrite IH.
  - rewrite decide_False by (by intros []).
    rewrite decide_False by congruence. done.
Qed.

Lemma joined_length nA nB rsA rsB :
  key_rows nA rsA -> key_rows nB rsB ->
  length (joined rsA rsB)
  = sum_list (map (fun t => occurrences t (row_times rsB)) (row_times rsA)).
Proof.
  intros HA HB. unfold key_rows in HA.
  induction HA as [|r rsA (t & vs & -> & Hlen) _ IH]; [done|].
  change (joined ((CTime t :: vs) :: rsA) rsB)
    with (map (fun rr => (CTime t :: vs) ++ delete 0%nat rr)
              (filter (fun rr => key_match 0 0 (CTime t :: vs) rr) rsB)
          ++ joined rsA rsB).
  rewrite length_app, length_map, IH.
  by rewrite (filter_key_match_length nB).
Qed.

(** X10.  Without the assumption that timestamps are unique, the inner join has
    one row for every pair of a left and a right row with the same
    timestamp: a timestamp that occurs [a] times on the left and [b] times
    on the right occurs [a * b] times in the result. *)
Theorem merge_has_a_row_per_matching_pair A B sfx :
  keyed A -> keyed B ->
  exists T,
    merge A B "datetime" sfx = inr T
    /\ len T
       = sum_list (map (fun t => occurrences t (timestamps B)) (timestamps A)).
Proof.
  intros HA HB. rewrite (merge_keyed A B sfx HA HB).
  eexists. split; [reflexivity|].
  destruct HA as (_ & _ & HrA), HB as (_ & _ & HrB).
  unfold len. cbn [rows]. by rewrite (joined_length _ _ _ _ HrA HrB).
Qed.

Lemma merge_has_a_row_per_matching_pair_witness :
  exists T,
    merge (mkDF ["datetime"; "lmp_da"]
                (series_rows [(1688173200, 41.5%float);
                              (1688173200, 41.75%float)]))
          (mkDF ["datetime"; "lmp_rt"]
                (series_rows [(1688173200, 39.25%float);
                              (1688173200, 39%float);
                              (1688176800, 40%float)]))
          "datetime" ("_DA", "_RT")
    = inr T
    /\ len T = 4%nat.
Proof.
  apply (merge_has_a_row_per_matching_pair
           (mkDF ["datetime"; "lmp_da"]
                 (series_rows [(1688173200, 41.5%float);
                               (1688173200, 41.75%float)]))
           (mkDF ["datetime"; "lmp_rt"]
                 (series_rows [(1688173200, 39.25%float);
                               (1688173200, 39%float);
                               (1688176800, 40%float)]))
           ("_DA", "_RT")).
  - by apply keyed_series.
  - by apply keyed_series.
Defined.

Lemma merge_times A B sfx T :
  keyed A -> keyed B -> NoDup (timestamps B) ->
  merge A B "datetime" sfx = inr T ->
  timestamps T = filter (fun t => t ∈ timestamps B) (timestamps A).
Proof.
  intros HA HB Hnd. rewrite (merge_keyed A B sfx HA HB). intros [= <-].
  destruct HA as (_ & _ & HrA), HB as (_ & _ & HrB).
  destruct (joined_spec _ _ _ _ HrA HrB Hnd) as (_ & Ht & _).
  by rewrite !timestamps_row_times.
Qed.

Lemma merge_chain_times rest : forall first,
  table_ok first -> Forall table_ok rest ->
  NoDup ((first :: rest) ≫= value_labels) ->
  exists T,
    merge_chain first rest = inr T
    /\ timestamps T
       = filter (fun t => Forall (fun df => t ∈ timestamps df) rest)
                (timestamps first).
Proof.
  induction rest as [|b rest IH]; intros first Hf Hrest Hnd.
  - exists first. split; [done|].
    induction (timestamps first) as [|t ts IHts]; [done|].
    rewrite filter_cons_True by constructor. by rewrite <- IHts.
  - apply Forall_cons in Hrest as [Hb Hrest].
    rewrite !bind_cons in Hnd. rewrite app_assoc in Hnd.
    assert (Hdisj : forall c, c ∈ value_labels first -> c ∉ value_labels b).
    { apply NoDup_app in Hnd as (Hnd1 & _ & _).
      apply NoDup_app in Hnd1 as (_ & Hd & _). exact Hd. }
    destruct Hf as [Hkf Hndf], Hb as [Hkb Hndb].
    destruct (merge_disjoint first b default_suffixes Hkf Hkb Hndf Hndb Hdisj)
      as (T1 & HT1 & HkT1 & HndT1 & HvT1 & _).
    destruct (IH T1) as (T & HT & Hts).
    { done. } { done. } { by rewrite bind_cons, HvT1. }
    exists T. rewrite (merge_chain_cons _ _ _ _ HT1). split; [done|].
    rewrite Hts, (merge_times _ _ _ _ Hkf Hkb Hndb HT1), list_filter_filter.
    apply list_filter_iff. intros t. rewrite Forall_cons. tauto.
Qed.

Lemma Sorted_lt_filter (P : Z -> Prop) `{!forall t, Decision (P t)} l :
  Sorted Z.lt l -> Sorted Z.lt (filter P l).
Proof.
  intros Hs. apply Sorted_StronglySorted in Hs; [|intros x y z; lia].
  apply StronglySorted_Sorted.
  induction Hs as [|t l Hl IH Ht]; [constructor|].
  rewrite filter_cons. destruct (decide (P t)); [|done].
  constructor; [done|]. rewrite Forall_forall in Ht. apply Forall_forall.
  intros u Hu%list_elem_of_filter. apply Ht. tauto.
Qed.

(** X11.  On frames keyed by [datetime], each with unique timestamps, whose
    value labels are pairwise distinct, a chain of merges keeps the rows
    of its first frame in their order: the timestamps of the result are
    those of the first frame that every other frame has too, as they stand
    in the first frame.  An ascending first frame gives an ascending
    table, whatever the order of the others. *)
Theorem merge_chain_keeps_first_order first rest :
  table_ok first -> Forall table_ok rest ->
  NoDup ((first :: rest) ≫= value_labels) ->
  exists T,
    merge_chain first rest = inr T
    /\ timestamps T
       = filter (fun t => Forall (fun df => t ∈ timestamps df) rest)
                (timestamps first)
    /\ (Sorted Z.lt (timestamps first) -> Sorted Z.lt (timestamps T)).
Proof.
  intros Hf Hrest Hnd.
  destruct (merge_chain_times rest first Hf Hrest Hnd) as (T & HT & Hts).
  exists T. split; [done|]. split; [done|].
  rewrite Hts. apply Sorted_lt_filter.
Qed.

Lemma merge_chain_keeps_first_order_witness :
  exists T,
    merge_chain ex_solar [ex_load; ex_wind] = inr T
    /\ timestamps T = [1688176800; 1688173200].
Proof.
  destruct (merge_chain_keeps_first_order ex_solar [ex_load; ex_wind])
    as (T & H1 & H2 & _).
  - by apply (Forall_inv (Forall_inv_tail (Forall_inv_tail ex_series_ok))).
  - apply Forall_cons_2; [by apply (Forall_inv ex_series_ok)|].
    apply Forall_cons_2;
      [by apply (Forall_inv (Forall_inv_tail ex_series_ok))|].
    apply Forall_nil_2.
  - apply (bool_decide_unpack _). by vm_compute.
  - exists T. split; [exact H1|]. rewrite H2. by vm_compute.
Defined.

(** ** The renewables block *)

(** X15.  The block has no [else]: whatever the three frames hold, it shows
    either nothing or the one chart.  With an empty frame among the three
    it does nothing at all: an empty series (its fetch failed or found
    nothing) gets no notice here, unlike in the arbitrage block.  With none
    empty, an exception of a merge leaves the block with the state as it
    was; once the merges are through, [merged] is bound to the new table,
    and the chart is shown if each frame has a second column and plotly
    express finds the three labels among the columns of the table;
    otherwise the block raises with [merged] bound and nothing shown.  The
    frames it was given are never changed. *)
Theorem renewables_shows_the_chart_or_nothing
  s load_df wind_df solar_df L W S :
  heap s !! load_df = Some L ->
  heap s !! wind_df = Some W ->
  heap s !! solar_df = Some S ->
  exists s' r,
    FinalDebugged.renewables_integration load_df wind_df solar_df s = (s', r)
    /\ ((s' = s /\ r = inr None
         /\ (empty L = true \/ empty W = true \/ empty S = true))
        \/ (empty L = false /\ empty W = false /\ empty S = false
            /\ match merge_chain L [W; S] with
               | inl e => s' = s /\ r = inl e
               | inr T =>
                   heap s' = heap s ++ [T]
                   /\ ((trace s' = trace s /\ exists e, r = inl e)
                       \/ (trace s'
                           = trace s
                             ++ [StPlotlyChart "Stacked Renewables vs Load" T]
                           /\ r = inr (Some (length (heap s)))
                           /\ exists wind_col solar_col load_col,
                                columns W !! 1%nat = Some wind_col
                                /\ columns S !! 1%nat = Some solar_col
                                /\ columns L !! 1%nat = Some load_col
                                /\ Forall (fun c => c ∈ columns T)
                                     ["datetime"; wind_col; solar_col;
                                      load_col]))
               end)).
Proof.
  intros HL HW HS. unfold FinalDebugged.renewables_integration.
  erewrite bind_inr by (by apply load_ok).
  erewrite bind_inr by (by apply load_ok).
  erewrite bind_inr by (by apply load_ok).
  destruct (empty W) eqn:EW;
    [eexists _, _; split; [reflexivity|]; left; tauto|].
  destruct (empty S) eqn:ES;
    [eexists _, _; split; [reflexivity|]; left; tauto|].
  destruct (empty L) eqn:EL;
    [eexists _, _; split; [reflexivity|]; left; tauto|].
  cbn [negb andb].
  destruct (merge_chain L [W; S]) as [e|T] eqn:HT.
  - erewrite bind_inl by reflexivity. eexists _, _. split; [done|]. by right.
  - erewrite bind_inr by reflexivity.
    erewrite bind_inr by reflexivity.
    unfold column_label.
    destruct (columns W !! 1%nat) as [wc|] eqn:Hw; last first.
    { erewrite bind_inl by reflexivity. eexists _, _. split; [done|]. right.
      repeat (split; [done|]). left. split; [done|]. by eexists. }
    erewrite bind_inr by reflexivity.
    destruct (columns S !! 1%nat) as [sc|] eqn:Hs; last first.
    { erewrite bind_inl by reflexivity. eexists _, _. split; [done|]. right.
      repeat (split; [done|]). left. split; [done|]. by eexists. }
    erewrite bind_inr by reflexivity.
    destruct (columns L !! 1%nat) as [lc|] eqn:Hl; last first.
    { erewrite bind_inl by reflexivity. eexists _, _. split; [done|]. right.
      repeat (split; [done|]). left. split; [done|]. by eexists. }
    erewrite bind_inr by reflexivity.
    unfold px_check.
    destruct (forallb (fun c => has_column c T) ["datetime"; wc; sc; lc])
      eqn:Hpx; last first.
    { erewrite bind_inl by reflexivity. eexists _, _. split; [done|]. right.
      repeat (split; [done|]). left. split; [done|]. by eexists. }
    erewrite bind_inr by reflexivity.
    erewrite bind_inr by apply emit_logged.
    eexists _, _. split; [reflexivity|]. right.
    repeat (split; [done|]). right. split; [done|]. split; [done|].
    exists wc, sc, lc. repeat (split; [done|]).
    pose proof (proj1 (forallb_forall _ _) Hpx) as Hall.
    apply Forall_forall. intros c Hc%list_elem_of_In.
    specialize (Hall c Hc). unfold has_column in Hall.
    destruct (col_index c (columns T)) as [i|] eqn:Hi; [|done].
    eapply list_elem_of_lookup_2, col_index_Some, Hi.
Qed.

Lemma renewables_shows_the_chart_or_nothing_witness :
  exists s' r,
    FinalDebugged.renewables_integration 0 1 2
      (mkSt [ex_load; empty_frame; ex_solar] [])
    = (s', r)
    /\ s' = mkSt [ex_load; empty_frame; ex_solar] [] /\ r = inr None.
Proof.
  destruct (renewables_shows_the_chart_or_nothing
              (mkSt [ex_load; empty_frame; ex_solar] []) 0 1 2
              ex_load empty_frame ex_solar)
    as (s' & r & Hrun & [(-> & -> & _)|(_ & [=] & _)]).
  - reflexivity.
  - reflexivity.
  - reflexivity.
  - by eexists _, _.
Defined.

(** ** The forecast block on any series *)

Lemma elem_of_insert_date x t l : x ∈ insert_date t l <-> x = t \/ x ∈ l.
Proof.
  induction l as [|y l IH]; simpl.
  - rewrite list_elem_of_singleton, elem_of_nil. tauto.
  - destruct (Z.ltb_spec t y); [by rewrite elem_of_cons|].
    destruct (Z.eqb_spec t y) as [->|Hne].
    + rewrite elem_of_cons. tauto.
    + rewrite !elem_of_cons, IH. tauto.
Qed.

Lemma insert_date_sorted t l :
  Sorted Z.lt l -> Sorted Z.lt (insert_date t l).
Proof.
  induction 1 as [|y l Hl IH Hy]; simpl; [by repeat constructor|].
  destruct (Z.ltb_spec t y); [by repeat constructor|].
  destruct (Z.eqb_spec t y) as [->|Hne]; [by constructor|].
  constructor; [done|].
  destruct l as [|z l]; simpl; [constructor; lia|].
  apply HdRel_inv in Hy.
  destruct (Z.ltb_spec t z); [constructor; lia|].
  destruct (Z.eqb_spec t z); constructor; lia.
Qed.

Lemma sort_unique_sorted l : Sorted Z.lt (sort_unique l).
Proof.
  induction l as [|t l IH]; [constructor|]. by apply insert_date_sorted.
Qed.

Lemma elem_of_sort_unique x l : x ∈ sort_unique l <-> x ∈ l.
Proof.
  induction l as [|t l IH]; [done|].
  unfold sort_unique. simpl. fold (sort_unique l).
  by rewrite elem_of_insert_date, IH, elem_of_cons.
Qed.

Lemma fit_any_series P m pts :
  m <> "datetime" ->
  fit P (rename (mkDF ["datetime"; m] (series_rows pts))
                [(m, "y"); ("datetime", "ds")])
  = if (length (filter (fun p => notnull p.2) pts) <? 2)%nat
    then inl ValueError
    else if existsb (fun p => isinf p.2) pts then inl ValueError
    else match fit_error P pts with
         | Some e => inl e
         | None => inr (mkFitted pts (sort_unique pts.*1))
         end.
Proof.
  intros Hm. rewrite rename_series by done. unfold fit.
  rewrite get_column_ds, get_column_y.
  rewrite series_column_0, series_column_1, training_series.
  by rewrite notnull_values, length_map.
Qed.

Lemma sorted_last_max l tl :
  Sorted Z.lt l -> last l = Some tl -> forall t, t ∈ l -> t <= tl.
Proof.
  intros Hs. apply Sorted_StronglySorted in Hs; [|intros x y z; lia].
  induction Hs as [|y l Hsl IH Hy]; [done|].
  intros Hl t. destruct l as [|z l].
  - injection Hl as <-. intros ->%list_elem_of_singleton. lia.
  - change (last (y :: z :: l)) with (last (z :: l)) in Hl.
    intros [->|Hin]%elem_of_cons; [|by apply IH].
    rewrite Forall_forall in Hy.
    assert (Hin : tl ∈ z :: l) by (by apply last_Some_elem_of).
    specialize (Hy tl Hin). lia.
Qed.

Lemma sorted_app_lt l1 l2 :
  Sorted Z.lt l1 -> Sorted Z.lt l2 ->
  (forall x y, x ∈ l1 -> y ∈ l2 -> x < y) ->
  Sorted Z.lt (l1 ++ l2).
Proof.
  intros H1 H2 H.
  apply Sorted_StronglySorted in H1; [|intros x y z; lia].
  apply Sorted_StronglySorted in H2; [|intros x y z; lia].
  apply StronglySorted_Sorted.
  induction H1 as [|x l1 Hl1 IH Hx]; [done|]. simpl. constructor.
  - apply IH. intros a b Ha Hb. apply H; [by right|done].
  - apply Forall_app. split; [done|]. apply Forall_forall.
    intros y Hy. apply H; [by left|done].
Qed.

Lemma future_dates_sorted tl n k0 :
  Sorted Z.lt (map (fun k => tl + 3600 * Z.of_nat (S k)) (seq k0 n)).
Proof.
  apply StronglySorted_Sorted. revert k0.
  induction n as [|n IHn]; intros k0; [constructor|]. simpl seq.
  rewrite map_cons. constructor; [apply IHn|].
  apply Forall_forall. intros u (k & -> & Hk%elem_of_seq)%list_elem_of_fmap.
  lia.
Qed.

Lemma two_timestamps_two_rows (pts : list (Z * float)) t u :
  t ∈ pts.*1 -> u ∈ pts.*1 -> t <> u -> (2 <= length pts)%nat.
Proof.
  destruct pts as [|p [|q pts]]; simpl; [by intros ?%elem_of_nil| |lia].
  intros ->%list_elem_of_singleton ->%list_elem_of_singleton. done.
Qed.

(** X12.  Duplicated or unordered timestamps in the history do not reach the
    forecast.  For a series of doubles, none infinite, with values that are
    not NaN at two different timestamps, on which Prophet's optimizer
    succeeds, under a pandas that reads the alias [H] as an hour and with
    timestamps that leave room for 48 more hours: whatever the order of
    the input, the forecast frame lists each distinct input timestamp
    once, in ascending order, and then the 48 hours after the latest one,
    so its timestamps are strictly ascending. *)
Theorem forecast_timestamps_strictly_ascending P s load_df m pts t0 t1 :
  heap s !! load_df = Some (mkDF ["datetime"; m] (series_rows pts)) ->
  m <> "datetime" ->
  t0 ∈ (filter (fun p => notnull p.2) pts).*1 ->
  t1 ∈ (filter (fun p => notnull p.2) pts).*1 ->
  t0 <> t1 ->
  existsb (fun p => isinf p.2) pts = false ->
  fit_error P pts = None ->
  to_offset P "H" = Some 3600 ->
  Forall (fun p => in_bounds (p.1 + 3600 * 48) = true) pts ->
  exists s' F tl,
    FinalDebugged.load_and_forecast P load_df s = (s', inr (Some F))
    /\ timestamps F
       = sort_unique pts.*1
         ++ map (fun k => tl + 3600 * Z.of_nat (S k)) (seq 0 48)
    /\ Sorted Z.lt (timestamps F)
    /\ tl ∈ pts.*1
    /\ (forall t, t ∈ pts.*1 -> t <= tl /\ t ∈ timestamps F).
Proof.
  intros Hload Hm Ht0 Ht1 Hne Hinf Hfit Hoff Hbounds.
  pose proof (two_timestamps_two_rows _ _ _ Ht0 Ht1 Hne) as Hn.
  assert (Hs := sort_unique_sorted pts.*1).
  destruct (last (sort_unique pts.*1)) as [tl|] eqn:Hl; cycle 1.
  { apply last_None in Hl. destruct pts as [|[t x] pts]; [simpl in Hn; lia|].
    assert (Hin : t ∈ sort_unique ((t, x) :: pts).*1)
      by (apply elem_of_sort_unique; left).
    rewrite Hl in Hin. by apply elem_of_nil in Hin. }
  pose proof (sorted_last_max _ _ Hs Hl) as Hmax.
  assert (Htl : tl ∈ pts.*1) by (by apply elem_of_sort_unique, last_Some_elem_of).
  assert (Hb : in_bounds (tl + 3600 * 48) = true).
  { apply list_elem_of_fmap in Htl as (p & -> & Hp).
    rewrite Forall_forall in Hbounds. by apply Hbounds. }
  unfold FinalDebugged.load_and_forecast.
  erewrite bind_inr by (by apply load_ok).
  assert (He : empty (mkDF ["datetime"; m] (series_rows pts)) = false).
  { destruct pts; [simpl in Hn; lia|done]. }
  rewrite He. cbn [negb].
  erewrite bind_inr by apply emit_logged.
  erewrite bind_inr by reflexivity.
  erewrite bind_inr by apply emit_logged.
  erewrite bind_inr by reflexivity.
  rewrite fit_any_series by done.
  destruct (Nat.ltb_spec (length (filter (fun p => notnull p.2) pts)) 2);
    [lia|].
  rewrite Hinf, Hfit.
  erewrite bind_inr by reflexivity.
  erewrite bind_inr
    by (by rewrite lift_ok, (future_frame P pts (sort_unique pts.*1) tl)).
  erewrite bind_inr by (by rewrite lift_ok, predict_frame).
  erewrite bind_inr by apply emit_logged.
  cbn [history].
  exists (logged (logged (logged s [StSubheader "Hourly Load and Forecast"])
            [StLineChart (mkDF ["datetime"; m] (series_rows pts))])
            [StPlotlyChart "Load Forecast (Next 48h)"
               (mkDF ["ds"; "yhat"; "yhat_lower"; "yhat_upper"]
                  (map (forecast_row P pts)
                     (sort_unique pts.*1
                      ++ map (fun k => tl + 3600 * Z.of_nat (S k))
                             (seq 0 48))))]).
  eexists. exists tl. split; [reflexivity|].
  rewrite timestamps_forecast_rows. split; [done|]. split; [|split].
  - apply sorted_app_lt; [done|apply future_dates_sorted|].
    intros x y Hx (k & -> & _)%list_elem_of_fmap. specialize (Hmax x Hx). lia.
  - done.
  - intros t Ht. split; [by apply Hmax, elem_of_sort_unique|].
    apply elem_of_app. left. by apply elem_of_sort_unique.
Qed.

Lemma forecast_timestamps_witness :
  exists s' F tl,
    FinalDebugged.load_and_forecast ex_prophet 0
      (mkSt [mkDF ["datetime"; "demand"]
                  (series_rows [(1688173200, 24500%float);
                                (1688169600, 25000%float);
                                (1688173200, 24400%float)])] [])
    = (s', inr (Some F))
    /\ timestamps F
       = sort_unique [1688173200; 1688169600; 1688173200]
         ++ map (fun k => tl + 3600 * Z.of_nat (S k)) (seq 0 48)
    /\ Sorted Z.lt (timestamps F)
    /\ tl ∈ [1688173200; 1688169600; 1688173200]
    /\ (forall t, t ∈ [1688173200; 1688169600; 1688173200] ->
          t <= tl /\ t ∈ timestamps F).
Proof.
  apply (forecast_timestamps_strictly_ascending ex_prophet
           (mkSt [mkDF ["datetime"; "demand"]
                       (series_rows [(1688173200, 24500%float);
                                     (1688169600, 25000%float);
                                     (1688173200, 24400%float)])] [])
           0 "demand"
           [(1688173200, 24500%float); (1688169600, 25000%float);
            (1688173200, 24400%float)] 1688173200 1688169600).
  - reflexivity.
  - done.
  - apply (bool_decide_unpack _). by vm_compute.
  - apply (bool_decide_unpack _). by vm_compute.
  - done.
  - by vm_compute.
  - reflexivity.
  - reflexivity.
  - repeat constructor.
Defined.



(** ** The requests of a whole run *)

Lemma sends_quiet {A} (m : M A) :
  (forall s, exists evs, trace (m s).1 = trace s ++ evs /\ requests evs = []) ->
  sends m [].
Proof.
  intros H s. destruct (H s) as (evs & Ht & Hr). exists evs.
  rewrite Hr. by split; [|split].
Qed.

Lemma sends_ret {A} (a : A) : sends (mret a) [].
Proof. apply sends_quiet. intros s. exists []. by rewrite app_nil_r. Qed.

Lemma sends_lift {A} (r : exn + A) : sends (lift r) [].
Proof. apply sends_quiet. intros s. exists []. by rewrite app_nil_r. Qed.

Lemma sends_load l : sends (load l) [].
Proof.
  apply sends_quiet. intros s. exists []. rewrite app_nil_r.
  unfold load. by destruct (heap s !! l).
Qed.

Lemma sends_alloc df : sends (alloc df) [].
Proof. apply sends_quiet. intros s. exists []. by rewrite app_nil_r. Qed.

Lemma sends_store l df : sends (store l df) [].
Proof. apply sends_quiet. intros s. exists []. by rewrite app_nil_r. Qed.

Lemma sends_emit ev : requests [ev] = [] -> sends (emit ev) [].
Proof. intros H. apply sends_quiet. intros s. by exists [ev]. Qed.

Lemma sends_bind {A B} (m : M A) (k : A -> M B) us vs :
  sends m us -> (forall a, sends (k a) vs) -> sends (m ≫= k) (us ++ vs).
Proof.
  intros Hm Hk s. destruct (Hm s) as (evs & Ht & Hp & Hr).
  unfold mbind, M_bind. destruct (m s) as [s1 [e|a]]; cbn [fst snd] in *.
  - exists evs. split; [done|]. split; [by apply prefix_app_r|done].
  - destruct (Hk a s1) as (evs2 & Ht2 & Hp2 & Hr2).
    exists (evs ++ evs2). rewrite Ht2, Ht, app_assoc. split; [done|].
    rewrite requests_app, (Hr a eq_refl). split; [by apply prefix_app|].
    intros b Hb. by rewrite (Hr2 b Hb).
Qed.

Lemma sends_bind_nil {A B} (m : M A) (k : A -> M B) us :
  sends m [] -> (forall a, sends (k a) us) -> sends (m ≫= k) us.
Proof. apply (sends_bind m k [] us). Qed.

Lemma sends_bind_cons {A B} (m : M A) (k : A -> M B) u us :
  sends m [u] -> (forall a, sends (k a) us) -> sends (m ≫= k) (u :: us).
Proof. apply (sends_bind m k [u] us). Qed.

Ltac quiet :=
  repeat first
    [ apply sends_ret
    | apply sends_lift
    | apply sends_load
    | apply sends_alloc
    | apply sends_store
    | apply sends_emit; reflexivity
    | apply sends_bind_nil; [|intros ?]
    | match goal with
      | |- sends (if ?b then _ else _) _ => destruct b
      end ].

Lemma sends_fetch w respondent metric api_key code :
  metric_map !! metric = Some code ->
  sends (FinalDebugged.fetch_eia_v2_hourly_series w respondent metric api_key)
        [request_url w respondent code api_key].
Proof.
  intros Hm s. rewrite final_fetch_run. cbn [fst snd]. eexists.
  split; [reflexivity|].
  assert (Hr : requests (fetch_view [StCaption (caption w)] " - " w respondent
                           metric api_key (strftime_Ymd (clock w - 7 * 86400))
                           (strftime_Ymd (clock w))).1
               = [request_url w respondent code api_key]).
  { unfold fetch_view, request_url. rewrite Hm. cbv zeta.
    destruct (serve w _) as [r|]; [|done].
    destruct (negb (status_code r =? 200)); [done|].
    destruct (json_body r) as [body|]; [|done].
    destruct (response_data body) as [e|data]; [done|].
    by destruct (negb (truthy data)). }
  rewrite Hr. by split.
Qed.

Lemma sends_load_and_forecast P load_df :
  sends (FinalDebugged.load_and_forecast P load_df) [].
Proof. unfold FinalDebugged.load_and_forecast. quiet. Qed.

Lemma sends_renewables load_df wind_df solar_df :
  sends (FinalDebugged.renewables_integration load_df wind_df solar_df) [].
Proof. unfold FinalDebugged.renewables_integration. quiet. Qed.

Lemma sends_arbitrage ni_df da_df rt_df :
  sends (FinalDebugged.intertie_arbitrage ni_df da_df rt_df) [].
Proof. unfold FinalDebugged.intertie_arbitrage. quiet. Qed.

(** X19.  Whatever the server answers and whatever the forecaster does, a run of
    the script only adds to what is shown, and the requests it sends are the
    first few of six: demand, wind, solar, net interchange, day-ahead price
    and real-time price of the selected authority, in this order, each
    once.  A run that reaches the end has sent all six. *)
Theorem script_requests_in_fixed_order P w selected_ba api_key s :
  exists evs,
    trace (FinalDebugged.script P w selected_ba api_key s).1 = trace s ++ evs
    /\ requests evs `prefix_of` script_urls w selected_ba api_key
    /\ ((FinalDebugged.script P w selected_ba api_key s).2 = inr tt ->
        requests evs = script_urls w selected_ba api_key).
Proof.
  assert (H : sends (FinalDebugged.script P w selected_ba api_key)
                    (script_urls w selected_ba api_key)).
  { unfold FinalDebugged.script, script_urls. cbn [map].
    apply sends_bind_cons; [by apply sends_fetch|intros ?].
    apply sends_bind_nil; [apply sends_alloc|intros ?].
    apply sends_bind_nil; [apply sends_load_and_forecast|intros ?].
    apply sends_bind_nil; [by apply sends_emit|intros ?].
    apply sends_bind_cons; [by apply sends_fetch|intros ?].
    apply sends_bind_nil; [apply sends_alloc|intros ?].
    apply sends_bind_cons; [by apply sends_fetch|intros ?].
    apply sends_bind_nil; [apply sends_alloc|intros ?].
    apply sends_bind_nil; [apply sends_renewables|intros ?].
    apply sends_bind_nil; [by apply sends_emit|intros ?].
    apply sends_bind_cons; [by apply sends_fetch|intros ?].
    apply sends_bind_nil; [apply sends_alloc|intros ?].
    apply sends_bind_cons; [by apply sends_fetch|intros ?].
    apply sends_bind_nil; [apply sends_alloc|intros ?].
    apply sends_bind_cons; [by apply sends_fetch|intros ?].
    apply sends_bind_nil; [apply sends_alloc|intros ?].
    apply sends_bind_nil; [apply sends_arbitrage|intros ?].
    apply sends_ret. }
  destruct (H s) as (evs & Ht & Hp & Hr). exists evs.
  split; [done|]. split; [done|]. apply Hr.
Qed.

(** ** The page when the API is down *)

Lemma fetch_api_down w respondent metric api_key code h tr :
  (forall url, exists r, serve w url = Some r /\ status_code r <> 200) ->
  metric_map !! metric = Some code ->
  FinalDebugged.fetch_eia_v2_hourly_series w respondent metric api_key
    (mkSt h tr)
  = (mkSt h (tr ++ failed_call w respondent metric code api_key),
     inr empty_frame).
Proof.
  intros Hdown Hm. rewrite final_fetch_run. unfold fetch_view.
  rewrite Hm. cbv zeta. fold (request_url w respondent code api_key).
  destruct (Hdown (request_url w respondent code api_key)) as (r & -> & Hc).
  by rewrite (proj2 (Z.eqb_neq _ _) Hc).
Qed.

Lemma alloc_run df h tr :
  alloc df (mkSt h tr) = (mkSt (h ++ [df]) tr, inr (length h)).
Proof. reflexivity. Qed.

Lemma emit_run ev h tr : emit ev (mkSt h tr) = (mkSt h (tr ++ [ev]), inr tt).
Proof. reflexivity. Qed.

Lemma load_run l df h tr :
  h !! l = Some df -> load l (mkSt h tr) = (mkSt h tr, inr df).
Proof. intros H. by apply load_ok. Qed.

Lemma forecast_skips_empty P l df h tr :
  h !! l = Some df -> empty df = true ->
  FinalDebugged.load_and_forecast P l (mkSt h tr) = (mkSt h tr, inr None).
Proof.
  intros Hl He. unfold FinalDebugged.load_and_forecast.
  erewrite bind_inr by (by apply load_run). by rewrite He.
Qed.

Ltac new_frame :=
  repeat first [ by apply list_lookup_middle | apply lookup_app_l_Some ].

(** X22.  When every request is answered with a status other than 200 the page
    still runs to its end: six warnings under six captions, the two later
    subheaders, and the notice of the arbitrage block.  The forecast block
    shows nothing, not even its subheader, the renewables block nothing but
    its subheader; no chart or table is drawn, and the only frames made
    are six empty ones. *)
Theorem script_with_api_down P w selected_ba api_key s :
  (forall url, exists r, serve w url = Some r /\ status_code r <> 200) ->
  FinalDebugged.script P w selected_ba api_key s
  = (mkSt (heap s ++ replicate 6 empty_frame)
          (trace s ++ api_down_page w selected_ba api_key),
     inr tt).
Proof.
  intros Hdown. destruct s as [h tr]. cbn [heap trace].
  unfold FinalDebugged.script.
  erewrite bind_inr by (by apply fetch_api_down).
  erewrite bind_inr by apply alloc_run.
  erewrite bind_inr by (by eapply forecast_skips_empty; [new_frame|]).
  erewrite bind_inr by apply emit_run.
  erewrite bind_inr by (by apply fetch_api_down).
  erewrite bind_inr by apply alloc_run.
  erewrite bind_inr by (by apply fetch_api_down).
  erewrite bind_inr by apply alloc_run.
  unfold FinalDebugged.renewables_integration at 1.
  erewrite bind_inr; cycle 1.
  { erewrite bind_inr by (apply load_run; new_frame).
    erewrite bind_inr by (apply load_run; new_frame).
    erewrite bind_inr by (apply load_run; new_frame).
    reflexivity. }
  erewrite bind_inr by apply emit_run.
  erewrite bind_inr by (by apply fetch_api_down).
  erewrite bind_inr by apply alloc_run.
  erewrite bind_inr by (by apply fetch_api_down).
  erewrite bind_inr by apply alloc_run.
  erewrite bind_inr by (by apply fetch_api_down).
  erewrite bind_inr by apply alloc_run.
  unfold FinalDebugged.intertie_arbitrage at 1.
  erewrite bind_inr; cycle 1.
  { erewrite bind_inr by (apply load_run; new_frame).
    erewrite bind_inr by (apply load_run; new_frame).
    erewrite bind_inr by (apply load_run; new_frame).
    cbn [empty empty_frame columns rows negb andb].
    erewrite bind_inr by apply emit_run. reflexivity. }
  unfold api_down_page. rewrite <- !app_assoc. reflexivity.
Qed.

Lemma script_with_api_down_witness :
  FinalDebugged.script ex_prophet (ex_serving (mkResponse 503 None))
    "CISO" "KEY" (mkSt [] [])
  = (mkSt (replicate 6 empty_frame)
          (api_down_page (ex_serving (mkResponse 503 None)) "CISO" "KEY"),
     inr tt).
Proof.
  apply (script_with_api_down ex_prophet (ex_serving (mkResponse 503 None))
           "CISO" "KEY" (mkSt [] [])).
  intros url. exists (mkResponse 503 None). split; [reflexivity|].
  cbn [status_code]. lia.
Defined.

(** ** The arbitrage block from end to end *)

Lemma find_row_series t pts :
  find_row t (series_rows pts)
  = (fun x => [CTime t; num x]) <$> value_at t pts.
Proof.
  induction pts as [|[u x] pts IH]; [done|]. simpl.
  destruct (Z.eqb_spec t u) as [->|Hne]; [done|]. exact IH.
Qed.

Lemma key_rows_series pts : key_rows 1 (series_rows pts).
Proof.
  unfold key_rows, series_rows. apply Forall_forall.
  intros r (p & -> & _)%list_elem_of_fmap. by eexists _, _.
Qed.

Lemma row_times_series pts : row_times (series_rows pts) = pts.*1.
Proof. apply (timestamps_series_rows []). Qed.

(** Joining keyed rows with a series of unique timestamps. *)
Lemma joined_series n rsA pts :
  key_rows n rsA -> NoDup pts.*1 ->
  joined rsA (series_rows pts)
  = omap (fun r => match r with
                   | CTime t :: _ => (fun x => r ++ [num x]) <$> value_at t pts
                   | _ => None
                   end) rsA.
Proof.
  intros HA Hnd. unfold key_rows in HA.
  induction HA as [|r rsA (t & vs & -> & Hlen) _ IH]; [done|].
  rewrite (joined_cons 1) by
    (by first [apply key_rows_series | rewrite row_times_series]).
  rewrite find_row_series, IH. cbn [omap list_omap].
  by destruct (value_at t pts).
Qed.

Lemma joined_first r rs rsB :
  joined (r :: rs) rsB = joined [r] rsB ++ joined rs rsB.
Proof. unfold joined. simpl. by rewrite app_nil_r. Qed.

Lemma arbitrage_joined pda prt pni :
  NoDup prt.*1 -> NoDup pni.*1 ->
  joined (joined (series_rows pda) (series_rows prt)) (series_rows pni)
  = omap (fun p =>
            y ← value_at p.1 prt;
            n ← value_at p.1 pni;
            Some [CTime p.1; num p.2; num y; num n]) pda.
Proof.
  intros Hrt Hni.
  rewrite (joined_series 1 (series_rows pda) prt) by
    (by first [apply key_rows_series | idtac]).
  induction pda as [|[t x] pda IH]; [done|].
  cbn [series_rows map omap list_omap fst snd].
  destruct (value_at t prt) as [y|]; cbn [fmap option_fmap option_map
                                          mbind option_bind]; [|exact IH].
  rewrite joined_first. fold (series_rows pda). rewrite IH.
  rewrite (joined_series 2 [_] pni); [|by repeat constructor; eexists _, _|done].
  cbn [omap list_omap app]. by destruct (value_at t pni).
Qed.

Lemma arbitrage_spread pda prt pni :
  map (fun r => r ++ [spread_cell 1 2 r])
      (omap (fun p =>
               y ← value_at p.1 prt;
               n ← value_at p.1 pni;
               Some [CTime p.1; num p.2; num y; num n]) pda)
  = arbitrage_rows pda prt pni
  /\ Forall (fun r => exists x y, r !! 1%nat = Some (num x)
                                  /\ r !! 2%nat = Some (num y))
            (omap (fun p =>
                     y ← value_at p.1 prt;
                     n ← value_at p.1 pni;
                     Some [CTime p.1; num p.2; num y; num n]) pda).
Proof.
  unfold arbitrage_rows.
  induction pda as [|[t x] pda [IH1 IH2]]; [by split; [|constructor]|].
  cbn [omap list_omap fst snd].
  destruct (value_at t prt) as [y|]; cbn [mbind option_bind]; [|done].
  destruct (value_at t pni) as [n|]; cbn [mbind option_bind]; [|done].
  split.
  - rewrite map_cons. f_equal. exact IH1.
  - constructor; [by eexists _, _|done].
Qed.

Lemma merge_prices pda prt :
  merge (mkDF ["datetime"; "lmp_da"] (series_rows pda))
        (mkDF ["datetime"; "lmp_rt"] (series_rows prt))
        "datetime" ("_DA", "_RT")
  = inr (mkDF ["datetime"; "lmp_da"; "lmp_rt"]
              (joined (series_rows pda) (series_rows prt))).
Proof. reflexivity. Qed.

Lemma merge_interchange rs pni :
  merge (mkDF ["datetime"; "lmp_da"; "lmp_rt"] rs)
        (mkDF ["datetime"; "net_interchange"] (series_rows pni))
        "datetime" default_suffixes
  = inr (mkDF ["datetime"; "lmp_da"; "lmp_rt"; "net_interchange"]
              (joined rs (series_rows pni))).
Proof. reflexivity. Qed.

Lemma with_spread_table rs :
  with_spread (mkDF ["datetime"; "lmp_da"; "lmp_rt"; "net_interchange"] rs)
              (map (spread_cell 1 2) rs) "net_interchange"
  = mkDF ["datetime"; "lmp_da"; "lmp_rt"; "Net Interchange (MW)";
          "Spread ($/MWh)"]
         (map (fun r => r ++ [spread_cell 1 2 r]) rs).
Proof.
  unfold with_spread, set_column.
  change (col_index "Spread ($/MWh)" _) with (@None nat). cbv iota.
  unfold rename. cbn [columns rows]. by rewrite zip_rows_map.
Qed.

(** The run of lines 117-125 on three series of numbers. *)
Lemma arbitrage_run s ni_df da_df rt_df pni pda prt :
  heap s !! ni_df
  = Some (mkDF ["datetime"; "net_interchange"] (series_rows pni)) ->
  heap s !! da_df = Some (mkDF ["datetime"; "lmp_da"] (series_rows pda)) ->
  heap s !! rt_df = Some (mkDF ["datetime"; "lmp_rt"] (series_rows prt)) ->
  pni <> [] -> pda <> [] -> prt <> [] ->
  NoDup prt.*1 -> NoDup pni.*1 ->
  FinalDebugged.intertie_arbitrage ni_df da_df rt_df s
  = (mkSt (heap s ++ [arbitrage_table pda prt pni])
          (trace s
           ++ [StPlotlyChart "Net Interchange vs DA-RT Spread"
                 (arbitrage_table pda prt pni);
               StDataframe (tail 24 (arbitrage_table pda prt pni))]),
     inr (Some (length (heap s)))).
Proof.
  intros HNI HDA HRT Eni Eda Ert Hrt Hni.
  unfold FinalDebugged.intertie_arbitrage.
  erewrite bind_inr by (by apply load_ok).
  erewrite bind_inr by (by apply load_ok).
  erewrite bind_inr by (by apply load_ok).
  assert (He : forall m pts, pts <> [] ->
                 empty (mkDF ["datetime"; m] (series_rows pts)) = false)
    by (by intros m [|p pts]).
  rewrite !He by done. cbn [negb andb].
  erewrite bind_inr by (by rewrite lift_ok, merge_prices).
  erewrite bind_inr by
    (by rewrite lift_ok, merge_interchange, arbitrage_joined).
  erewrite bind_inr by reflexivity.
  destruct (arbitrage_spread pda prt pni) as [Hrows Hnum].
  erewrite bind_inr; cycle 1.
  { eapply (derive_spread_run _ _ _ _ _ _ _ _ _ "lmp_da" "lmp_rt"
              "net_interchange").
    - cbn [heap]. by apply list_lookup_middle.
    - cbn [heap]. by apply lookup_app_l_Some.
    - cbn [heap]. by apply lookup_app_l_Some.
    - reflexivity.
    - reflexivity.
    - cbn [heap]. by apply lookup_app_l_Some.
    - reflexivity.
    - apply lookup_lt_Some in HNI. lia.
    - reflexivity.
    - reflexivity.
    - cbn [rows]. by apply sub_columns_numeric. }
  rewrite with_spread_table, Hrows. fold (arbitrage_table pda prt pni).
  cbn [heap trace].
  rewrite insert_app_r_alt, Nat.sub_diag by lia. cbn [insert list_insert].
  erewrite bind_inr by (by apply load_ok, list_lookup_middle).
  erewrite bind_inr by reflexivity.
  erewrite bind_inr by apply emit_logged.
  erewrite bind_inr by apply emit_logged.
  unfold mret, M_ret, logged. cbn [heap trace]. by rewrite <- app_assoc.
Qed.

(** X16.  Lines 117-125 on three series whose values are doubles ([float64]
    columns), none empty, where no hour has two real-time prices or two
    interchange values: the block makes one new table, [arbitrage_table],
    with a row for each day-ahead price whose hour the other two series
    have, in the order of the day-ahead series, and in it the two prices,
    the interchange under its new label and the spread, the IEEE
    difference of the two doubles; it charts the table and lists its last
    24 rows.  The three series stay as they were. *)
Theorem arbitrage_block_on_three_series s ni_df da_df rt_df pni pda prt :
  heap s !! ni_df
  = Some (mkDF ["datetime"; "net_interchange"] (series_rows pni)) ->
  heap s !! da_df = Some (mkDF ["datetime"; "lmp_da"] (series_rows pda)) ->
  heap s !! rt_df = Some (mkDF ["datetime"; "lmp_rt"] (series_rows prt)) ->
  pni <> [] -> pda <> [] -> prt <> [] ->
  NoDup prt.*1 -> NoDup pni.*1 ->
  exists s',
    FinalDebugged.intertie_arbitrage ni_df da_df rt_df s
    = (s', inr (Some (length (heap s))))
    /\ heap s' = heap s ++ [arbitrage_table pda prt pni]
    /\ trace s'
       = trace s
         ++ [StPlotlyChart "Net Interchange vs DA-RT Spread"
               (arbitrage_table pda prt pni);
             StDataframe (tail 24 (arbitrage_table pda prt pni))]
    /\ heap s' !! ni_df = heap s !! ni_df
    /\ heap s' !! da_df = heap s !! da_df
    /\ heap s' !! rt_df = heap s !! rt_df.
Proof.
  intros HNI HDA HRT Eni Eda Ert Hrt Hni.
  rewrite (arbitrage_run s ni_df da_df rt_df pni pda prt) by done.
  eexists. split; [reflexivity|]. cbn [heap trace].
  split; [done|]. split; [done|].
  rewrite HNI, HDA, HRT. by split; [|split]; apply lookup_app_l_Some.
Qed.

Lemma arbitrage_block_witness :
  exists s',
    FinalDebugged.intertie_arbitrage 0 1 2
      (mkSt [series "net_interchange" [(1688173200, (-350)%float);
                                       (1688176800, (-410)%float)];
             series "lmp_da" [(1688169600, 40%float);
                              (1688173200, 41.5%float);
                              (1688176800, 43%float)];
             series "lmp_rt" [(1688176800, 44.5%float);
                              (1688173200, 39.25%float)]] [])
    = (s', inr (Some 3%nat))
    /\ heap s' !! 3%nat
       = Some (mkDF ["datetime"; "lmp_da"; "lmp_rt"; "Net Interchange (MW)";
                     "Spread ($/MWh)"]
                    [[CTime 1688173200; num 41.5; num 39.25; num (-350);
                      num 2.25];
                     [CTime 1688176800; num 43; num 44.5; num (-410);
                      num (-1.5)]]).
Proof.
  destruct (arbitrage_block_on_three_series
              (mkSt [series "net_interchange" [(1688173200, (-350)%float);
                                               (1688176800, (-410)%float)];
                     series "lmp_da" [(1688169600, 40%float);
                                      (1688173200, 41.5%float);
                                      (1688176800, 43%float)];
                     series "lmp_rt" [(1688176800, 44.5%float);
                                      (1688173200, 39.25%float)]] [])
              0 1 2
              [(1688173200, (-350)%float); (1688176800, (-410)%float)]
              [(1688169600, 40%float); (1688173200, 41.5%float);
               (1688176800, 43%float)]
              [(1688176800, 44.5%float); (1688173200, 39.25%float)])
    as (s' & Hrun & Hheap & _).
  - reflexivity.
  - reflexivity.
  - reflexivity.
  - done.
  - done.
  - done.
  - apply (bool_decide_unpack _). by vm_compute.
  - apply (bool_decide_unpack _). by vm_compute.
  - exists s'. split; [exact Hrun|]. by rewrite Hheap.
Defined.

(** ** What a run needs and what it never shows *)

Lemma needs_bind_l {A B} (m : M A) (k : A -> M B) Q :
  needs m Q -> needs (m ≫= k) Q.
Proof.
  intros Hm s b. unfold mbind, M_bind. specialize (Hm s).
  destruct (m s) as [s1 [e|a]]; [done|]. intros _. by apply (Hm a).
Qed.

Lemma needs_bind_r {A B} (m : M A) (k : A -> M B) Q :
  (forall a, needs (k a) Q) -> needs (m ≫= k) Q.
Proof.
  intros Hk s b. unfold mbind, M_bind.
  destruct (m s) as [s1 [e|a]]; [done|]. apply Hk.
Qed.

Lemma needs_fetch w respondent metric api_key code :
  metric_map !! metric = Some code ->
  needs (FinalDebugged.fetch_eia_v2_hourly_series w respondent metric api_key)
        (is_Some (serve w (request_url w respondent code api_key))).
Proof.
  intros Hm s df. rewrite final_fetch_run. cbn [snd].
  unfold fetch_view. rewrite Hm. cbv zeta.
  fold (request_url w respondent code api_key).
  by destruct (serve w _) as [r|].
Qed.

(** X20.  A request that gets no answer is never caught: the script reaches its
    end only if each of its six requests was answered. *)
Theorem script_completes_only_if_requests_answered
  P w selected_ba api_key s :
  (FinalDebugged.script P w selected_ba api_key s).2 = inr tt ->
  Forall (fun url => is_Some (serve w url))
         (script_urls w selected_ba api_key).
Proof.
  assert (H : forall code,
    code ∈ ["D"; "NG.WND"; "NG.SUN"; "NI"; "LMP_DA"; "LMP_RT"] ->
    needs (FinalDebugged.script P w selected_ba api_key)
          (is_Some (serve w (request_url w selected_ba code api_key)))).
  { intros code Hc. unfold FinalDebugged.script.
    repeat (apply elem_of_cons in Hc as [->|Hc];
            [repeat first [ by apply needs_bind_l, needs_fetch
                          | apply needs_bind_r; intros ? ]|]).
    by apply elem_of_nil in Hc. }
  intros Hrun. unfold script_urls. apply Forall_fmap, Forall_forall.
  intros code Hc. by apply (H code Hc s tt).
Qed.

Lemma script_completes_witness :
  Forall (fun url => is_Some (serve (ex_serving (mkResponse 503 None)) url))
         (script_urls (ex_serving (mkResponse 503 None)) "CISO" "KEY").
Proof.
  apply (script_completes_only_if_requests_answered
           ex_prophet (ex_serving (mkResponse 503 None)) "CISO" "KEY"
           (mkSt [] [])).
  vm_compute. reflexivity.
Defined.

Lemma adds_quiet {A} (m : M A) Q :
  (forall s, trace (m s).1 = trace s) -> adds m Q.
Proof. intros H s. exists []. by rewrite app_nil_r, H. Qed.

Lemma adds_ret {A} (a : A) Q : adds (mret a) Q.
Proof. by apply adds_quiet. Qed.

Lemma adds_lift {A} (r : exn + A) Q : adds (lift r) Q.
Proof. by apply adds_quiet. Qed.

Lemma adds_load l Q : adds (load l) Q.
Proof.
  apply adds_quiet. intros s. unfold load. by destruct (heap s !! l).
Qed.

Lemma adds_alloc df Q : adds (alloc df) Q.
Proof. by apply adds_quiet. Qed.

Lemma adds_store l df Q : adds (store l df) Q.
Proof. by apply adds_quiet. Qed.

Lemma adds_emit ev (Q : event -> Prop) : Q ev -> adds (emit ev) Q.
Proof. intros H s. exists [ev]. split; [done|]. by repeat constructor. Qed.

Lemma adds_bind {A B} (m : M A) (k : A -> M B) Q :
  adds m Q -> (forall a, adds (k a) Q) -> adds (m ≫= k) Q.
Proof.
  intros Hm Hk s. destruct (Hm s) as (evs & Ht & HQ).
  unfold mbind, M_bind. destruct (m s) as [s1 [e|a]]; cbn [fst snd] in *.
  - by exists evs.
  - destruct (Hk a s1) as (evs2 & Ht2 & HQ2).
    exists (evs ++ evs2). rewrite Ht2, Ht, app_assoc. split; [done|].
    by apply Forall_app.
Qed.

Ltac shown :=
  repeat first
    [ apply adds_ret
    | apply adds_lift
    | apply adds_load
    | apply adds_alloc
    | apply adds_store
    | apply adds_emit; exact I
    | apply adds_bind; [|intros ?]
    | match goal with
      | |- adds (if ?b then _ else _) _ => destruct b
      end ].

Lemma adds_fetch w respondent metric api_key :
  is_Some (metric_map !! metric) ->
  adds (FinalDebugged.fetch_eia_v2_hourly_series w respondent metric api_key)
       not_error.
Proof.
  intros [code Hm] s. rewrite final_fetch_run. cbn [fst snd]. eexists.
  split; [reflexivity|]. unfold fetch_view. rewrite Hm. cbv zeta.
  destruct (serve w _) as [r|]; [|by repeat constructor].
  destruct (negb (status_code r =? 200)); [by repeat constructor|].
  destruct (json_body r) as [body|]; [|by repeat constructor].
  destruct (response_data body) as [e|data]; [by repeat constructor|].
  destruct (negb (truthy data)); by repeat constructor.
Qed.

(** X21.  The script never calls [st.error]: each of the six metrics it asks for
    is a key of [metric_map], so the branch for an unsupported metric is
    never taken, and no other line reports an error on the page; a failure
    shows as a warning, a notice, or an exception that ends the run. *)
Theorem script_never_calls_st_error P w selected_ba api_key s :
  exists evs,
    trace (FinalDebugged.script P w selected_ba api_key s).1 = trace s ++ evs
    /\ Forall not_error evs.
Proof.
  assert (H : adds (FinalDebugged.script P w selected_ba api_key) not_error).
  { unfold FinalDebugged.script.
    repeat first [ apply adds_bind; [by apply adds_fetch|intros ?]
                 | apply adds_bind; [|intros ?] ];
      try (unfold FinalDebugged.load_and_forecast,
             FinalDebugged.renewables_integration,
             FinalDebugged.intertie_arbitrage, FinalDebugged.derive_spread);
      shown. }
  exact (H s).
Qed.

(** X17.  The arbitrage block shows its notice exactly when one of the three
    frames is empty.  With three frames that are not empty it shows no
    notice, whatever else happens: it charts the table or ends in an
    exception of the merge, of the spread step or of the chart. *)
Theorem arbitrage_notice_iff_a_frame_is_empty s ni_df da_df rt_df NI DA RT :
  heap s !! ni_df = Some NI ->
  heap s !! da_df = Some DA ->
  heap s !! rt_df = Some RT ->
  exists evs,
    trace (FinalDebugged.intertie_arbitrage ni_df da_df rt_df s).1
    = trace s ++ evs
    /\ (StInfo unavailable_notice ∈ evs
        <-> empty NI = true \/ empty DA = true \/ empty RT = true).
Proof.
  intros HNI HDA HRT. unfold FinalDebugged.intertie_arbitrage.
  erewrite bind_inr by (by apply load_ok).
  erewrite bind_inr by (by apply load_ok).
  erewrite bind_inr by (by apply load_ok).
  destruct (negb (empty NI) && negb (empty DA) && negb (empty RT)) eqn:He.
  - apply andb_prop in He as [[H1 H2]%andb_prop H3].
    apply negb_true_iff in H1, H2, H3. rewrite H1, H2, H3.
    match goal with
    | |- exists evs, trace (?m s).1 = _ /\ _ =>
        assert (H : adds m not_info)
          by (unfold FinalDebugged.derive_spread; shown)
    end.
    destruct (H s) as (evs & Ht & HQ). exists evs. split; [done|].
    split; [|by intros [|[|]]].
    intros Hin. rewrite Forall_forall in HQ. by destruct (HQ _ Hin).
  - erewrite bind_inr by apply emit_logged. exists [StInfo unavailable_notice].
    split; [done|]. split; [|intros _; by left].
    intros _. destruct (empty NI), (empty DA), (empty RT); auto.
Qed.

Lemma arbitrage_notice_witness :
  exists evs,
    trace (FinalDebugged.intertie_arbitrage 0 1 2
             (mkSt [empty_frame; ex_da; ex_rt] [])).1
    = [] ++ evs
    /\ (StInfo unavailable_notice ∈ evs
        <-> empty empty_frame = true \/ empty ex_da = true
            \/ empty ex_rt = true).
Proof.
  apply (arbitrage_notice_iff_a_frame_is_empty
           (mkSt [empty_frame; ex_da; ex_rt] []) 0 1 2
           empty_frame ex_da ex_rt).
  - reflexivity.
  - reflexivity.
  - reflexivity.
Defined.

(** ** The spread step on a table without a price column *)

(** X18.  When the aligned table lacks a price column, line 119 raises
    [KeyError] for the first label it cannot find, the day-ahead one being
    looked up first; nothing has been assigned by then, so the table and
    every other frame are as before. *)
Theorem derive_spread_missing_column_raises_KeyError
  s merged_prices da_df rt_df ni_df T DA RT da_col rt_col :
  heap s !! merged_prices = Some T ->
  heap s !! da_df = Some DA ->
  heap s !! rt_df = Some RT ->
  column_label DA 1 = inr da_col ->
  column_label RT 1 = inr rt_col ->
  da_col ∉ columns T \/ rt_col ∉ columns T ->
  FinalDebugged.derive_spread merged_prices da_df rt_df ni_df s
  = (s, inl (KeyError (if bool_decide (da_col ∈ columns T)
                       then rt_col else da_col))).
Proof.
  intros HT HDA HRT Hda Hrt Hmiss. case_bool_decide as Hin.
  - destruct Hmiss as [?|Hmiss]; [done|].
    destruct (col_index_elem _ _ Hin) as [i Hi].
    eapply (derive_spread_no_real_time s merged_prices da_df rt_df ni_df
              T DA RT da_col rt_col); try done.
    + unfold get_column. by rewrite Hi.
    + by apply col_index_None.
  - eapply (derive_spread_no_day_ahead s merged_prices da_df rt_df ni_df
              T DA da_col); try done.
    by apply col_index_None.
Qed.

Lemma derive_spread_missing_column_witness :
  FinalDebugged.derive_spread 2 0 1 0 (mkSt [ex_da; ex_rt; ex_da] [])
  = (mkSt [ex_da; ex_rt; ex_da] [], inl (KeyError "lmp_rt")).
Proof.
  apply (derive_spread_missing_column_raises_KeyError
           (mkSt [ex_da; ex_rt; ex_da] []) 2 0 1 0 ex_da ex_da ex_rt
           "lmp_da" "lmp_rt").
  - reflexivity.
  - reflexivity.
  - reflexivity.
  - reflexivity.
  - reflexivity.
  - right. apply (bool_decide_unpack _). by vm_compute.
Defined.

(** ** The page when every series arrives *)

Lemma fetch_answered w respondent metric api_key code pts h tr :
  metric_map !! metric = Some code ->
  answers w respondent code api_key pts ->
  FinalDebugged.fetch_eia_v2_hourly_series w respondent metric api_key
    (mkSt h tr)
  = (mkSt h (tr ++ answered_call w respondent code api_key),
     inr (series metric pts)).
Proof.
  intros Hm (r & body & data & Hs & Hc & Hb & Hd & Hpts & Hne).
  rewrite (fetch_supported _ _ _ _ _ _ _ _ _ Hm Hs Hc Hb Hd).
  destruct data as [|d data].
  { apply mapM_Some in Hpts. by apply Forall2_nil_inv_l in Hpts as ->. }
  change (truthy (JArr (d :: data))) with true. cbv iota.
  assert (Hne' : d :: data <> []) by done.
  rewrite (frame_of_data_series _ _ _ Hne' Hpts). reflexivity.
Qed.

Lemma max_date_in_bounds (pts : list (Z * float)) :
  pts <> [] ->
  Forall (fun p => in_bounds (p.1 + 3600 * 48) = true) pts ->
  in_bounds (max_date (sort_unique pts.*1) + 3600 * 48) = true.
Proof.
  intros Hne Hb. assert (Hs := sort_unique_sorted pts.*1).
  destruct (last (sort_unique pts.*1)) as [tl|] eqn:Hl; cycle 1.
  { apply last_None in Hl. destruct pts as [|[t x] pts]; [done|].
    assert (Hin : t ∈ sort_unique ((t, x) :: pts).*1)
      by (apply elem_of_sort_unique; left).
    rewrite Hl in Hin. by apply elem_of_nil in Hin. }
  rewrite (max_date_ascending _ _ Hs Hl).
  assert (Htl : tl ∈ pts.*1) by (by apply elem_of_sort_unique, last_Some_elem_of).
  apply list_elem_of_fmap in Htl as (p & -> & Hp).
  rewrite Forall_forall in Hb. by apply Hb.
Qed.

Lemma forecast_run P l m pts h tr :
  h !! l = Some (series m pts) ->
  m <> "datetime" ->
  (2 <= length (filter (fun p => notnull p.2) pts))%nat ->
  existsb (fun p => isinf p.2) pts = false ->
  fit_error P pts = None ->
  to_offset P "H" = Some 3600 ->
  Forall (fun p => in_bounds (p.1 + 3600 * 48) = true) pts ->
  FinalDebugged.load_and_forecast P l (mkSt h tr)
  = (mkSt h (tr ++ [StSubheader "Hourly Load and Forecast";
                    StLineChart (series m pts);
                    StPlotlyChart "Load Forecast (Next 48h)"
                                  (forecast_table P pts)]),
     inr (Some (forecast_table P pts))).
Proof.
  intros Hl Hm Hn Hinf Hfit Hoff Hb. unfold FinalDebugged.load_and_forecast.
  erewrite bind_inr by (by apply load_run).
  assert (Hne : pts <> []) by (destruct pts; [simpl in Hn; lia|done]).
  assert (He : empty (series m pts) = false) by (by destruct pts).
  rewrite He. cbn [negb].
  erewrite bind_inr by apply emit_run.
  erewrite bind_inr by reflexivity.
  erewrite bind_inr by apply emit_run.
  erewrite bind_inr by reflexivity.
  unfold series at 1 2. rewrite fit_any_series by done.
  destruct (Nat.ltb_spec (length (filter (fun p => notnull p.2) pts)) 2);
    [lia|].
  rewrite Hinf, Hfit.
  erewrite bind_inr by reflexivity.
  unfold make_future_dataframe. cbn [history_dates]. rewrite Hoff.
  change (Z.of_nat 48) with 48. rewrite (max_date_in_bounds pts Hne Hb).
  erewrite bind_inr by reflexivity.
  erewrite bind_inr by (by rewrite lift_ok, predict_frame).
  erewrite bind_inr by apply emit_run.
  unfold mret, M_ret, forecast_table. cbn [history]. by rewrite <- !app_assoc.
Qed.

Lemma merge_chain_three pd pw ps :
  NoDup pw.*1 -> NoDup ps.*1 ->
  merge_chain (series "demand" pd) [series "wind" pw; series "solar" ps]
  = inr (renewables_table pd pw ps).
Proof.
  intros Hw Hs. unfold renewables_table.
  rewrite <- (arbitrage_joined pd pw ps Hw Hs). reflexivity.
Qed.

Lemma renewables_run l lw ls L W S T wind_col solar_col load_col h tr :
  h !! l = Some L -> h !! lw = Some W -> h !! ls = Some S ->
  empty L = false -> empty W = false -> empty S = false ->
  merge_chain L [W; S] = inr T ->
  column_label W 1 = inr wind_col ->
  column_label S 1 = inr solar_col ->
  column_label L 1 = inr load_col ->
  px_check T "datetime" [wind_col; solar_col; load_col] = inr tt ->
  FinalDebugged.renewables_integration l lw ls (mkSt h tr)
  = (mkSt (h ++ [T]) (tr ++ [StPlotlyChart "Stacked Renewables vs Load" T]),
     inr (Some (length h))).
Proof.
  intros HL HW HS EL EW ES HT Hw Hs Hl Hpx.
  unfold FinalDebugged.renewables_integration.
  erewrite bind_inr by (by apply load_run).
  erewrite bind_inr by (by apply load_run).
  erewrite bind_inr by (by apply load_run).
  rewrite EL, EW, ES. cbn [negb andb].
  erewrite bind_inr by (by rewrite lift_ok, HT).
  erewrite bind_inr by reflexivity.
  erewrite bind_inr by (by rewrite lift_ok, Hw).
  erewrite bind_inr by (by rewrite lift_ok, Hs).
  erewrite bind_inr by (by rewrite lift_ok, Hl).
  erewrite bind_inr by (by rewrite lift_ok, Hpx).
  erewrite bind_inr by reflexivity. done.
Qed.

Lemma series_not_empty m pts : pts <> [] -> empty (series m pts) = false.
Proof. by destruct pts. Qed.

(** X23.  When each of the six requests is answered with a series of doubles
    (two load values that are not NaN at different hours and no infinite
    load value; no hour twice in the wind, solar, real-time price and
    interchange series), Prophet's optimizer succeeds on the load series,
    pandas reads the alias [H] as an hour and the load's timestamps leave
    room for 48 more hours, then the script runs to its end and shows all
    three sections: the load with its forecast, the renewables chart over
    the hours the load, wind and solar series share, and the arbitrage
    chart with the last 24 rows of its table.  It makes eight frames: the
    six series as fetched and the two merged tables.  (All six calls read
    the same clock.) *)
Theorem script_shows_all_sections
  P w selected_ba api_key s pd pw ps pni pda prt t0 t1 :
  answers w selected_ba "D" api_key pd ->
  answers w selected_ba "NG.WND" api_key pw ->
  answers w selected_ba "NG.SUN" api_key ps ->
  answers w selected_ba "NI" api_key pni ->
  answers w selected_ba "LMP_DA" api_key pda ->
  answers w selected_ba "LMP_RT" api_key prt ->
  t0 ∈ (filter (fun p => notnull p.2) pd).*1 ->
  t1 ∈ (filter (fun p => notnull p.2) pd).*1 ->
  t0 <> t1 ->
  existsb (fun p => isinf p.2) pd = false ->
  fit_error P pd = None ->
  to_offset P "H" = Some 3600 ->
  Forall (fun p => in_bounds (p.1 + 3600 * 48) = true) pd ->
  NoDup pw.*1 -> NoDup ps.*1 -> NoDup prt.*1 -> NoDup pni.*1 ->
  FinalDebugged.script P w selected_ba api_key s
  = (mkSt (heap s
           ++ [series "demand" pd; series "wind" pw; series "solar" ps;
               renewables_table pd pw ps;
               series "net_interchange" pni; series "lmp_da" pda;
               series "lmp_rt" prt;
               arbitrage_table pda prt pni])
          (trace s
           ++ full_page P w selected_ba api_key pd pw ps pni pda prt),
     inr tt).
Proof.
  intros Hd Hw Hs Hni Hda Hrt Ht0 Ht1 Hne Hinf Hfit Hoff Hb Nw Ns Nrt Nni.
  pose proof (two_timestamps_two_rows _ _ _ Ht0 Ht1 Hne) as Hn.
  assert (Ed : pd <> []) by (by destruct Hd as (? & ? & ? & ? & ? & ? & ? & ? & ?)).
  assert (Ew : pw <> []) by (by destruct Hw as (? & ? & ? & ? & ? & ? & ? & ? & ?)).
  assert (Es : ps <> []) by (by destruct Hs as (? & ? & ? & ? & ? & ? & ? & ? & ?)).
  assert (Eni : pni <> []) by (by destruct Hni as (? & ? & ? & ? & ? & ? & ? & ? & ?)).
  assert (Eda : pda <> []) by (by destruct Hda as (? & ? & ? & ? & ? & ? & ? & ? & ?)).
  assert (Ert : prt <> []) by (by destruct Hrt as (? & ? & ? & ? & ? & ? & ? & ? & ?)).
  destruct s as [h tr]. cbn [heap trace].
  unfold FinalDebugged.script.
  erewrite bind_inr by (by apply fetch_answered).
  erewrite bind_inr by apply alloc_run.
  erewrite bind_inr by (by eapply forecast_run; [new_frame|..]).
  erewrite bind_inr by apply emit_run.
  erewrite bind_inr by (by apply fetch_answered).
  erewrite bind_inr by apply alloc_run.
  erewrite bind_inr by (by apply fetch_answered).
  erewrite bind_inr by apply alloc_run.
  erewrite bind_inr by
    (eapply renewables_run;
     [new_frame|new_frame|new_frame
     |by apply series_not_empty|by apply series_not_empty
     |by apply series_not_empty|by apply merge_chain_three
     |reflexivity..]).
  erewrite bind_inr by apply emit_run.
  erewrite bind_inr by (by apply fetch_answered).
  erewrite bind_inr by apply alloc_run.
  erewrite bind_inr by (by apply fetch_answered).
  erewrite bind_inr by apply alloc_run.
  erewrite bind_inr by (by apply fetch_answered).
  erewrite bind_inr by apply alloc_run.
  erewrite bind_inr; cycle 1.
  { eapply (arbitrage_run _ _ _ _ pni pda prt); cbn [heap]; try done;
      new_frame. }
  cbn [heap trace]. unfold full_page, mret, M_ret.
  rewrite <- !app_assoc. reflexivity.
Qed.

Lemma ex_market_answers code pts r :
  serve ex_market (request_url ex_market "CISO" code "KEY") = Some r ->
  status_code r = 200 ->
  (exists body data,
     json_body r = Some body /\ response_data body = inr (JArr data)
     /\ mapM record_point data = Some pts) ->
  pts <> [] ->
  answers ex_market "CISO" code "KEY" pts.
Proof.
  intros Hs Hc (body & data & Hb & Hd & Hp) Hne. by exists r, body, data.
Qed.

Lemma script_shows_all_sections_witness :
  FinalDebugged.script ex_prophet ex_market "CISO" "KEY" (mkSt [] [])
  = (mkSt ([] ++ [series "demand" [(1688169600, 25000%float);
                                   (1688173200, 24500%float)];
                  series "wind" [(1688173200, 3100%float);
                                 (1688169600, 3000%float)];
                  series "solar" [(1688169600, 0%float);
                                  (1688173200, 120%float)];
                  mkDF ["datetime"; "demand"; "wind"; "solar"]
                       [[CTime 1688169600; num 25000; num 3000; num 0];
                        [CTime 1688173200; num 24500; num 3100; num 120]];
                  series "net_interchange" [(1688169600, (-350)%float);
                                            (1688173200, (-410)%float)];
                  series "lmp_da" [(1688169600, 40%float);
                                   (1688173200, 41.5%float)];
                  series "lmp_rt" [(1688173200, 39.25%float);
                                   (1688169600, 38%float)];
                  mkDF ["datetime"; "lmp_da"; "lmp_rt";
                        "Net Interchange (MW)"; "Spread ($/MWh)"]
                       [[CTime 1688169600; num 40; num 38; num (-350);
                         num 2];
                        [CTime 1688173200; num 41.5; num 39.25; num (-410);
                         num 2.25]]])
          ([] ++ full_page ex_prophet ex_market "CISO" "KEY"
                   [(1688169600, 25000%float); (1688173200, 24500%float)]
                   [(1688173200, 3100%float); (1688169600, 3000%float)]
                   [(1688169600, 0%float); (1688173200, 120%float)]
                   [(1688169600, (-350)%float); (1688173200, (-410)%float)]
                   [(1688169600, 40%float); (1688173200, 41.5%float)]
                   [(1688173200, 39.25%float); (1688169600, 38%float)]),
     inr tt).
Proof.
  apply (script_shows_all_sections ex_prophet ex_market "CISO" "KEY"
           (mkSt [] [])
           [(1688169600, 25000%float); (1688173200, 24500%float)]
           [(1688173200, 3100%float); (1688169600, 3000%float)]
           [(1688169600, 0%float); (1688173200, 120%float)]
           [(1688169600, (-350)%float); (1688173200, (-410)%float)]
           [(1688169600, 40%float); (1688173200, 41.5%float)]
           [(1688173200, 39.25%float); (1688169600, 38%float)]
           1688169600 1688173200).
  - eapply ex_market_answers;
      [vm_compute; reflexivity|reflexivity
      |do 2 eexists; split; [reflexivity|]; split; [reflexivity|];
       vm_compute; reflexivity
      |done].
  - eapply ex_market_answers;
      [vm_compute; reflexivity|reflexivity
      |do 2 eexists; split; [reflexivity|]; split; [reflexivity|];
       vm_compute; reflexivity
      |done].
  - eapply ex_market_answers;
      [vm_compute; reflexivity|reflexivity
      |do 2 eexists; split; [reflexivity|]; split; [reflexivity|];
       vm_compute; reflexivity
      |done].
  - eapply ex_market_answers;
      [vm_compute; reflexivity|reflexivity
      |do 2 eexists; split; [reflexivity|]; split; [reflexivity|];
       vm_compute; reflexivity
      |done].
  - eapply ex_market_answers;
      [vm_compute; reflexivity|reflexivity
      |do 2 eexists; split; [reflexivity|]; split; [reflexivity|];
       vm_compute; reflexivity
      |done].
  - eapply ex_market_answers;
      [vm_compute; reflexivity|reflexivity
      |do 2 eexists; split; [reflexivity|]; split; [reflexivity|];
       vm_compute; reflexivity
      |done].
  - apply (bool_decide_unpack _). by vm_compute.
  - apply (bool_decide_unpack _). by vm_compute.
  - done.
  - by vm_compute.
  - reflexivity.
  - reflexivity.
  - repeat constructor.
  - apply (bool_decide_unpack _). by vm_compute.
  - apply (bool_decide_unpack _). by vm_compute.
  - apply (bool_decide_unpack _). by vm_compute.
  - apply (bool_decide_unpack _). by vm_compute.
Defined.

(** ** The renewables block from end to end *)


